(** * Dual-retrieval comparison and judging engine

    A shallow embedding of [knowledge_graph_rag_comparison.py]: the methods
    of the class [Neo4jGraphRAG] for keyword and vector retrieval, answer
    generation, Text-to-Cypher translation and execution, subgraph
    extraction, data loading and the LLM judge, and the stand-alone
    [batch_judge_questions] and [quick_ask_with_judge].  The constructor
    and [close] are not embedded.

    Conventions of the embedding.
    - Python values that travel through Neo4j records and JSON documents are
      the inductive type [value]; a [Dict[str, Any]] is an association list
      in insertion order.  A Neo4j date is the string of its ISO form.
    - A dictionary that a method builds with fixed keys is a record, or an
      inductive type with one constructor for each [return] when the keys
      differ from one [return] to the other.
    - A Python [str] is a [string]; a non-ASCII code point is the sequence of
      its UTF-8 bytes, and case and white space are those of ASCII.
    - A Python [float] is the rational it denotes (no NaN, no infinities),
      and float arithmetic is exact; fixed-point formatting rounds that
      rational half-to-even.
    - The Neo4j driver, the OpenAI client and the wall clock are oracles that
      may answer differently on every call: each of them reads the trace of
      the calls made so far.  A method of the class is a computation in the
      monad [M]: it threads the trace and may raise.
    - [print] calls are left out, except that an expression evaluated for
      printing and able to raise is kept as a check, and that the statistics
      printed by [batch_judge_questions] are returned as a report. *)

From Stdlib Require Import List String Ascii ZArith QArith Lia Bool Arith.
From Stdlib Require Import Permutation DecimalString.
Import ListNotations.

Set Warnings "-register-all".

Local Close Scope Q_scope.
Local Open Scope nat_scope.
Local Open Scope list_scope.
Local Open Scope string_scope.

(** ** Python string operations *)

Module PyStr.

Definition nl : string := String "010"%char EmptyString.
Definition dq : string := String "034"%char EmptyString.

(** [str.isspace] on one character (ASCII range). *)
Definition is_space (c : ascii) : bool :=
  let n := nat_of_ascii c in
  ((9 <=? n) && (n <=? 13) || (28 <=? n) && (n <=? 32))%nat.

Fixpoint lstrip (s : string) : string :=
  match s with
  | EmptyString => EmptyString
  | String c s' => if is_space c then lstrip s' else s
  end.

Fixpoint rstrip (s : string) : string :=
  match s with
  | EmptyString => EmptyString
  | String c s' =>
      match rstrip s' with
      | EmptyString => if is_space c then EmptyString else String c EmptyString
      | r => String c r
      end
  end.

Definition strip (s : string) : string := rstrip (lstrip s).

Definition lower_char (c : ascii) : ascii :=
  let n := nat_of_ascii c in
  if ((65 <=? n) && (n <=? 90))%nat then ascii_of_nat (n + 32) else c.

Fixpoint lower (s : string) : string :=
  match s with
  | EmptyString => EmptyString
  | String c s' => String (lower_char c) (lower s')
  end.

Definition startswith (p s : string) : bool := String.prefix p s.

(** [sub in s] *)
Fixpoint contains (sub s : string) : bool :=
  String.prefix sub s ||
  match s with
  | EmptyString => false
  | String _ s' => contains sub s'
  end.

(** [s[:n]] *)
Fixpoint take (n : nat) (s : string) : string :=
  match n, s with
  | S k, String c s' => String c (take k s')
  | _, _ => EmptyString
  end.

(** [s.split(sep, maxsplit)] for a non-empty [sep]: [skip] counts the
    characters of a separator that was just matched and is being consumed;
    the result is the piece under construction and the pieces after it. *)
Fixpoint split_go (sep : string) (maxsplit skip : nat) (s : string)
  : string * list string :=
  match s with
  | EmptyString => (EmptyString, [])
  | String c s' =>
      match skip with
      | S k => split_go sep maxsplit k s'
      | O =>
          match maxsplit with
          | O => (s, [])
          | S m =>
              if String.prefix sep s
              then let (p, ps) := split_go sep m (String.length sep - 1) s' in
                   (EmptyString, p :: ps)
              else let (p, ps) := split_go sep maxsplit 0 s' in
                   (String c p, ps)
          end
      end
  end.

Definition split_max (sep : string) (maxsplit : nat) (s : string) : list string :=
  let (p, ps) := split_go sep maxsplit 0 s in p :: ps.

(** [s.split(sep)]: no bound on the number of splits. *)
Definition split (sep s : string) : list string :=
  split_max sep (String.length s) s.

(** [s.split()]: runs of white space separate, no empty pieces. *)
Fixpoint split_ws_go (cur : string) (s : string) : list string :=
  match s with
  | EmptyString =>
      match cur with EmptyString => [] | _ => [cur] end
  | String c s' =>
      if is_space c
      then match cur with
           | EmptyString => split_ws_go EmptyString s'
           | _ => cur :: split_ws_go EmptyString s'
           end
      else split_ws_go (cur ++ String c EmptyString) s'
  end.

Definition split_ws (s : string) : list string := split_ws_go EmptyString s.

(** [sep.join(parts)] *)
Definition join (sep : string) (parts : list string) : string :=
  String.concat sep parts.

(** [s.replace(old, new)] for a non-empty [old]. *)
Fixpoint replace_go (old new : string) (skip : nat) (s : string) : string :=
  match s with
  | EmptyString => EmptyString
  | String c s' =>
      match skip with
      | S k => replace_go old new k s'
      | O =>
          if String.prefix old s
          then new ++ replace_go old new (String.length old - 1) s'
          else String c (replace_go old new 0 s')
      end
  end.

Definition replace (old new s : string) : string := replace_go old new 0 s.

(** [s.upper()] *)
Definition upper_char (c : ascii) : ascii :=
  let n := nat_of_ascii c in
  if ((97 <=? n) && (n <=? 122))%nat then ascii_of_nat (n - 32) else c.

Fixpoint upper (s : string) : string :=
  match s with
  | EmptyString => EmptyString
  | String c s' => String (upper_char c) (upper s')
  end.

(** [str(n)] for an integer. *)
Definition of_Z (z : Z) : string := NilZero.string_of_int (Z.to_int z).
Definition of_nat (n : nat) : string := of_Z (Z.of_nat n).

(** Rounding of a rational to the nearest integer, ties to even. *)
Definition round_half_even (q : Q) : Z :=
  let n := Qnum q in
  let d := Zpos (Qden q) in
  let fl := (n / d)%Z in
  let r := (n mod d)%Z in
  match (2 * r ?= d)%Z with
  | Lt => fl
  | Gt => (fl + 1)%Z
  | Eq => if Z.even fl then fl else (fl + 1)%Z
  end.

Fixpoint zeros (n : nat) : string :=
  match n with O => EmptyString | S k => String "0"%char (zeros k) end.

(** [format(x, '.{digits}f')] *)
Definition format_f (digits : nat) (q : Q) : string :=
  let scale := (10 ^ Z.of_nat digits)%Z in
  let neg := (Qnum q <? 0)%Z in
  let a := Qmake (Z.abs (Qnum q) * scale) (Qden q) in
  let r := round_half_even a in
  let ip := of_Z (r / scale) in
  let fp := of_Z (r mod scale) in
  let body :=
    match digits with
    | O => ip
    | _ => ip ++ "." ++ zeros (digits - String.length fp) ++ fp
    end in
  if neg then "-" ++ body else body.

End PyStr.

(** ** Python values *)

(** The values found in Neo4j records ([record.data()]) and in parsed JSON. *)
Inductive value : Type :=
| VNone
| VBool (b : bool)
| VInt (z : Z)
| VFloat (q : Q)
| VStr (s : string)
| VList (l : list value)
| VDict (d : list (string * value)).

(** A [Dict[str, Any]], in insertion order. *)
Definition record : Type := list (string * value).

(** [bool(v)] *)
Definition truthy (v : value) : bool :=
  match v with
  | VNone => false
  | VBool b => b
  | VInt z => negb (z =? 0)%Z
  | VFloat q => negb (Qnum q =? 0)%Z
  | VStr s => negb (String.eqb s EmptyString)
  | VList l => match l with [] => false | _ => true end
  | VDict d => match d with [] => false | _ => true end
  end.

(** [d.get(k)], as an option: [None] when the key is absent. *)
Fixpoint dict_find (k : string) (d : record) : option value :=
  match d with
  | [] => None
  | (k', v) :: d' => if String.eqb k k' then Some v else dict_find k d'
  end.

(** [d.get(k, default)] *)
Definition dict_get (k : string) (default : value) (d : record) : value :=
  match dict_find k d with Some v => v | None => default end.

(** [k in d] *)
Definition dict_has (k : string) (d : record) : bool :=
  match dict_find k d with Some _ => true | None => false end.

(** [isinstance(v, (int, float))]: [bool] is a subclass of [int]. *)
Definition is_number (v : value) : bool :=
  match v with
  | VBool _ | VInt _ | VFloat _ => true
  | _ => false
  end.

(** The number a numeric value denotes. *)
Definition num_of (v : value) : option Q :=
  match v with
  | VBool b => Some (if b then 1%Q else 0%Q)
  | VInt z => Some (inject_Z z)
  | VFloat q => Some q
  | _ => None
  end.

(** Lists and dicts cannot be dict keys or set members. *)
Definition hashable (v : value) : bool :=
  match v with
  | VList _ | VDict _ => false
  | _ => true
  end.

(** [a == b] between hashable values: numbers compare by value across
    [bool], [int] and [float]. *)
Definition key_eqb (a b : value) : bool :=
  match a, b with
  | VNone, VNone => true
  | VStr s, VStr s' => String.eqb s s'
  | _, _ =>
      match num_of a, num_of b with
      | Some x, Some y => Qeq_bool x y
      | _, _ => false
      end
  end.

(** *** [repr] and [str] *)

Definition hex_digit (n : nat) : ascii :=
  if (n <? 10)%nat then ascii_of_nat (48 + n) else ascii_of_nat (87 + n).

Definition hex2 (n : nat) : string :=
  String (hex_digit (n / 16)) (String (hex_digit (n mod 16)) EmptyString).

Definition repr_char (quote : ascii) (c : ascii) : string :=
  let n := nat_of_ascii c in
  if Ascii.eqb c "\"%char then "\\"
  else if Ascii.eqb c quote then String "\"%char (String c EmptyString)
  else if (n =? 10)%nat then "\n"
  else if (n =? 13)%nat then "\r"
  else if (n =? 9)%nat then "\t"
  else if ((n <? 32) || (n =? 127))%nat then "\x" ++ hex2 n
  else String c EmptyString.

Fixpoint repr_chars (quote : ascii) (s : string) : string :=
  match s with
  | EmptyString => EmptyString
  | String c s' => repr_char quote c ++ repr_chars quote s'
  end.

(** [repr(s)] for a string: single quotes unless the string holds a single
    quote and no double quote. *)
Definition repr_str (s : string) : string :=
  let quote :=
    if PyStr.contains "'" s && negb (PyStr.contains PyStr.dq s)
    then "034"%char else "'"%char in
  String quote (repr_chars quote s ++ String quote EmptyString).

Section Repr.

(** [repr] of a float, the shortest decimal that reads back as the same
    float: a Python built-in, taken as given. *)
Variable float_repr : Q -> string.

Fixpoint py_repr (v : value) : string :=
  match v with
  | VNone => "None"
  | VBool true => "True"
  | VBool false => "False"
  | VInt z => PyStr.of_Z z
  | VFloat q => float_repr q
  | VStr s => repr_str s
  | VList l => "[" ++ PyStr.join ", " (map py_repr l) ++ "]"
  | VDict d =>
      "{" ++ PyStr.join ", "
               (map (fun kv => match kv with
                               | (k, x) => repr_str k ++ ": " ++ py_repr x
                               end) d) ++ "}"
  end.

(** [str(v)], also what an f-string field [{v}] renders. *)
Definition py_str (v : value) : string :=
  match v with
  | VStr s => s
  | _ => py_repr v
  end.

End Repr.

(** ** Exceptions, traces and the monad of methods *)

(** A raised exception: its class and [str(e)]. *)
Record exn : Type := Exn { exn_class : string; exn_str : string }.

Definition TypeError (msg : string) : exn := Exn "TypeError" msg.
Definition AttributeError (msg : string) : exn := Exn "AttributeError" msg.
Definition KeyError (key : string) : exn := Exn "KeyError" (repr_str key).
Definition IndexError (msg : string) : exn := Exn "IndexError" msg.
Definition ValueError (msg : string) : exn := Exn "ValueError" msg.
Definition ZeroDivisionError : exn := Exn "ZeroDivisionError" "division by zero".

(** The arguments of [chat.completions.create]. *)
Record chat_request : Type := ChatRequest {
  model : string;
  system_content : string;
  user_content : string;
  temperature : Q;
  seed : option Z;
  max_tokens : Z
}.

(** What the process does to the outside world. *)
Inductive event : Type :=
| EvQuery (query : string) (parameters : record)
| EvChat (req : chat_request)
| EvEmbed (embedding_model input : string)
| EvTime
| EvSleep (seconds : Z).

(** Newest event first. *)
Definition trace : Type := list event.

(** The external collaborators.  Each answer may depend on everything that
    happened before, so a service can fail on its second call, or return
    different rows for the same query. *)
Record services : Type := Services {
  session_run : trace -> string -> record -> exn + list record;
  chat_completions_create : trace -> chat_request -> exn + string;
  embeddings_create : trace -> string -> string -> exn + list Q;
  time_time : trace -> Q
}.

(** State and exceptions: a computation reads and extends the state and
    either raises or returns. *)
Definition SE (S A : Type) : Type := S -> (exn + A) * S.

Definition ret {S A} (a : A) : SE S A := fun s => (inr a, s).

Definition bind {S A B} (m : SE S A) (f : A -> SE S B) : SE S B :=
  fun s =>
    match m s with
    | (inl e, s') => (inl e, s')
    | (inr a, s') => f a s'
    end.

Definition raise {S A} (e : exn) : SE S A := fun s => (inl e, s).

(** [try: m  except Exception as e: h e] *)
Definition try_except {S A} (m : SE S A) (h : exn -> SE S A) : SE S A :=
  fun s =>
    match m s with
    | (inl e, s') => h e s'
    | (inr a, s') => (inr a, s')
    end.

Definition lift_result {S A} (r : exn + A) : SE S A := fun s => (r, s).

Declare Scope se_scope.
Delimit Scope se_scope with se.
Notation "x <- m ;; k" := (bind m (fun x => k))
  (at level 61, m at next level, right associativity) : se_scope.
Notation "m ;;; k" := (bind m (fun _ => k))
  (at level 61, right associativity) : se_scope.
Local Open Scope se_scope.

(** [for x in xs: body x] *)
Fixpoint for_each {S X} (body : X -> SE S unit) (xs : list X) : SE S unit :=
  match xs with
  | [] => ret tt
  | x :: xs' => body x ;;; for_each body xs'
  end.

(** A method of the class: the state is the trace. *)
Definition M (A : Type) : Type := SE trace A.

(** ** Dynamic operations on values *)

Section Dynamic.

Context {S : Type}.

(** [d[k]] *)
Definition getitem (k : string) (d : record) : SE S value :=
  match dict_find k d with
  | Some v => ret v
  | None => raise (KeyError k)
  end.

Fixpoint chars (s : string) : list value :=
  match s with
  | EmptyString => []
  | String c s' => VStr (String c EmptyString) :: chars s'
  end.

(** [for x in v]: the items a value yields when iterated. *)
Definition py_iter (v : value) : SE S (list value) :=
  match v with
  | VList l => ret l
  | VStr s => ret (chars s)
  | VDict d => ret (map (fun kv => VStr (fst kv)) d)
  | VNone => raise (TypeError "'NoneType' object is not iterable")
  | VBool _ => raise (TypeError "'bool' object is not iterable")
  | VInt _ => raise (TypeError "'int' object is not iterable")
  | VFloat _ => raise (TypeError "'float' object is not iterable")
  end.

Fixpoint strs_of (l : list value) : option (list string) :=
  match l with
  | [] => Some []
  | VStr s :: l' =>
      match strs_of l' with
      | Some ss => Some (s :: ss)
      | None => None
      end
  | _ :: _ => None
  end.

(** [sep.join(v)] *)
Definition str_join (sep : string) (v : value) : SE S string :=
  items <- py_iter v ;;
  match strs_of items with
  | Some ss => ret (PyStr.join sep ss)
  | None => raise (TypeError "sequence item: expected str instance")
  end.

(** [f"{v:.3f}"] *)
Definition format_3f (v : value) : SE S string :=
  match v with
  | VStr _ => raise (ValueError "Unknown format code 'f' for object of type 'str'")
  | _ =>
      match num_of v with
      | Some q => ret (PyStr.format_f 3 q)
      | None => raise (TypeError "unsupported format string")
      end
  end.

(** [v[:n]] *)
Definition slice_to (n : nat) (v : value) : SE S value :=
  match v with
  | VStr s => ret (VStr (PyStr.take n s))
  | VList l => ret (VList (firstn n l))
  | _ => raise (TypeError "object is not subscriptable")
  end.

End Dynamic.

(** ** Result dictionaries *)

(** What [query] returns: keys [answer], [context], [sources], [time]. *)
Record rag_result : Type := RagResult {
  rag_answer : string;
  rag_context : string;
  rag_sources : list string;
  rag_time : Q
}.

(** What [text_to_cypher] returns: keys [success], [cypher], [error]. *)
Inductive translation : Type :=
| TrOk (cypher : string)
    (** [{"success": True, "cypher": cypher, "error": None}] *)
| TrFailed (error : string)
    (** [{"success": False, "cypher": None, "error": str(e)}] *).


(** A graph snapshot: keys [nodes] and [relationships]. *)
Record graph_data : Type := GraphData {
  nodes : list value;
  relationships : list value
}.

Definition empty_graph : graph_data := {| nodes := []; relationships := [] |}.

(** What [execute_text_to_cypher] returns, one constructor per [return]. *)
Inductive exec_result : Type :=
| ExecNoQuery (error : string) (time : Q)
    (** [{"success": False, "error": ..., "time": ...}] *)
| ExecOk (cypher : string) (results : list record) (result_count : nat)
         (graph : graph_data) (time : Q)
    (** [{"success": True, "cypher", "results", "result_count",
          "graph_data", "time", "error": None}] *)
| ExecFailed (cypher : string) (time : Q) (error : string)
    (** [{"success": False, "cypher", "results": [], "result_count": 0,
          "graph_data": {"nodes": [], "relationships": []}, "time",
          "error"}] *).




(** What [kg_query_with_explanation] returns; [method] is the constant
    ["Knowledge Graph (Text-to-Cypher)"] in both. *)
Inductive kg_result : Type :=
| KgFailed (error answer : string) (time : Q)
    (** [{"method", "success": False, "error", "answer", "time"}] *)
| KgOk (cypher : string) (results : list record) (result_count : nat)
       (formatted_results answer : string) (graph : graph_data) (time : Q)
    (** [{"method", "success": True, "cypher", "results", "result_count",
          "formatted_results", "answer", "graph_data", "time"}] *).

Definition kg_success (r : kg_result) : bool :=
  match r with KgOk _ _ _ _ _ _ _ => true | KgFailed _ _ _ => false end.

(** What [compare_with_judge] returns.  The keys [reason] and [confidence]
    are present in one of the two dictionaries only; [judgment] is Python
    [None] when the KG branch failed and a dict otherwise. *)
Record comparison : Type := Comparison {
  cmp_question : string;
  cmp_winner : value;
  cmp_reason : option string;
  cmp_confidence : option value;
  cmp_judgment : option record;
  cmp_rag_result : rag_result;
  cmp_kg_result : kg_result
}.

(** What [batch_judge_questions] prints under AGGREGATE STATISTICS: the
    three counts with their percentages, the two average accuracy scores
    (printed only when both lists of scores are non-empty), and the winner
    shown for every question. *)
Record batch_report : Type := BatchReport {
  rag_wins : nat;
  kg_wins : nat;
  ties : nat;
  rag_wins_percent : string;
  kg_wins_percent : string;
  ties_percent : string;
  average_accuracy : option (string * string);
  question_winners : list (string * string)
}.

(** *** The locals of the extractor *)

(** [nodes_dict]: keys are node identifiers, compared as Python compares
    dict keys; insertion order is kept, an update keeps the place. *)
Definition nodes_dict_t : Type := list (value * value).

Fixpoint nd_mem (key : value) (nd : nodes_dict_t) : bool :=
  match nd with
  | [] => false
  | (k, _) :: nd' => key_eqb key k || nd_mem key nd'
  end.

Fixpoint nd_set (key node : value) (nd : nodes_dict_t) : nodes_dict_t :=
  match nd with
  | [] => [(key, node)]
  | (k, n) :: nd' =>
      if key_eqb key k then (k, node) :: nd'
      else (k, n) :: nd_set key node nd'
  end.

Record locals : Type := Locals {
  nodes_dict : nodes_dict_t;
  relationships_list : list value
}.

(** *** The set of entity names *)

(** A set of strings: distinct members, in the order they were added. *)
Fixpoint set_mem (s : string) (xs : list string) : bool :=
  match xs with
  | [] => false
  | x :: xs' => String.eqb s x || set_mem s xs'
  end.

Definition set_add (xs : list string) (s : string) : list string :=
  if set_mem s xs then xs else (xs ++ [s])%list.

Definition set_is_empty (xs : list string) : bool :=
  match xs with [] => true | _ => false end.

(** [if isinstance(item, str) and item: entity_names.add(item)] *)
Definition add_name (names : list string) (item : value) : list string :=
  match item with
  | VStr s => if truthy item then set_add names s else names
  | _ => names
  end.

(** One value of a result row: a non-empty string, or the non-empty strings
    of a list. *)
Definition collect_value (names : list string) (v : value) : list string :=
  match v with
  | VStr _ => add_name names v
  | VList items => fold_left add_name items names
  | _ => names
  end.

Definition collect_row (names : list string) (result : record) : list string :=
  fold_left (fun ns kv => collect_value ns (snd kv)) result names.

Definition collect_entity_names (results : list record) : list string :=
  fold_left collect_row results [].

(** ** Stand-ins for the collaborators

    Small concrete services, used where a statement is instantiated. *)

Definition clock (t : trace) : Q := inject_Z (Z.of_nat (List.length t)).

(** A stand-in for [repr] on floats: six decimals. *)
Definition repr_fixed (q : Q) : string := PyStr.format_f 6 q.

(** The order of insertion as the iteration order of a set. *)
Definition insertion_order (xs : list string) : list string := xs.

(** A [json.loads] that rejects every text. *)
Definition json_rejects (text : string) : exn + value :=
  inl (Exn "JSONDecodeError" "Expecting value: line 1 column 1 (char 0)").

Fixpoint chat_count (t : trace) : nat :=
  match t with
  | [] => 0
  | EvChat _ :: t' => Datatypes.S (chat_count t')
  | _ :: t' => chat_count t'
  end.

(** An empty corpus and a model that always answers. *)
Definition empty_corpus : services :=
  {| session_run := fun _ _ _ => inr [];
     chat_completions_create := fun _ _ => inr "MATCH (n) RETURN n LIMIT 20";
     embeddings_create := fun _ _ _ => inr [(1 # 2)%Q];
     time_time := clock |}.

(** A model that cannot be reached. *)
Definition llm_down : services :=
  {| session_run := fun _ _ _ => inr [];
     chat_completions_create :=
       fun _ _ => inl (Exn "APIConnectionError" "Connection error.");
     embeddings_create := fun _ _ _ => inr [(1 # 2)%Q];
     time_time := clock |}.


Definition emily_rows : list record :=
  [ [("name", VStr "Emily Chen"); ("articles", VInt 3)] ].

(** A model that translates the question and then fails on the
    explanation. *)
Definition explainer_down : services :=
  {| session_run :=
       fun t _ _ =>
         match chat_count t with
         | O => inr []
         | _ => inr emily_rows
         end;
     chat_completions_create :=
       fun t _ =>
         match chat_count t with
         | O => inr "MATCH (r:Researcher) RETURN r.name AS name, count(*) AS articles"
         | _ => inl (Exn "RateLimitError" "Rate limit reached")
         end;
     embeddings_create := fun _ _ _ => inr [(1 # 2)%Q];
     time_time := clock |}.

Definition emily_node : value :=
  VDict [("id", VInt 1); ("label", VStr "Researcher");
         ("properties", VDict [("name", VStr "Emily Chen")])].

Definition article_node : value :=
  VDict [("id", VInt 7); ("label", VStr "Article");
         ("properties", VDict [("title", VStr "Graph Neural Networks")])].

(** A lookup answer with a dangling relationship: node 9 is not among the
    nodes. *)
Definition dangling_row : record :=
  [ ("nodes", VList [emily_node; article_node]);
    ("relationships",
     VList [ VDict [("source", VInt 1); ("target", VInt 7); ("type", VStr "PUBLISHED")];
             VDict [("source", VInt 1); ("target", VInt 9); ("type", VStr "PUBLISHED")] ]) ].

Definition lookup_world (row : record) : services :=
  {| session_run :=
       fun _ _ p => if dict_has "names" p then inr [row] else inr emily_rows;
     chat_completions_create := fun _ _ => inr "MATCH (n) RETURN n LIMIT 20";
     embeddings_create := fun _ _ _ => inr [(1 # 2)%Q];
     time_time := clock |}.


(** One stored article, for both retrieval strategies. *)
Definition one_article : services :=
  {| session_run :=
       fun _ _ _ =>
         inr [ [ ("title", VStr "Graph Neural Networks");
                 ("abstract", VStr "We study message passing.");
                 ("date", VStr "2021-03-04");
                 ("topics", VList [VStr "Artificial Intelligence"]);
                 ("authors", VList [VStr "Emily Chen"; VStr "David Johnson"]);
                 ("similarity", VFloat (7 # 8)) ] ];
     chat_completions_create := fun _ _ => inr "Emily Chen works on graphs.";
     embeddings_create := fun _ _ _ => inr [(1 # 2)%Q];
     time_time := clock |}.

(** Fifty distinct names, one per row. *)
Definition fifty_rows : list record :=
  map (fun i => [("name", VStr ("Researcher " ++ PyStr.of_nat i))]) (seq 0 50).

Definition count_query_text : string := "MATCH (n) RETURN count(n) as count".

(** The requests sent with a seed are those of the Judge. *)
Fixpoint seeded_count (t : trace) : nat :=
  match t with
  | [] => 0
  | EvChat req :: t' =>
      match seed req with
      | Some _ => Datatypes.S (seeded_count t')
      | None => seeded_count t'
      end
  | _ :: t' => seeded_count t'
  end.

(** A loaded database with no article that matches, a translator that
    always writes the same query, and a Judge whose successive verdicts are
    A, B, TIE, then a time-out, then a text that is not JSON. *)
Definition judging_world : services :=
  {| session_run :=
       fun _ q _ =>
         if String.eqb q count_query_text then inr [[("count", VInt 5)]]
         else if String.eqb q "MATCH (n) RETURN n LIMIT 20" then inr emily_rows
         else inr [];
     chat_completions_create :=
       fun t req =>
         match seed req with
         | None => inr "MATCH (n) RETURN n LIMIT 20"
         | Some _ =>
             match seeded_count t with
             | 0 => inr "verdict A"
             | 1 => inr "verdict B"
             | 2 => inr "verdict TIE"
             | 3 => inl (Exn "APITimeoutError" "Request timed out.")
             | _ => inr "I cannot decide."
             end
         end;
     embeddings_create := fun _ _ _ => inr [(1 # 2)%Q];
     time_time := clock |}.

Definition verdict (winner : string) (score_a score_b : Z) : value :=
  VDict [ ("winner", VStr winner); ("confidence", VStr "high");
          ("accuracy_score_a", VInt score_a);
          ("accuracy_score_b", VInt score_b) ].

(** A [json.loads] that knows the three verdict texts of [judging_world]. *)
Definition json_verdicts (text : string) : exn + value :=
  if String.eqb text "verdict A" then inr (verdict "A" 8 6)
  else if String.eqb text "verdict B" then inr (verdict "B" 5 9)
  else if String.eqb text "verdict TIE" then inr (verdict "TIE" 7 7)
  else json_rejects text.




Definition collaborators_question : string :=
  "Who are the collaborators of Emily Chen?".

(** A database that answers every query with the same graph row. *)
Definition graph_world : services :=
  {| session_run := fun _ _ _ => inr [dangling_row];
     chat_completions_create := fun _ _ => inr "MATCH (n) RETURN n LIMIT 20";
     embeddings_create := fun _ _ _ => inr [(1 # 2)%Q];
     time_time := clock |}.

(** An embedding service that cannot be reached. *)
Definition embeddings_down : services :=
  {| session_run := fun _ _ _ => inr [];
     chat_completions_create := fun _ _ => inr "MATCH (n) RETURN n LIMIT 20";
     embeddings_create :=
       fun _ _ _ => inl (Exn "APIConnectionError" "Connection error.");
     time_time := clock |}.

(** A database that answers the keyword search and is gone afterwards. *)
Definition search_only_db : services :=
  {| session_run :=
       fun _ _ p =>
         if dict_has "keywords" p then inr []
         else inl (Exn "ServiceUnavailable" "Unable to retrieve routing information");
     chat_completions_create := fun _ _ => inr "MATCH (n) RETURN n LIMIT 20";
     embeddings_create := fun _ _ _ => inr [(1 # 2)%Q];
     time_time := clock |}.

(** The world of [judging_world] with a Judge that cannot be reached. *)
Definition judge_down : services :=
  {| session_run :=
       fun _ q _ =>
         if String.eqb q count_query_text then inr [[("count", VInt 5)]]
         else if String.eqb q "MATCH (n) RETURN n LIMIT 20" then inr emily_rows
         else inr [];
     chat_completions_create :=
       fun _ req =>
         match seed req with
         | None => inr "MATCH (n) RETURN n LIMIT 20"
         | Some _ => inl (Exn "APITimeoutError" "Request timed out.")
         end;
     embeddings_create := fun _ _ _ => inr [(1 # 2)%Q];
     time_time := clock |}.

(** A [json.loads] for a Judge that answers with a JSON list. *)
Definition json_list (text : string) : exn + value :=
  inr (VList [VStr "A"; VStr "high"]).



(** ** The class [Neo4jGraphRAG] *)

Section Engine.

Variable W : services.
Variable float_repr : Q -> string.

Definition str (v : value) : string := py_str float_repr v.

(** *** Access to the collaborators *)

(** [parameters or {}] is the default [None] turned into an empty dict. *)
Definition execute_query (query : string) (parameters : option record)
  : M (list record) :=
  fun t =>
    let p := match parameters with Some p => p | None => [] end in
    (session_run W t query p, EvQuery query p :: t).

Definition embedding_model : string := "text-embedding-3-small".

Definition get_embedding (text : string) : M (list Q) :=
  fun t => (embeddings_create W t embedding_model text,
            EvEmbed embedding_model text :: t).

(** [self.openai_client.chat.completions.create(...)] followed by
    [response.choices[0].message.content]. *)
Definition chat (req : chat_request) : M string :=
  fun t => (chat_completions_create W t req, EvChat req :: t).

(** [time.time()] *)
Definition now : M Q := fun t => (inr (time_time W t), EvTime :: t).

(** *** Retrieval *)

Definition keyword_cypher_query : string :=
  PyStr.join PyStr.nl
    [ EmptyString;
      "        MATCH (a:Article)";
      "        WHERE ANY(keyword IN $keywords WHERE";
      "            toLower(a.title) CONTAINS keyword OR";
      "            toLower(a.abstract) CONTAINS keyword)";
      "        OPTIONAL MATCH (a)-[:IN_TOPIC]->(t:Topic)";
      "        OPTIONAL MATCH (r:Researcher)-[:PUBLISHED]->(a)";
      "        WITH a,";
      "             collect(DISTINCT t.name) as topics,";
      "             collect(DISTINCT r.name) as authors";
      "        RETURN a.title as title,";
      "               a.abstract as abstract,";
      "               a.publication_date as date,";
      "               topics,";
      "               authors";
      "        ORDER BY size(authors) DESC";
      "        LIMIT $limit";
      "        " ].

(** One block of the keyword context, for the [i]-th record. *)
Definition keyword_context_part (i : nat) (r : record) : M string :=
  title <- getitem "title" r ;;
  authors <- getitem "authors" r ;;
  authors_s <- (if truthy authors then str_join ", " authors else ret "N/A") ;;
  topics <- getitem "topics" r ;;
  topics_s <- (if truthy topics then str_join ", " topics else ret "N/A") ;;
  abstract <- getitem "abstract" r ;;
  date <- getitem "date" r ;;
  ret (PyStr.join PyStr.nl
         [ EmptyString;
           "Article " ++ PyStr.of_nat i ++ ": " ++ str title;
           "Authors: " ++ authors_s;
           "Topics: " ++ topics_s;
           "Abstract: " ++ str abstract;
           "Date: " ++ str date;
           "---" ]).

(** [for i, record in enumerate(results, i): parts.append(part i record)] *)
Fixpoint context_parts (part : nat -> record -> M string) (i : nat)
    (results : list record) : M (list string) :=
  match results with
  | [] => ret []
  | r :: rs =>
      p <- part i r ;;
      ps <- context_parts part (Datatypes.S i) rs ;;
      ret (p :: ps)
  end.

Definition retrieve_context (question : string) (limit : Z) : M string :=
  let keywords := PyStr.split_ws (PyStr.lower question) in
  results <- execute_query keyword_cypher_query
               (Some [("keywords", VList (map VStr keywords));
                      ("limit", VInt limit)]) ;;
  parts <- context_parts keyword_context_part 1 results ;;
  ret (PyStr.join (PyStr.nl ++ PyStr.nl) parts).

Definition vector_cypher_query : string :=
  PyStr.join PyStr.nl
    [ EmptyString;
      "        MATCH (a:Article)";
      "        WHERE a.embedding IS NOT NULL";
      "        WITH a,";
      "             gds.similarity.cosine(a.embedding, $query_embedding) AS similarity";
      "        ORDER BY similarity DESC";
      "        LIMIT $limit";
      "        OPTIONAL MATCH (a)-[:IN_TOPIC]->(t:Topic)";
      "        OPTIONAL MATCH (r:Researcher)-[:PUBLISHED]->(a)";
      "        WITH a, similarity,";
      "             collect(DISTINCT t.name) as topics,";
      "             collect(DISTINCT r.name) as authors";
      "        RETURN a.title as title,";
      "               a.abstract as abstract,";
      "               topics,";
      "               authors,";
      "               similarity";
      "        " ].

(** One block of the vector context, for the [i]-th record. *)
Definition vector_context_part (i : nat) (r : record) : M string :=
  similarity <- getitem "similarity" r ;;
  similarity_s <- format_3f similarity ;;
  title <- getitem "title" r ;;
  authors <- getitem "authors" r ;;
  authors_s <- str_join ", " authors ;;
  topics <- getitem "topics" r ;;
  topics_s <- str_join ", " topics ;;
  abstract <- getitem "abstract" r ;;
  ret (PyStr.join PyStr.nl
         [ EmptyString;
           "Article " ++ PyStr.of_nat i ++ " (Similarity: " ++ similarity_s ++ "):";
           "Title: " ++ str title;
           "Authors: " ++ authors_s;
           "Topics: " ++ topics_s;
           "Abstract: " ++ str abstract;
           "---" ]).

Definition retrieve_with_vector_search (question : string) (limit : Z)
  : M string :=
  embedding <- get_embedding question ;;
  results <- execute_query vector_cypher_query
               (Some [("query_embedding", VList (map VFloat embedding));
                      ("limit", VInt limit)]) ;;
  parts <- context_parts vector_context_part 1 results ;;
  ret (PyStr.join (PyStr.nl ++ PyStr.nl) parts).

(** *** Answer generation *)

Definition generate_answer_prompt (question context : string) : string :=
  PyStr.join PyStr.nl
    [ "You are a helpful assistant that answers questions based on the provided context from a knowledge graph.";
      EmptyString;
      "Context from Knowledge Graph:";
      context;
      EmptyString;
      "Question: " ++ question;
      EmptyString;
      "Please provide a comprehensive answer based on the context above. If the context doesn't contain enough information to answer the question, say so.";
      EmptyString;
      "Answer:" ].

Definition generate_answer_request (question context : string) : chat_request :=
  {| model := "gpt-4o-mini";
     system_content := "You are a helpful research assistant.";
     user_content := generate_answer_prompt question context;
     temperature := (7 # 10)%Q;
     seed := None;
     max_tokens := 500 |}.

Definition generate_answer (question context : string) : M string :=
  chat (generate_answer_request question context).

(** [extract_sources]: the text after the first colon of every line that
    starts with [Article] and holds a colon. *)
Definition source_of_line (line : string) : list string :=
  if PyStr.startswith "Article" line && PyStr.contains ":" line
  then match PyStr.split_max ":" 1 line with
       | _ :: title :: _ => [PyStr.strip title]
       | _ => []
       end
  else [].

Definition extract_sources (context : string) : list string :=
  flat_map source_of_line (PyStr.split PyStr.nl context).

Definition no_information_answer : string :=
  "I couldn't find any relevant information in the knowledge graph.".

(** [query]: the main RAG method.  [not context] is the test for the empty
    string. *)
Definition query (question : string) (use_vector_search : bool)
  : M rag_result :=
  start_time <- now ;;
  context <- (if use_vector_search
              then retrieve_with_vector_search question 5
              else retrieve_context question 5) ;;
  if String.eqb context EmptyString then
    t1 <- now ;;
    ret {| rag_answer := no_information_answer;
           rag_context := EmptyString;
           rag_sources := [];
           rag_time := (t1 - start_time)%Q |}
  else
    answer <- generate_answer question context ;;
    let sources := extract_sources context in
    t1 <- now ;;
    ret {| rag_answer := answer;
           rag_context := context;
           rag_sources := sources;
           rag_time := (t1 - start_time)%Q |}.

(** *** Text-to-Cypher *)

Definition sample_query : string :=
  PyStr.join PyStr.nl
    [ EmptyString;
      "        MATCH (r:Researcher)-[:PUBLISHED]->(a:Article)-[:IN_TOPIC]->(t:Topic)";
      "        RETURN r.name as researcher, a.title as article, t.name as topic";
      "        LIMIT 3";
      "        " ].

Definition schema_text : string :=
  PyStr.join PyStr.nl
    [ EmptyString;
      "Graph Database Schema:";
      "=====================";
      EmptyString;
      "Node Types:";
      "-----------";
      "1. Researcher";
      "   Properties: name (string)";
      "   Example: " ++ PyStr.dq ++ "Emily Chen" ++ PyStr.dq ++ ", " ++ PyStr.dq ++ "Dr. Sarah Williams" ++ PyStr.dq;
      EmptyString;
      "2. Article";
      "   Properties: title (string), abstract (string), publication_date (date)";
      "   Example: " ++ PyStr.dq ++ "AI in Healthcare" ++ PyStr.dq ++ ", " ++ PyStr.dq ++ "Machine Learning Applications" ++ PyStr.dq;
      EmptyString;
      "3. Topic";
      "   Properties: name (string)";
      "   Example: " ++ PyStr.dq ++ "Artificial Intelligence" ++ PyStr.dq ++ ", " ++ PyStr.dq ++ "Climate Change" ++ PyStr.dq;
      EmptyString;
      "Relationships:";
      "--------------";
      "1. (Researcher)-[:PUBLISHED]->(Article)";
      "   - A researcher published an article";
      EmptyString;
      "2. (Article)-[:IN_TOPIC]->(Topic)";
      "   - An article belongs to a topic";
      EmptyString;
      "Important Notes:";
      "----------------";
      "- Multiple researchers can publish the SAME article (co-authorship)";
      "- An article can have multiple topics";
      "- Use MATCH patterns to find relationships";
      "- Use WHERE clauses for filtering";
      "- Use toLower() for case-insensitive matching";
      "- Property access: node.property (e.g., r.name, a.title)";
      EmptyString;
      "Sample Data:";
      "------------";
      EmptyString ].

(** One sample line of the schema. *)
Definition schema_sample_line (sample : record) : M string :=
  researcher <- getitem "researcher" sample ;;
  article <- getitem "article" sample ;;
  article50 <- slice_to 50 article ;;
  topic <- getitem "topic" sample ;;
  ret (PyStr.nl ++ "• " ++ str researcher ++ " -> " ++ str article50
       ++ "... -> " ++ str topic).

(** [for sample in samples: schema += line sample] *)
Fixpoint schema_samples (schema : string) (samples : list record) : M string :=
  match samples with
  | [] => ret schema
  | sample :: rest =>
      line <- schema_sample_line sample ;;
      schema_samples (schema ++ line) rest
  end.

Definition get_graph_schema : M string :=
  samples <- execute_query sample_query None ;;
  schema_samples schema_text samples.

Definition text_to_cypher_prompt (schema question : string) : string :=
  PyStr.join PyStr.nl
    [ schema;
      EmptyString;
      "Task: Convert the following natural language question into a valid Neo4j Cypher query.";
      EmptyString;
      "Rules:";
      "1. Return ONLY the Cypher query, no explanations";
      "2. Use proper Neo4j syntax";
      "3. Use MATCH for finding patterns";
      "4. Use WHERE for filtering";
      "5. Use RETURN to specify what to return";
      "6. Use toLower() for case-insensitive text matching";
      "7. Limit results to 20 unless asked otherwise";
      "8. For " ++ PyStr.dq ++ "collaborators" ++ PyStr.dq ++ ", find researchers who published the SAME article";
      "9. For counting, use count() function";
      "10. For finding by name, use WHERE node.name = " ++ PyStr.dq ++ "exact name" ++ PyStr.dq ++ " or CONTAINS for partial match";
      EmptyString;
      "Common Query Patterns:";
      "- Find collaborators: MATCH (r1:Researcher)-[:PUBLISHED]->(a:Article)<-[:PUBLISHED]-(r2:Researcher)";
      "- Count articles: MATCH (r:Researcher)-[:PUBLISHED]->(a) RETURN r.name, count(a)";
      "- Find by topic: MATCH (a:Article)-[:IN_TOPIC]->(t:Topic) WHERE toLower(t.name) CONTAINS 'keyword'";
      "- Find researcher's work: MATCH (r:Researcher {name: " ++ PyStr.dq ++ "Name" ++ PyStr.dq ++ "})-[:PUBLISHED]->(a) RETURN a.title";
      EmptyString;
      "Question: " ++ PyStr.dq ++ question ++ PyStr.dq;
      EmptyString;
      "Cypher Query:" ].

Definition text_to_cypher_request (schema question : string) : chat_request :=
  {| model := "gpt-4o-mini";
     system_content := "You are a Neo4j Cypher query expert. Generate only valid, executable Cypher queries. Be precise with syntax.";
     user_content := text_to_cypher_prompt schema question;
     temperature := (1 # 10)%Q;
     seed := None;
     max_tokens := 300 |}.

(** The stripping of code-fence markers from the model's answer. *)
Definition clean_cypher (content : string) : string :=
  let cypher := PyStr.strip content in
  PyStr.strip
    (PyStr.replace "```" EmptyString
       (PyStr.replace "```cypher" EmptyString cypher)).

(** The schema is fetched before the [try]; only the completion call and the
    clean-up are guarded. *)
Definition text_to_cypher (question : string) : M translation :=
  schema <- get_graph_schema ;;
  try_except
    (content <- chat (text_to_cypher_request schema question) ;;
     ret (TrOk (clean_cypher content)))
    (fun e => ret (TrFailed (exn_str e))).

(** *** Subgraph extraction *)

Definition graph_query : string :=
  PyStr.join PyStr.nl
    [ EmptyString;
      "                // Find researchers by name";
      "                MATCH (r:Researcher)";
      "                WHERE r.name IN $names";
      EmptyString;
      "                // Get their published articles";
      "                OPTIONAL MATCH (r)-[pub:PUBLISHED]->(a:Article)";
      EmptyString;
      "                // Get topics for these articles";
      "                OPTIONAL MATCH (a)-[in_topic:IN_TOPIC]->(t:Topic)";
      EmptyString;
      "                // Get co-authors (other researchers who published the same articles)";
      "                OPTIONAL MATCH (a)<-[pub2:PUBLISHED]-(co_author:Researcher)";
      "                WHERE co_author <> r";
      EmptyString;
      "                // Collect all nodes and relationships";
      "                WITH collect(DISTINCT r) + collect(DISTINCT a) + collect(DISTINCT t) + collect(DISTINCT co_author) as all_nodes,";
      "                     collect(DISTINCT pub) + collect(DISTINCT in_topic) + collect(DISTINCT pub2) as all_rels";
      EmptyString;
      "                // Return formatted data";
      "                RETURN";
      "                    [node in all_nodes WHERE node IS NOT NULL | {";
      "                        id: id(node),";
      "                        label: head(labels(node)),";
      "                        properties: properties(node)";
      "                    }] as nodes,";
      "                    [rel in all_rels WHERE rel IS NOT NULL | {";
      "                        source: id(startNode(rel)),";
      "                        target: id(endNode(rel)),";
      "                        type: type(rel)";
      "                    }] as relationships";
      "                " ].

Definition article_query : string :=
  PyStr.join PyStr.nl
    [ EmptyString;
      "                    // Find articles by title";
      "                    MATCH (a:Article)";
      "                    WHERE a.title IN $names";
      EmptyString;
      "                    // Get their authors and topics";
      "                    OPTIONAL MATCH (r:Researcher)-[pub:PUBLISHED]->(a)";
      "                    OPTIONAL MATCH (a)-[in_topic:IN_TOPIC]->(t:Topic)";
      EmptyString;
      "                    // Collect all nodes and relationships";
      "                    WITH collect(DISTINCT a) + collect(DISTINCT r) + collect(DISTINCT t) as all_nodes,";
      "                         collect(DISTINCT pub) + collect(DISTINCT in_topic) as all_rels";
      EmptyString;
      "                    // Return formatted data";
      "                    RETURN";
      "                        [node in all_nodes WHERE node IS NOT NULL | {";
      "                            id: id(node),";
      "                            label: head(labels(node)),";
      "                            properties: properties(node)";
      "                        }] as nodes,";
      "                        [rel in all_rels WHERE rel IS NOT NULL | {";
      "                            source: id(startNode(rel)),";
      "                            target: id(endNode(rel)),";
      "                            type: type(rel)";
      "                        }] as relationships";
      "                    " ].

(** The iteration order of a Python [set] is not specified: [set_order]
    lists the members of a set (given here in insertion order) in the order
    [list(entity_names)] yields them. *)
Variable set_order : list string -> list string.
Hypothesis set_order_perm : forall xs, Permutation (set_order xs) xs.

(** Steps of the extractor run over the trace and the two locals
    [nodes_dict] and [relationships_list], which keep what was stored in
    them when a later step raises. *)
Definition X (A : Type) : Type := SE (trace * locals) A.

Definition lift {A} (m : M A) : X A :=
  fun s =>
    match m (fst s) with
    | (r, t') => (r, (t', snd s))
    end.

Definition get_nodes_dict : X nodes_dict_t :=
  fun s => (inr (nodes_dict (snd s)), s).

(** [nodes_dict[key] = node] *)
Definition store_node (key node : value) : X unit :=
  if hashable key
  then fun s =>
         (inr tt,
          (fst s, {| nodes_dict := nd_set key node (nodes_dict (snd s));
                     relationships_list := relationships_list (snd s) |}))
  else raise (TypeError "unhashable type").

(** [key in nodes_dict] *)
Definition in_nodes_dict (key : value) : X bool :=
  if hashable key
  then nd <- get_nodes_dict ;; ret (nd_mem key nd)
  else raise (TypeError "unhashable type").

(** [relationships_list.append(rel)] *)
Definition append_rel (rel : value) : X unit :=
  fun s =>
    (inr tt,
     (fst s, {| nodes_dict := nodes_dict (snd s);
                relationships_list := (relationships_list (snd s) ++ [rel])%list |})).

(** [if node and node.get('id') is not None: nodes_dict[node['id']] = node] *)
Definition process_node (node : value) : X unit :=
  if truthy node then
    match node with
    | VDict d =>
        match dict_find "id" d with
        | None | Some VNone => ret tt
        | Some id => store_node id node
        end
    | _ => raise (AttributeError "object has no attribute 'get'")
    end
  else ret tt.

(** The relationship is kept only if both of its ends are keys of
    [nodes_dict] at this point. *)
Definition process_rel (rel : value) : X unit :=
  if truthy rel then
    match rel with
    | VDict d =>
        match dict_find "source" d with
        | None | Some VNone => ret tt
        | Some source =>
            match dict_find "target" d with
            | None | Some VNone => ret tt
            | Some target =>
                has_source <- in_nodes_dict source ;;
                if has_source then
                  has_target <- in_nodes_dict target ;;
                  if has_target then append_rel rel else ret tt
                else ret tt
            end
        end
    | _ => raise (AttributeError "object has no attribute 'get'")
    end
  else ret tt.

(** The merge of the first row of a lookup: its nodes, then its
    relationships. *)
Definition merge_rows (rows : list record) : X unit :=
  match rows with
  | first :: _ =>
      if truthy (VDict first) then
        found <- py_iter (dict_get "nodes" (VList []) first) ;;
        for_each process_node found ;;;
        rels <- py_iter (dict_get "relationships" (VList []) first) ;;
        for_each process_rel rels
      else ret tt
  | [] => ret tt
  end.

(** One lookup and its merge; the source writes this block twice, once per
    query. *)
Definition merge_lookup (lookup_query : string) (names : list string) : X unit :=
  rows <- lift (execute_query lookup_query
                  (Some [("names", VList (map VStr names))])) ;;
  merge_rows rows.

(** The body of the [try]. *)
Definition extract_body (results : list record) : X unit :=
  let entity_names := collect_entity_names results in
  if negb (set_is_empty entity_names) && (List.length entity_names <? 50)%nat
  then
    let names := firstn 20 (set_order entity_names) in
    merge_lookup graph_query names ;;;
    nd <- get_nodes_dict ;;
    match nd with
    | [] => merge_lookup article_query names
    | _ => ret tt
    end
  else ret tt.

(** [_extract_graph_from_results]: whatever the body did, the method returns
    the two locals. *)
Definition _extract_graph_from_results (results : list record) (cypher : string)
  : M graph_data :=
  fun t =>
    match try_except (extract_body results) (fun _ => ret tt)
            (t, {| nodes_dict := []; relationships_list := [] |}) with
    | (_, (t', l)) =>
        (inr {| nodes := map snd (nodes_dict l);
                relationships := relationships_list l |}, t')
    end.

(** *** Execution of the generated query *)

Definition execute_text_to_cypher (question : string) : M exec_result :=
  start_time <- now ;;
  cypher_result <- text_to_cypher question ;;
  match cypher_result with
  | TrFailed error =>
      t1 <- now ;;
      ret (ExecNoQuery ("Failed to generate Cypher: " ++ error)
             (t1 - start_time)%Q)
  | TrOk cypher =>
      try_except
        (results <- execute_query cypher None ;;
         graph <- _extract_graph_from_results results cypher ;;
         t1 <- now ;;
         ret (ExecOk cypher results (List.length results) graph
                (t1 - start_time)%Q))
        (fun e =>
           t1 <- now ;;
           ret (ExecFailed cypher (t1 - start_time)%Q
                  ("Cypher execution error: " ++ exn_str e)))
  end.

(** *** Explanation of the results *)

(** [", ".join(str(v) for v in value[:5])] for a list value. *)
Definition format_value (v : value) : string :=
  match v with
  | VList l => PyStr.join ", " (map str (firstn 5 l))
  | _ => str v
  end.

Definition format_row (i : nat) (row : record) : string :=
  fold_left
    (fun row_text kv =>
       row_text ++ PyStr.nl ++ "  • " ++ fst kv ++ ": " ++ format_value (snd kv))
    row ("Result " ++ PyStr.of_nat i ++ ":").

Fixpoint format_rows (i : nat) (rows : list record) : list string :=
  match rows with
  | [] => []
  | row :: rest => format_row i row :: format_rows (Datatypes.S i) rest
  end.

Definition format_kg_results (results : list record) : string :=
  match results with
  | [] => "No results found."
  | _ => PyStr.join (PyStr.nl ++ PyStr.nl) (format_rows 1 (firstn 20 results))
  end.

Definition explanation_prompt (question cypher formatted_results : string)
  : string :=
  PyStr.join PyStr.nl
    [ "You are explaining database query results to a user.";
      EmptyString;
      "Question: " ++ question;
      EmptyString;
      "Cypher Query Used:";
      cypher;
      EmptyString;
      "Query Results:";
      formatted_results;
      EmptyString;
      "Provide a clear, natural language answer based on these EXACT results. Be specific with numbers and names from the data. If there are no results, say so clearly.";
      EmptyString;
      "Answer:" ].

Definition explanation_request (question cypher formatted_results : string)
  : chat_request :=
  {| model := "gpt-4o-mini";
     system_content := "You are a helpful assistant that explains database query results clearly and accurately.";
     user_content := explanation_prompt question cypher formatted_results;
     temperature := (7 # 10)%Q;
     seed := None;
     max_tokens := 500 |}.

Definition kg_query_with_explanation (question : string) : M kg_result :=
  start_time <- now ;;
  kg <- execute_text_to_cypher question ;;
  match kg with
  | ExecNoQuery error _ | ExecFailed _ _ error =>
      t1 <- now ;;
      ret (KgFailed error ("Failed to query knowledge graph: " ++ error)
             (t1 - start_time)%Q)
  | ExecOk cypher results result_count graph _ =>
      let formatted_results := format_kg_results results in
      answer <-
        try_except
          (chat (explanation_request question cypher formatted_results))
          (fun e =>
             ret ("Found " ++ PyStr.of_nat result_count
                  ++ " results, but failed to generate explanation: "
                  ++ exn_str e)) ;;
      t1 <- now ;;
      ret (KgOk cypher results result_count formatted_results answer graph
             (t1 - start_time)%Q)
  end.

(** *** Data loading *)

Definition q_load (csv_url : string) : string :=
  PyStr.join PyStr.nl
    [ EmptyString;
      "        LOAD CSV WITH HEADERS";
      "        FROM '" ++ csv_url ++ "'";
      "        AS row";
      "        FIELDTERMINATOR ';'";
      "        MERGE (a:Article {title:row.Title})";
      "        SET a.abstract = row.Abstract,";
      "            a.publication_date = date(row.Publication_Date)";
      "        WITH a, row";
      "        FOREACH (researcher in split(row.Authors, ',') |";
      "            MERGE (p:Researcher {name:trim(researcher)})";
      "            MERGE (p)-[:PUBLISHED]->(a))";
      "        WITH a, row";
      "        FOREACH (topic in [row.Topic] |";
      "            MERGE (t:Topic {name:trim(topic)})";
      "            MERGE (a)-[:IN_TOPIC]->(t))";
      "        " ].

Definition load_data (csv_url : string) : M (list record) :=
  execute_query (q_load csv_url) None.

Definition articles_query : string :=
  PyStr.join PyStr.nl
    [ EmptyString;
      "            MATCH (a:Article)";
      "            RETURN id(a) as id, a.title as title, a.abstract as abstract";
      "        " ].

Definition set_embedding_query : string :=
  PyStr.join PyStr.nl
    [ EmptyString;
      "                MATCH (a:Article)";
      "                WHERE id(a) = $id";
      "                SET a.embedding = $embedding";
      "            " ].

Definition create_embedding_for (article : record) : M unit :=
  title <- getitem "title" article ;;
  abstract <- getitem "abstract" article ;;
  embedding <- get_embedding (str title ++ " " ++ str abstract) ;;
  id <- getitem "id" article ;;
  _ <- execute_query set_embedding_query
         (Some [("id", id); ("embedding", VList (map VFloat embedding))]) ;;
  ret tt.

Definition create_embeddings_for_articles : M unit :=
  articles <- execute_query articles_query None ;;
  for_each create_embedding_for articles.

(** *** The LLM judge *)

(** [json.loads], from the standard library: the parsed document, or the
    exception it raises ([JSONDecodeError] on malformed text). *)
Variable json_loads : string -> exn + value.

Definition judgment_prompt (question : string) (rag : rag_result)
    (cypher answer : string) (result_count : nat) (time : Q)
    (formatted_results : string) : string :=
  PyStr.join PyStr.nl
    [ "You are an expert judge evaluating two AI systems answering the same question.";
      EmptyString;
      "Question: " ++ PyStr.dq ++ question ++ PyStr.dq;
      EmptyString;
      "SYSTEM A (RAG - Retrieval-Augmented Generation):";
      "Answer: " ++ rag_answer rag;
      "Method: Retrieved " ++ PyStr.of_nat (List.length (rag_sources rag)) ++ " relevant documents and generated answer using LLM";
      "Time: " ++ PyStr.format_f 2 (rag_time rag) ++ "s";
      EmptyString;
      "SYSTEM B (Knowledge Graph with Text-to-Cypher):";
      "Cypher Query: " ++ cypher;
      "Answer: " ++ answer;
      "Method: Generated structured database query and retrieved " ++ PyStr.of_nat result_count ++ " exact results";
      "Time: " ++ PyStr.format_f 2 time ++ "s";
      "Raw Results: " ++ PyStr.take 500 formatted_results ++ "...";
      EmptyString;
      "Evaluation Criteria:";
      "1. **Accuracy**: Which answer is more factually correct?";
      "2. **Completeness**: Which answer provides more complete information?";
      "3. **Precision**: Which answer is more specific and exact?";
      "4. **Verifiability**: Which answer can be verified/proven?";
      "5. **Usefulness**: Which answer better serves the user's intent?";
      EmptyString;
      "Provide your evaluation in the following JSON format:";
      "{";
      "    " ++ PyStr.dq ++ "winner" ++ PyStr.dq ++ ": " ++ PyStr.dq ++ "A" ++ PyStr.dq ++ " or " ++ PyStr.dq ++ "B" ++ PyStr.dq ++ " or " ++ PyStr.dq ++ "TIE" ++ PyStr.dq ++ ",";
      "    " ++ PyStr.dq ++ "confidence" ++ PyStr.dq ++ ": " ++ PyStr.dq ++ "high" ++ PyStr.dq ++ " or " ++ PyStr.dq ++ "medium" ++ PyStr.dq ++ " or " ++ PyStr.dq ++ "low" ++ PyStr.dq ++ ",";
      "    " ++ PyStr.dq ++ "accuracy_score_a" ++ PyStr.dq ++ ": 1-10,";
      "    " ++ PyStr.dq ++ "accuracy_score_b" ++ PyStr.dq ++ ": 1-10,";
      "    " ++ PyStr.dq ++ "completeness_score_a" ++ PyStr.dq ++ ": 1-10,";
      "    " ++ PyStr.dq ++ "completeness_score_b" ++ PyStr.dq ++ ": 1-10,";
      "    " ++ PyStr.dq ++ "precision_score_a" ++ PyStr.dq ++ ": 1-10,";
      "    " ++ PyStr.dq ++ "precision_score_b" ++ PyStr.dq ++ ": 1-10,";
      "    " ++ PyStr.dq ++ "reasoning" ++ PyStr.dq ++ ": " ++ PyStr.dq ++ "Detailed explanation of your judgment" ++ PyStr.dq ++ ",";
      "    " ++ PyStr.dq ++ "strengths_a" ++ PyStr.dq ++ ": [" ++ PyStr.dq ++ "strength 1" ++ PyStr.dq ++ ", " ++ PyStr.dq ++ "strength 2" ++ PyStr.dq ++ "],";
      "    " ++ PyStr.dq ++ "strengths_b" ++ PyStr.dq ++ ": [" ++ PyStr.dq ++ "strength 1" ++ PyStr.dq ++ ", " ++ PyStr.dq ++ "strength 2" ++ PyStr.dq ++ "],";
      "    " ++ PyStr.dq ++ "weaknesses_a" ++ PyStr.dq ++ ": [" ++ PyStr.dq ++ "weakness 1" ++ PyStr.dq ++ ", " ++ PyStr.dq ++ "weakness 2" ++ PyStr.dq ++ "],";
      "    " ++ PyStr.dq ++ "weaknesses_b" ++ PyStr.dq ++ ": [" ++ PyStr.dq ++ "weakness 1" ++ PyStr.dq ++ ", " ++ PyStr.dq ++ "weakness 2" ++ PyStr.dq ++ "],";
      "    " ++ PyStr.dq ++ "recommendation" ++ PyStr.dq ++ ": " ++ PyStr.dq ++ "When to use each method for this type of question" ++ PyStr.dq;
      "}";
      EmptyString;
      "Be objective and thorough in your analysis." ].

Definition judge_system_content : string :=
  "You are an expert AI judge evaluating different question-answering systems. Be objective, thorough, and fair in your evaluations.".

Definition judge_request (prompt : string) : chat_request :=
  {| model := "gpt-4o-mini";
     system_content := judge_system_content;
     user_content := prompt;
     temperature := 0%Q;
     seed := Some 42%Z;
     max_tokens := 1000 |}.

(** [xs[i]] *)
Definition index {A} (i : nat) (xs : list A) : M A :=
  match nth_error xs i with
  | Some x => ret x
  | None => raise (IndexError "list index out of range")
  end.

(** [text.split(opening)[1].split("```")[0].strip()] *)
Definition between_fences (opening text : string) : M string :=
  rest <- index 1 (PyStr.split opening text) ;;
  inner <- index 0 (PyStr.split "```" rest) ;;
  ret (PyStr.strip inner).

(** The inner [try]: optional code fence, then [json.loads]; a
    [JSONDecodeError] gives the raw-text judgment, built from the text
    after the fence was removed. *)
Definition parse_judgment (judgment_text : string) : M value :=
  text <- (if PyStr.contains "```json" judgment_text
           then between_fences "```json" judgment_text
           else if PyStr.contains "```" judgment_text
           then between_fences "```" judgment_text
           else ret judgment_text) ;;
  match json_loads text with
  | inr judgment => ret judgment
  | inl e =>
      if String.eqb (exn_class e) "JSONDecodeError"
      then ret (VDict [("raw_text", VStr text)])
      else raise e
  end.

(** The outer [try]: the completion call and the parsing. *)
Definition ask_judge (prompt : string) : M value :=
  try_except
    (content <- chat (judge_request prompt) ;;
     parse_judgment (PyStr.strip content))
    (fun e => ret (VDict [("error", VStr (exn_str e))])).

(** [key in v] for a string [key] *)
Definition py_in (key : string) (v : value) : M bool :=
  match v with
  | VDict d => ret (dict_has key d)
  | VList l => ret (existsb (key_eqb (VStr key)) l)
  | VStr s => ret (PyStr.contains key s)
  | _ => raise (TypeError "argument is not iterable")
  end.

(** [v[key]] for a string [key] *)
Definition subscript (key : string) (v : value) : M value :=
  match v with
  | VDict d => getitem key d
  | VList _ => raise (TypeError "list indices must be integers or slices, not str")
  | VStr _ => raise (TypeError "string indices must be integers, not 'str'")
  | _ => raise (TypeError "object is not subscriptable")
  end.

(** The receiver of [v.get]: only a dict has the method. *)
Definition as_dict (v : value) : M record :=
  match v with
  | VDict d => ret d
  | _ => raise (AttributeError "object has no attribute 'get'")
  end.

(** [{"A": "RAG", "B": "Knowledge Graph", "TIE": "TIE"}.get(w, 'UNKNOWN')]
    on a hashable [w]. *)
Definition winner_label (w : value) : string :=
  match w with
  | VStr s =>
      if String.eqb s "A" then "RAG"
      else if String.eqb s "B" then "Knowledge Graph"
      else if String.eqb s "TIE" then "TIE"
      else "UNKNOWN"
  | _ => "UNKNOWN"
  end.

Definition winner_map_get (w : value) : M string :=
  if hashable w then ret (winner_label w)
  else raise (TypeError "unhashable type").

(** [v.upper()] *)
Definition py_upper (v : value) : M string :=
  match v with
  | VStr s => ret (PyStr.upper s)
  | _ => raise (AttributeError "object has no attribute 'upper'")
  end.

(** [if judgment.get(key): for item in judgment[key]: print(item)] *)
Definition display_items (key : string) (d : record) : M unit :=
  if truthy (dict_get key VNone d)
  then (v <- getitem key d ;; _ <- py_iter v ;; ret tt)
  else ret tt.

(** The verdict display: what it evaluates, without the printing. *)
Definition display_verdict (judgment : value) : M unit :=
  has_error <- py_in "error" judgment ;;
  if has_error then (_ <- subscript "error" judgment ;; ret tt)
  else
    has_raw_text <- py_in "raw_text" judgment ;;
    if has_raw_text then (_ <- subscript "raw_text" judgment ;; ret tt)
    else
      d <- as_dict judgment ;;
      _ <- winner_map_get (dict_get "winner" (VStr "UNKNOWN") d) ;;
      _ <- py_upper (dict_get "confidence" (VStr "unknown") d) ;;
      display_items "strengths_a" d ;;;
      display_items "strengths_b" d ;;;
      display_items "weaknesses_a" d ;;;
      display_items "weaknesses_b" d.

Definition compare_with_judge (question : string) : M comparison :=
  rag <- query question false ;;
  kg <- kg_query_with_explanation question ;;
  match kg with
  | KgFailed _ _ _ =>
      ret {| cmp_question := question;
             cmp_winner := VStr "RAG";
             cmp_reason := Some "Knowledge Graph query failed";
             cmp_confidence := None;
             cmp_judgment := None;
             cmp_rag_result := rag;
             cmp_kg_result := kg |}
  | KgOk cypher _ result_count formatted_results answer _ time =>
      judgment <- ask_judge (judgment_prompt question rag cypher answer
                               result_count time formatted_results) ;;
      display_verdict judgment ;;;
      d <- as_dict judgment ;;
      ret {| cmp_question := question;
             cmp_winner := dict_get "winner" VNone d;
             cmp_reason := None;
             cmp_confidence := Some (dict_get "confidence" VNone d);
             cmp_judgment := Some d;
             cmp_rag_result := rag;
             cmp_kg_result := kg |}
  end.

(** ** [batch_judge_questions] *)

Definition dataset_url : string :=
  "https://raw.githubusercontent.com/dcarpintero/generative-ai-101/main/dataset/synthetic_articles.csv".

(** [if count[0]['count'] == 0: load the data and create the embeddings] *)
Definition ensure_data : M unit :=
  count <- execute_query "MATCH (n) RETURN count(n) as count" None ;;
  first <- index 0 count ;;
  n <- getitem "count" first ;;
  if key_eqb n (VInt 0)
  then (_ <- load_data dataset_url ;; create_embeddings_for_articles)
  else ret tt.

(** The loop over the questions: one comparison each, one second of sleep
    between two questions. *)
Fixpoint judge_all (questions : list string) : M (list comparison) :=
  match questions with
  | [] => ret []
  | question :: rest =>
      result <- compare_with_judge question ;;
      (match rest with
       | [] => ret tt
       | _ => fun t => (inr tt, EvSleep 1 :: t)
       end) ;;;
      results <- judge_all rest ;;
      ret (result :: results)
  end.

(** [r.get('winner') == label] *)
Definition winner_is (label : string) (r : comparison) : bool :=
  key_eqb (cmp_winner r) (VStr label).

(** [sum(1 for r in results if r.get('winner') == label)] *)
Definition count_winner (label : string) (results : list comparison) : nat :=
  List.length (filter (winner_is label) results).

(** [f"{wins/len(questions)*100:.1f}"] *)
Definition percent (wins total : nat) : exn + string :=
  match total with
  | O => inl ZeroDivisionError
  | _ => inr (PyStr.format_f 1
                (Qmake (Z.of_nat wins) (Pos.of_nat total) * 100)%Q)
  end.

(** The scores of one side: the records with a truthy judgment whose score
    under [key] is an [int] or a [float]. *)
Definition has_score (key : string) (r : comparison) : bool :=
  match cmp_judgment r with
  | Some j => truthy (VDict j) && is_number (dict_get key VNone j)
  | None => false
  end.

Definition score_of (key : string) (r : comparison) : Q :=
  match cmp_judgment r with
  | Some j =>
      match num_of (dict_get key (VInt 0) j) with
      | Some q => q
      | None => 0%Q
      end
  | None => 0%Q
  end.

Definition accuracy_scores (key : string) (results : list comparison) : list Q :=
  map (score_of key) (filter (has_score key) results).

Definition Qsum (xs : list Q) : Q := fold_left Qplus xs 0%Q.

(** [f"{sum(xs)/len(xs):.1f}"] for a non-empty [xs] *)
Definition mean_1f (xs : list Q) : string :=
  PyStr.format_f 1 (Qsum xs / inject_Z (Z.of_nat (List.length xs)))%Q.

(** [{"A": "RAG", "B": "KG", "TIE": "TIE"}.get(winner, '?')] on a hashable
    winner. *)
Definition winner_name (w : value) : string :=
  match w with
  | VStr s =>
      if String.eqb s "A" then "RAG"
      else if String.eqb s "B" then "KG"
      else if String.eqb s "TIE" then "TIE"
      else "?"
  | _ => "?"
  end.

Fixpoint winner_listing (questions : list string) (results : list comparison)
  : exn + list (string * string) :=
  match questions, results with
  | question :: qs, result :: rs =>
      if hashable (cmp_winner result) then
        match winner_listing qs rs with
        | inr rest =>
            inr ((PyStr.take 60 question, winner_name (cmp_winner result)) :: rest)
        | inl e => inl e
        end
      else inl (TypeError "unhashable type")
  | _, _ => inr []
  end.

(** The statistics, in the order the source computes and prints them. *)
Definition aggregate_statistics (questions : list string)
    (results : list comparison) : exn + batch_report :=
  let rag_wins := count_winner "A" results in
  let kg_wins := count_winner "B" results in
  let ties := count_winner "TIE" results in
  let total := List.length questions in
  match percent rag_wins total, percent kg_wins total, percent ties total with
  | inr rp, inr kp, inr tp =>
      let rag_accuracy := accuracy_scores "accuracy_score_a" results in
      let kg_accuracy := accuracy_scores "accuracy_score_b" results in
      let average :=
        match rag_accuracy, kg_accuracy with
        | _ :: _, _ :: _ => Some (mean_1f rag_accuracy, mean_1f kg_accuracy)
        | _, _ => None
        end in
      match winner_listing questions results with
      | inr listing =>
          inr {| rag_wins := rag_wins; kg_wins := kg_wins; ties := ties;
                 rag_wins_percent := rp; kg_wins_percent := kp;
                 ties_percent := tp;
                 average_accuracy := average;
                 question_winners := listing |}
      | inl e => inl e
      end
  | inl e, _, _ | _, inl e, _ | _, _, inl e => inl e
  end.

(** The function returns [results]; the report is what it printed. *)
Definition batch_judge_questions (questions : list string)
  : M (list comparison * batch_report) :=
  ensure_data ;;;
  results <- judge_all questions ;;
  report <- lift_result (aggregate_statistics questions results) ;;
  ret (results, report).

(** ** The whole graph and the quick entry point *)

Definition graph_data_query (limit : Z) : string :=
  PyStr.join PyStr.nl
    [ EmptyString;
      "        MATCH (n)";
      "        WITH n LIMIT " ++ PyStr.of_Z limit;
      "        OPTIONAL MATCH (n)-[r]->(m)";
      "        RETURN";
      "            collect(DISTINCT {";
      "                id: id(n),";
      "                label: head(labels(n)),";
      "                properties: properties(n)";
      "            }) as nodes,";
      "            collect(DISTINCT {";
      "                source: id(startNode(r)),";
      "                target: id(endNode(r)),";
      "                type: type(r)";
      "            }) as relationships";
      "        " ].

(** [if rel and rel.get('source') is not None and
    rel.get('target') is not None: relationships_list.append(rel)]: here
    the ends are not looked up among the nodes. *)
Definition collect_rel (rel : value) : X unit :=
  if truthy rel then
    match rel with
    | VDict d =>
        match dict_find "source" d with
        | None | Some VNone => ret tt
        | Some _ =>
            match dict_find "target" d with
            | None | Some VNone => ret tt
            | Some _ => append_rel rel
            end
        end
    | _ => raise (AttributeError "object has no attribute 'get'")
    end
  else ret tt.

(** A block that fills two fresh locals; nothing guards it, so what it
    raises leaves the method. *)
Definition with_locals (m : X unit) : M locals :=
  fun t =>
    match m (t, {| nodes_dict := []; relationships_list := [] |}) with
    | (inl e, (t', _)) => (inl e, t')
    | (inr _, (t', l)) => (inr l, t')
    end.

(** [get_graph_data]: [nodes_set] and the node loop are those of the
    extractor. *)
Definition get_graph_data (limit : Z) : M graph_data :=
  result <- execute_query (graph_data_query limit) None ;;
  match result with
  | first :: _ =>
      if truthy (VDict first) then
        l <- with_locals
               (found <- py_iter (dict_get "nodes" (VList []) first) ;;
                for_each process_node found ;;;
                rels <- py_iter (dict_get "relationships" (VList []) first) ;;
                for_each collect_rel rels) ;;
        ret {| nodes := map snd (nodes_dict l);
               relationships := relationships_list l |}
      else ret empty_graph
  | [] => ret empty_graph
  end.

Definition embedding_count_query : string :=
  "MATCH (a:Article) WHERE a.embedding IS NOT NULL RETURN count(a) as count".

(** [quick_ask_with_judge]: the embeddings are checked only after a load. *)
Definition quick_ask_with_judge (question : string) : M comparison :=
  count <- execute_query "MATCH (n) RETURN count(n) as count" None ;;
  first <- index 0 count ;;
  n <- getitem "count" first ;;
  (if key_eqb n (VInt 0) then
     _ <- load_data dataset_url ;;
     emb_count <- execute_query embedding_count_query None ;;
     emb_first <- index 0 emb_count ;;
     m <- getitem "count" emb_first ;;
     if key_eqb m (VInt 0) then create_embeddings_for_articles else ret tt
   else ret tt) ;;;
  compare_with_judge question.

(** ** Vocabulary of the statements *)

(** The chat requests of a trace, and those of them sent to the Judge (the
    only requests with the Judge's system message). *)
Definition chat_calls (t : trace) : list chat_request :=
  flat_map (fun ev => match ev with EvChat r => [r] | _ => [] end) t.

Definition is_judge_request (r : chat_request) : bool :=
  String.eqb (system_content r) judge_system_content.

Definition judge_calls (t : trace) : nat :=
  List.length (filter is_judge_request (chat_calls t)).

Definition no_chat (ev : event) : Prop :=
  match ev with EvChat _ => False | _ => True end.

Definition no_judge (ev : event) : Prop :=
  match ev with EvChat r => is_judge_request r = false | _ => True end.

(** [emits proj P m]: running [m] only puts new events in front of the
    trace, all of them satisfying [P], whether [m] returns or raises. *)
Definition emits {S A} (proj : S -> trace) (P : event -> Prop) (m : SE S A)
  : Prop :=
  forall s, exists evs,
    proj (snd (m s)) = (evs ++ proj s)%list /\ Forall P evs.

Definition trace_of_M (t : trace) : trace := t.
Definition trace_of_X (s : trace * locals) : trace := fst s.

(** Events that are not completion calls. *)
Definition quiet (P : event -> Prop) : Prop :=
  (forall q p, P (EvQuery q p)) /\ (forall m i, P (EvEmbed m i)) /\
  P EvTime /\ (forall n, P (EvSleep n)).

(** The retrieval step of [query]. *)
Definition retrieve (question : string) (use_vector_search : bool) : M string :=
  if use_vector_search
  then retrieve_with_vector_search question 5
  else retrieve_context question 5.

(** The identifier of a node and an end of a relationship, as the source
    reads them. *)
Definition node_id (node : value) : option value :=
  match node with VDict d => dict_find "id" d | _ => None end.

Definition endpoint (key : string) (rel : value) : option value :=
  match rel with VDict d => dict_find key d | _ => None end.

(** [has_node ident g]: some node of the snapshot has an identifier equal
    to [ident]. *)
Definition has_node (ident : value) (g : graph_data) : bool :=
  existsb (fun node => match node_id node with
                       | Some i => key_eqb ident i
                       | None => false
                       end) (nodes g).

Definition rel_closed (g : graph_data) (rel : value) : bool :=
  match endpoint "source" rel, endpoint "target" rel with
  | Some s, Some tg => has_node s g && has_node tg g
  | _, _ => false
  end.

(** The snapshot invariant: no relationship dangles. *)
Definition snapshot_closed (g : graph_data) : bool :=
  forallb (rel_closed g) (relationships g).

(** The invariant of the two locals while the extractor runs. *)
Definition keyed (nd : nodes_dict_t) : Prop :=
  Forall (fun kn => exists i, node_id (snd kn) = Some i
                              /\ key_eqb i (fst kn) = true) nd.

Definition rels_closed (nd : nodes_dict_t) (rels : list value) : Prop :=
  Forall (fun rel => exists s tg,
            endpoint "source" rel = Some s /\ endpoint "target" rel = Some tg
            /\ nd_mem s nd = true /\ nd_mem tg nd = true) rels.

Definition locals_ok (l : locals) : Prop :=
  keyed (nodes_dict l) /\ rels_closed (nodes_dict l) (relationships_list l).

(** [preserves I m]: [m] keeps [I] on the locals, whether it returns or
    raises. *)
Definition preserves {A} (I : locals -> Prop) (m : X A) : Prop :=
  forall s, I (snd s) -> I (snd (snd (m s))).





(** [offers v x]: the value [v] of a result row offers the name [x], as a
    string or as an element of a list. *)
Definition offers (v : value) (x : string) : Prop :=
  v = VStr x \/ exists items, v = VList items /\ In (VStr x) items.

(** [has_id i ns]: some node of [ns] has an identifier equal to [i]. *)
Definition has_id (i : value) (ns : list value) : bool :=
  existsb (fun m => match node_id m with
                    | Some j => key_eqb i j
                    | None => false
                    end) ns.

Definition is_none (v : value) : bool :=
  match v with VNone => true | _ => false end.

(** Every node has an identifier other than [None], and no two nodes have
    equal identifiers. *)
Fixpoint ids_distinct (ns : list value) : bool :=
  match ns with
  | [] => true
  | n :: rest =>
      match node_id n with
      | Some i => negb (is_none i) && negb (has_id i rest) && ids_distinct rest
      | None => false
      end
  end.

(** The relationship has a source and a target other than [None]. *)
Definition has_ends (rel : value) : bool :=
  match endpoint "source" rel, endpoint "target" rel with
  | Some s, Some tg => negb (is_none s) && negb (is_none tg)
  | _, _ => false
  end.

(** The invariant of [nodes_dict] behind [ids_distinct]. *)
Fixpoint nd_distinct (nd : nodes_dict_t) : Prop :=
  match nd with
  | [] => True
  | (k, _) :: nd' => nd_mem k nd' = false /\ nd_distinct nd'
  end.

Definition nd_entries (nd : nodes_dict_t) : Prop :=
  Forall (fun kn => exists i, node_id (snd kn) = Some i /\ is_none i = false
                              /\ key_eqb i (fst kn) = true) nd.

Definition nodes_ok (l : locals) : Prop :=
  nd_distinct (nodes_dict l) /\ nd_entries (nodes_dict l).

Definition ends_ok (l : locals) : Prop :=
  Forall (fun rel => has_ends rel = true) (relationships_list l).

(** [returns m Q]: whenever [m] returns, what it returns satisfies [Q]. *)
Definition returns {S A} (m : SE S A) (Q : A -> Prop) : Prop :=
  forall s a s', m s = (inr a, s') -> Q a.

(** The text starts with a line feed. *)
Definition starts_with_nl (s : string) : Prop :=
  exists rest, s = String "010"%char rest.

(** The text holds no backtick. *)
Definition no_backtick (s : string) : Prop := PyStr.contains "`" s = false.

(** White space only. *)
Fixpoint all_space (s : string) : bool :=
  match s with
  | EmptyString => true
  | String c s' => PyStr.is_space c && all_space s'
  end.

(** A row value as the explanation prompt can see it: a list cut to its
    first five items. *)
Definition cap_value (v : value) : value :=
  match v with
  | VList l => VList (firstn 5 l)
  | _ => v
  end.

(** The first twenty rows, each value cut. *)
Definition cap_rows (results : list record) : list record :=
  map (map (fun kv => (fst kv, cap_value (snd kv)))) (firstn 20 results).

(** What holds of the fields of a knowledge-graph result. *)
Definition exec_coherent (r : exec_result) : Prop :=
  match r with
  | ExecOk cypher results result_count graph _ =>
      result_count = List.length results
      /\ PyStr.strip cypher = cypher
      /\ snapshot_closed graph = true
      /\ ids_distinct (nodes graph) = true
  | _ => True
  end.

Definition kg_coherent (r : kg_result) : Prop :=
  match r with
  | KgOk cypher results result_count formatted_results _ graph _ =>
      result_count = List.length results
      /\ formatted_results = format_kg_results results
      /\ PyStr.strip cypher = cypher
      /\ snapshot_closed graph = true
      /\ ids_distinct (nodes graph) = true
  | KgFailed error answer _ =>
      answer = "Failed to query knowledge graph: " ++ error
  end.

(** [for x in v] does not raise. *)
Definition iterable (v : value) : bool :=
  match v with
  | VList _ | VStr _ | VDict _ => true
  | _ => false
  end.

(** What the verdict display needs of a judgment with neither an [error]
    nor a [raw_text] key. *)
Definition displayable (d : record) : Prop :=
  hashable (dict_get "winner" (VStr "UNKNOWN") d) = true
  /\ (exists s, dict_get "confidence" (VStr "unknown") d = VStr s)
  /\ forall key,
       In key ["strengths_a"; "strengths_b"; "weaknesses_a"; "weaknesses_b"] ->
       truthy (dict_get key VNone d) = true ->
       iterable (dict_get key VNone d) = true.

Definition is_dict (v : value) : bool :=
  match v with VDict _ => true | _ => false end.





(** ** What a computation adds to the trace *)

Section Emits.

Context {S : Type} (proj : S -> trace) (P : event -> Prop).

Lemma emits_ret {A} (a : A) : emits proj P (ret a).
Proof. intros s; exists []; split; [reflexivity | constructor]. Qed.

Lemma emits_raise {A} (e : exn) : emits proj P (@raise S A e).
Proof. intros s; exists []; split; [reflexivity | constructor]. Qed.

Lemma emits_lift_result {A} (r : exn + A) : emits proj P (lift_result r).
Proof. intros s; exists []; split; [reflexivity | constructor]. Qed.

Lemma emits_bind {A B} (m : SE S A) (f : A -> SE S B) :
  emits proj P m -> (forall a, emits proj P (f a)) -> emits proj P (bind m f).
Proof.
  intros Hm Hf s. unfold bind.
  destruct (Hm s) as [evs [E1 F1]].
  destruct (m s) as [[e | a] s1]; simpl in E1.
  - exists evs; auto.
  - destruct (Hf a s1) as [evs2 [E2 F2]].
    exists (evs2 ++ evs)%list. split.
    + rewrite E2, E1. apply app_assoc.
    + apply Forall_app; auto.
Qed.

Lemma emits_try_except {A} (m : SE S A) (h : exn -> SE S A) :
  emits proj P m -> (forall e, emits proj P (h e)) ->
  emits proj P (try_except m h).
Proof.
  intros Hm Hh s. unfold try_except.
  destruct (Hm s) as [evs [E1 F1]].
  destruct (m s) as [[e | a] s1]; simpl in E1.
  - destruct (Hh e s1) as [evs2 [E2 F2]].
    exists (evs2 ++ evs)%list. split.
    + rewrite E2, E1. apply app_assoc.
    + apply Forall_app; auto.
  - exists evs; auto.
Qed.

Lemma emits_for_each {X} (body : X -> SE S unit) (xs : list X) :
  (forall x, emits proj P (body x)) -> emits proj P (for_each body xs).
Proof.
  intros Hb. induction xs as [| x xs IH]; simpl.
  - apply emits_ret.
  - apply emits_bind; auto.
Qed.

Lemma emits_getitem k d : emits proj P (getitem k d).
Proof. unfold getitem. destruct (dict_find k d); [apply emits_ret | apply emits_raise]. Qed.

Lemma emits_py_iter v : emits proj P (py_iter v).
Proof. destruct v; simpl; first [apply emits_ret | apply emits_raise]. Qed.

Lemma emits_str_join sep v : emits proj P (str_join sep v).
Proof.
  unfold str_join. apply emits_bind; [apply emits_py_iter |].
  intros items. destruct (strs_of items); [apply emits_ret | apply emits_raise].
Qed.

Lemma emits_format_3f v : emits proj P (format_3f v).
Proof.
  unfold format_3f.
  destruct v; simpl; first [apply emits_ret | apply emits_raise].
Qed.

Lemma emits_slice_to n v : emits proj P (slice_to n v).
Proof. destruct v; simpl; first [apply emits_ret | apply emits_raise]. Qed.

End Emits.

Lemma emits_weaken {S A} (proj : S -> trace) (P Q : event -> Prop) (m : SE S A) :
  (forall ev, P ev -> Q ev) -> emits proj P m -> emits proj Q m.
Proof.
  intros HPQ Hm s. destruct (Hm s) as [evs [E F]].
  exists evs. split; [exact E |].
  eapply Forall_impl; eauto.
Qed.

(** A step that adds exactly one event. *)
Lemma emits_one {A} (P : event -> Prop) (m : M A) (ev : event) :
  P ev -> (forall t, snd (m t) = ev :: t) -> emits trace_of_M P m.
Proof.
  intros HP Hm t. exists [ev]. split; [apply Hm | constructor; auto].
Qed.

Lemma emits_execute_query (P : event -> Prop) q p :
  (forall q' p', P (EvQuery q' p')) -> emits trace_of_M P (execute_query q p).
Proof.
  intros HP. eapply emits_one; [apply HP | reflexivity].
Qed.

Lemma emits_get_embedding (P : event -> Prop) text :
  (forall m i, P (EvEmbed m i)) -> emits trace_of_M P (get_embedding text).
Proof.
  intros HP. eapply emits_one; [apply HP | reflexivity].
Qed.

Lemma emits_now (P : event -> Prop) : P EvTime -> emits trace_of_M P now.
Proof.
  intros HP. eapply emits_one; [apply HP | reflexivity].
Qed.

Lemma emits_chat (P : event -> Prop) req :
  P (EvChat req) -> emits trace_of_M P (chat req).
Proof.
  intros HP. eapply emits_one; [apply HP | reflexivity].
Qed.

Lemma quiet_no_chat : quiet no_chat.
Proof. repeat split. Qed.

Lemma quiet_no_judge : quiet no_judge.
Proof. repeat split. Qed.

Lemma emits_context_parts (P : event -> Prop) part i results :
  (forall j r, emits trace_of_M P (part j r)) ->
  emits trace_of_M P (context_parts part i results).
Proof.
  intros Hp. revert i. induction results as [| r rs IH]; intros i; simpl.
  - apply emits_ret.
  - apply emits_bind; [apply Hp |]. intros p.
    apply emits_bind; [apply IH |]. intros ps. apply emits_ret.
Qed.

Ltac emits_step :=
  first
    [ apply emits_ret | apply emits_raise | apply emits_getitem
    | apply emits_str_join | apply emits_format_3f | apply emits_slice_to
    | apply emits_py_iter | apply emits_lift_result
    | apply emits_bind; [| intros ?] ].

Lemma emits_keyword_context_part (P : event -> Prop) i r :
  emits trace_of_M P (keyword_context_part i r).
Proof.
  unfold keyword_context_part.
  repeat (emits_step || match goal with
                        | |- emits _ _ (if ?b then _ else _) => destruct b
                        end).
Qed.

Lemma emits_vector_context_part (P : event -> Prop) i r :
  emits trace_of_M P (vector_context_part i r).
Proof. unfold vector_context_part. repeat emits_step. Qed.

Lemma emits_retrieve_context (P : event -> Prop) question limit :
  quiet P -> emits trace_of_M P (retrieve_context question limit).
Proof.
  intros [Hq _]. unfold retrieve_context.
  apply emits_bind; [apply emits_execute_query, Hq |]. intros results.
  apply emits_bind; [| intros; apply emits_ret].
  apply emits_context_parts, emits_keyword_context_part.
Qed.

Lemma emits_retrieve_with_vector_search (P : event -> Prop) question limit :
  quiet P -> emits trace_of_M P (retrieve_with_vector_search question limit).
Proof.
  intros [Hq [He _]]. unfold retrieve_with_vector_search.
  apply emits_bind; [apply emits_get_embedding, He |]. intros emb.
  apply emits_bind; [apply emits_execute_query, Hq |]. intros results.
  apply emits_bind; [| intros; apply emits_ret].
  apply emits_context_parts, emits_vector_context_part.
Qed.

Lemma emits_retrieve (P : event -> Prop) question use_vector_search :
  quiet P -> emits trace_of_M P (retrieve question use_vector_search).
Proof.
  intros HP. unfold retrieve. destruct use_vector_search.
  - apply emits_retrieve_with_vector_search, HP.
  - apply emits_retrieve_context, HP.
Qed.

Lemma chat_calls_app (t1 t2 : trace) :
  chat_calls (t1 ++ t2)%list = (chat_calls t1 ++ chat_calls t2)%list.
Proof. unfold chat_calls. apply flat_map_app. Qed.

Lemma chat_calls_no_chat (evs : trace) : Forall no_chat evs -> chat_calls evs = [].
Proof.
  induction 1 as [| ev evs Hev _ IH]; [reflexivity |].
  destruct ev; simpl in *; try contradiction; exact IH.
Qed.

Lemma judge_calls_no_judge (evs t : trace) :
  Forall no_judge evs -> judge_calls (evs ++ t)%list = judge_calls t.
Proof.
  unfold judge_calls. induction 1 as [| ev evs Hev _ IH]; [reflexivity |].
  destruct ev; simpl in *; try exact IH.
  rewrite Hev. exact IH.
Qed.

(** ** The RAG branch *)

(** C5.  When retrieval, by keywords or by vectors, returns the empty
    context, [query] returns the canned answer with an empty context and no
    sources, and the trace holds the chat requests it held before: the
    answer generator was not called. *)
Theorem query_empty_context_short_circuit
    (question : string) (use_vector_search : bool) (t t1 : trace) :
  retrieve question use_vector_search (EvTime :: t) = (inr EmptyString, t1) ->
  query question use_vector_search t
  = (inr {| rag_answer := no_information_answer;
            rag_context := EmptyString;
            rag_sources := [];
            rag_time := (time_time W t1 - time_time W t)%Q |},
     EvTime :: t1)
  /\ chat_calls (EvTime :: t1) = chat_calls t.
Proof.
  intros Hr. split.
  - unfold retrieve in Hr. unfold query, bind, now.
    destruct use_vector_search; rewrite Hr; reflexivity.
  - destruct (emits_retrieve no_chat question use_vector_search
                quiet_no_chat (EvTime :: t)) as [evs [E F]].
    rewrite Hr in E. simpl in E. unfold trace_of_M in E. subst t1.
    change (EvTime :: evs ++ EvTime :: t)%list
      with ((EvTime :: evs) ++ (EvTime :: t))%list.
    rewrite chat_calls_app.
    rewrite (chat_calls_no_chat (EvTime :: evs)); [reflexivity |].
    constructor; [exact I | exact F].
Qed.

(** ** The KG branch: trace *)

Lemma emits_lift (P : event -> Prop) {A} (m : M A) :
  emits trace_of_M P m -> emits trace_of_X P (lift m).
Proof.
  intros Hm [t l]. destruct (Hm t) as [evs [E F]].
  exists evs. split; [| exact F].
  unfold lift, trace_of_X, trace_of_M in *. simpl.
  destruct (m t) as [r t']. simpl in *. exact E.
Qed.

Lemma emits_get_nodes_dict (P : event -> Prop) : emits trace_of_X P get_nodes_dict.
Proof. intros s; exists []; split; [reflexivity | constructor]. Qed.

Lemma emits_store_node (P : event -> Prop) key node :
  emits trace_of_X P (store_node key node).
Proof.
  unfold store_node. destruct (hashable key); [| apply emits_raise].
  intros s; exists []; split; [reflexivity | constructor].
Qed.

Lemma emits_in_nodes_dict (P : event -> Prop) key :
  emits trace_of_X P (in_nodes_dict key).
Proof.
  unfold in_nodes_dict. destruct (hashable key); [| apply emits_raise].
  apply emits_bind; [apply emits_get_nodes_dict | intros; apply emits_ret].
Qed.

Lemma emits_append_rel (P : event -> Prop) rel :
  emits trace_of_X P (append_rel rel).
Proof. intros s; exists []; split; [reflexivity | constructor]. Qed.

Ltac emits_crush :=
  repeat first
    [ emits_step
    | apply emits_get_nodes_dict | apply emits_store_node
    | apply emits_in_nodes_dict | apply emits_append_rel
    | match goal with
      | |- emits _ _ (if ?b then _ else _) => destruct b
      | |- emits _ _ (match ?x with _ => _ end) => destruct x
      end ].

Lemma emits_process_node (P : event -> Prop) node :
  emits trace_of_X P (process_node node).
Proof. unfold process_node. emits_crush. Qed.

Lemma emits_process_rel (P : event -> Prop) rel :
  emits trace_of_X P (process_rel rel).
Proof. unfold process_rel. emits_crush. Qed.

Lemma emits_merge_rows (P : event -> Prop) rows :
  emits trace_of_X P (merge_rows rows).
Proof.
  unfold merge_rows.
  destruct rows as [| first rest]; [apply emits_ret |].
  destruct (truthy (VDict first)); [| apply emits_ret].
  apply emits_bind; [apply emits_py_iter |]. intros found.
  apply emits_bind; [apply emits_for_each, emits_process_node |]. intros _.
  apply emits_bind; [apply emits_py_iter |]. intros rels.
  apply emits_for_each, emits_process_rel.
Qed.

Lemma emits_merge_lookup (P : event -> Prop) lookup_query names :
  quiet P -> emits trace_of_X P (merge_lookup lookup_query names).
Proof.
  intros [Hq _]. unfold merge_lookup.
  apply emits_bind; [apply emits_lift, emits_execute_query, Hq |].
  intros rows. apply emits_merge_rows.
Qed.

Lemma emits_extract_body (P : event -> Prop) results :
  quiet P -> emits trace_of_X P (extract_body results).
Proof.
  intros HP. unfold extract_body.
  destruct (_ && _); [| apply emits_ret].
  apply emits_bind; [apply emits_merge_lookup, HP |]. intros _.
  apply emits_bind; [apply emits_get_nodes_dict |]. intros nd.
  destruct nd; [apply emits_merge_lookup, HP | apply emits_ret].
Qed.

Lemma emits_extract_graph (P : event -> Prop) results cypher :
  quiet P -> emits trace_of_M P (_extract_graph_from_results results cypher).
Proof.
  intros HP t.
  assert (H : emits trace_of_X P
                (try_except (extract_body results) (fun _ => ret tt))).
  { apply emits_try_except; [apply emits_extract_body, HP |].
    intros; apply emits_ret. }
  destruct (H (t, {| nodes_dict := []; relationships_list := [] |}))
    as [evs [E F]].
  exists evs. split; [| exact F].
  unfold _extract_graph_from_results.
  destruct (try_except _ _ _) as [r [t' l]]. exact E.
Qed.

Lemma emits_schema_samples (P : event -> Prop) samples :
  forall schema, emits trace_of_M P (schema_samples schema samples).
Proof.
  induction samples as [| sample rest IH]; intros schema; simpl.
  - apply emits_ret.
  - apply emits_bind; [| intros; apply IH].
    unfold schema_sample_line. repeat emits_step.
Qed.

Lemma emits_get_graph_schema (P : event -> Prop) :
  quiet P -> emits trace_of_M P get_graph_schema.
Proof.
  intros [Hq _]. unfold get_graph_schema.
  apply emits_bind; [apply emits_execute_query, Hq |].
  intros; apply emits_schema_samples.
Qed.

Lemma emits_text_to_cypher question :
  emits trace_of_M no_judge (text_to_cypher question).
Proof.
  unfold text_to_cypher.
  apply emits_bind; [apply emits_get_graph_schema, quiet_no_judge |].
  intros schema. apply emits_try_except; [| intros; apply emits_ret].
  apply emits_bind; [apply emits_chat; reflexivity | intros; apply emits_ret].
Qed.

Lemma emits_execute_text_to_cypher question :
  emits trace_of_M no_judge (execute_text_to_cypher question).
Proof.
  unfold execute_text_to_cypher.
  apply emits_bind; [apply emits_now; exact I |]. intros start.
  apply emits_bind; [apply emits_text_to_cypher |]. intros [cypher | error].
  - apply emits_try_except.
    + apply emits_bind; [apply emits_execute_query; intros; exact I |].
      intros results.
      apply emits_bind; [apply emits_extract_graph, quiet_no_judge |].
      intros g. apply emits_bind; [apply emits_now; exact I |].
      intros; apply emits_ret.
    + intros e. apply emits_bind; [apply emits_now; exact I |].
      intros; apply emits_ret.
  - apply emits_bind; [apply emits_now; exact I | intros; apply emits_ret].
Qed.

Lemma emits_kg_query_with_explanation question :
  emits trace_of_M no_judge (kg_query_with_explanation question).
Proof.
  unfold kg_query_with_explanation.
  apply emits_bind; [apply emits_now; exact I |]. intros start.
  apply emits_bind; [apply emits_execute_text_to_cypher |].
  intros [error tm | cypher results n g tm | cypher tm error].
  - apply emits_bind; [apply emits_now; exact I | intros; apply emits_ret].
  - apply emits_bind.
    + apply emits_try_except; [apply emits_chat; reflexivity |].
      intros; apply emits_ret.
    + intros answer.
      apply emits_bind; [apply emits_now; exact I | intros; apply emits_ret].
  - apply emits_bind; [apply emits_now; exact I | intros; apply emits_ret].
Qed.

Lemma emits_query question use_vector_search :
  emits trace_of_M no_judge (query question use_vector_search).
Proof.
  unfold query.
  apply emits_bind; [apply emits_now; exact I |]. intros start.
  apply emits_bind.
  - apply (emits_retrieve no_judge question use_vector_search quiet_no_judge).
  - intros context. destruct (String.eqb context EmptyString).
    + apply emits_bind; [apply emits_now; exact I | intros; apply emits_ret].
    + apply emits_bind; [apply emits_chat; reflexivity |]. intros answer.
      apply emits_bind; [apply emits_now; exact I | intros; apply emits_ret].
Qed.

(** ** The Judge's short-circuit *)

(** C1.  When the RAG branch has returned and the KG branch has returned a
    result whose [success] is false, [compare_with_judge] returns the
    winner ["RAG"], the reason ["Knowledge Graph query failed"] and no
    judgment, with both results attached; the trace is the one the KG
    branch left, and it holds as many requests to the Judge as before the
    comparison started. *)
Theorem compare_with_judge_kg_failed
    (question : string) (t t1 t2 : trace) (rag : rag_result)
    (error answer : string) (time : Q) :
  query question false t = (inr rag, t1) ->
  kg_query_with_explanation question t1
  = (inr (KgFailed error answer time), t2) ->
  compare_with_judge question t
  = (inr {| cmp_question := question;
            cmp_winner := VStr "RAG";
            cmp_reason := Some "Knowledge Graph query failed";
            cmp_confidence := None;
            cmp_judgment := None;
            cmp_rag_result := rag;
            cmp_kg_result := KgFailed error answer time |}, t2)
  /\ judge_calls t2 = judge_calls t.
Proof.
  intros Hrag Hkg. split.
  - unfold compare_with_judge, bind. rewrite Hrag, Hkg. reflexivity.
  - destruct (emits_query question false t) as [evs1 [E1 F1]].
    destruct (emits_kg_query_with_explanation question t1) as [evs2 [E2 F2]].
    rewrite Hrag in E1. rewrite Hkg in E2.
    unfold trace_of_M in *. simpl in E1, E2. subst t1 t2.
    rewrite !judge_calls_no_judge by assumption. reflexivity.
Qed.

(** ** Translation and execution *)



(** C10.  When the generated query has run and the completion call for the
    explanation raises, [kg_query_with_explanation] still returns a
    successful result: the answer is the fallback text with the result
    count and the exception's message, and the query, the rows, the count
    and the graph are those of the execution step. *)
Theorem kg_explanation_failure_fallback
    (question : string) (t t1 : trace) (cypher : string)
    (results : list record) (result_count : nat) (graph : graph_data)
    (time : Q) (e : exn) :
  execute_text_to_cypher question (EvTime :: t)
  = (inr (ExecOk cypher results result_count graph time), t1) ->
  chat_completions_create W t1
    (explanation_request question cypher (format_kg_results results))
  = inl e ->
  exists t2 time',
    kg_query_with_explanation question t
    = (inr (KgOk cypher results result_count (format_kg_results results)
              ("Found " ++ PyStr.of_nat result_count
               ++ " results, but failed to generate explanation: "
               ++ exn_str e)
              graph time'), t2)
    /\ kg_success (KgOk cypher results result_count
                     (format_kg_results results)
                     ("Found " ++ PyStr.of_nat result_count
                      ++ " results, but failed to generate explanation: "
                      ++ exn_str e)
                     graph time') = true.
Proof.
  intros Hexec Hchat.
  eexists _, _. split; [| reflexivity].
  unfold kg_query_with_explanation, bind, now, try_except, chat.
  rewrite Hexec. rewrite Hchat. reflexivity.
Qed.

(** ** The subgraph extractor *)

(** *** Equality of keys *)

Lemma key_eqb_spec (a b : value) :
  key_eqb a b = true <->
  (a = VNone /\ b = VNone)
  \/ (exists s, a = VStr s /\ b = VStr s)
  \/ (exists x y, num_of a = Some x /\ num_of b = Some y /\ Qeq x y).
Proof.
  split.
  - intros H.
    destruct a, b; simpl in H; try discriminate;
      try (left; split; reflexivity);
      try (right; left; apply String.eqb_eq in H; subst; eexists; split; reflexivity);
      right; right; simpl; eexists _, _;
      (split; [reflexivity | split; [reflexivity | apply Qeq_bool_iff; exact H]]).
  - intros [[-> ->] | [[s [-> ->]] | [x [y [Ha [Hb Hxy]]]]]].
    + reflexivity.
    + simpl. apply String.eqb_refl.
    + apply Qeq_bool_iff in Hxy.
      destruct a, b; simpl in *; try discriminate;
        inversion Ha; inversion Hb; subst; exact Hxy.
Qed.

Lemma key_eqb_refl (a : value) : hashable a = true -> key_eqb a a = true.
Proof.
  intros H. destruct a; simpl in *; try discriminate;
    try reflexivity; try apply String.eqb_refl;
    apply Qeq_bool_iff; reflexivity.
Qed.

Lemma key_eqb_sym (a b : value) : key_eqb a b = true -> key_eqb b a = true.
Proof.
  rewrite !key_eqb_spec.
  intros [[-> ->] | [[s [-> ->]] | [x [y [Ha [Hb Hxy]]]]]].
  - left; auto.
  - right; left; eauto.
  - right; right. exists y, x. repeat split; auto. symmetry; exact Hxy.
Qed.

Lemma key_eqb_trans (a b c : value) :
  key_eqb a b = true -> key_eqb b c = true -> key_eqb a c = true.
Proof.
  rewrite !key_eqb_spec.
  intros [[-> ->] | [[s [-> ->]] | [x [y [Ha [Hb Hxy]]]]]]
         [[Hb' ->] | [[s' [Hb' ->]] | [y' [z [Hb' [Hc Hyz]]]]]];
    try discriminate; try (subst; simpl in *; discriminate).
  - left; auto.
  - inversion Hb'; subst. right; left; eauto.
  - right; right. rewrite Hb in Hb'. inversion Hb'; subst.
    exists x, z. repeat split; auto. etransitivity; eauto.
Qed.

(** *** [nodes_dict] *)

Lemma nd_mem_exists (key : value) (nd : nodes_dict_t) :
  nd_mem key nd = true -> exists kn, In kn nd /\ key_eqb key (fst kn) = true.
Proof.
  induction nd as [| [k n] nd IH]; simpl; [discriminate |].
  intros H. apply orb_true_iff in H. destruct H as [H | H].
  - exists (k, n). auto.
  - destruct (IH H) as [kn [Hin Hk]]. exists kn. auto.
Qed.

Lemma nd_mem_set (x key node : value) (nd : nodes_dict_t) :
  nd_mem x nd = true -> nd_mem x (nd_set key node nd) = true.
Proof.
  induction nd as [| [k n] nd IH]; simpl; [discriminate |].
  intros H. destruct (key_eqb key k); simpl.
  - exact H.
  - apply orb_true_iff in H. apply orb_true_iff.
    destruct H as [H | H]; auto.
Qed.

Lemma keyed_set (key node : value) (nd : nodes_dict_t) :
  hashable key = true -> node_id node = Some key ->
  keyed nd -> keyed (nd_set key node nd).
Proof.
  intros Hh Hid. unfold keyed.
  induction nd as [| [k n] nd IH]; simpl; intros Hk.
  - constructor; [| constructor].
    exists key. split; [exact Hid | apply key_eqb_refl, Hh].
  - inversion Hk as [| ? ? Hhead Htail]; subst.
    destruct (key_eqb key k) eqn:E.
    + constructor; [| exact Htail]. exists key. auto.
    + constructor; auto.
Qed.

Lemma rels_closed_set (key node : value) (nd : nodes_dict_t) (rels : list value) :
  rels_closed nd rels -> rels_closed (nd_set key node nd) rels.
Proof.
  unfold rels_closed. intros H.
  eapply Forall_impl; [| exact H].
  intros rel [s [tg [Hs [Ht [Ms Mt]]]]].
  exists s, tg. repeat split; auto using nd_mem_set.
Qed.

(** *** Every step keeps the invariant *)

Section Preserves.

Variable I : locals -> Prop.

Lemma preserves_ret {A} (a : A) : preserves I (ret a).
Proof. intros s H; exact H. Qed.

Lemma preserves_raise {A} (e : exn) : preserves I (@raise _ A e).
Proof. intros s H; exact H. Qed.

Lemma preserves_bind {A B} (m : X A) (f : A -> X B) :
  preserves I m -> (forall a, preserves I (f a)) -> preserves I (bind m f).
Proof.
  intros Hm Hf s H. unfold bind.
  specialize (Hm s H). destruct (m s) as [[e | a] s1]; simpl in *.
  - exact Hm.
  - apply Hf, Hm.
Qed.

Lemma preserves_try_except {A} (m : X A) (h : exn -> X A) :
  preserves I m -> (forall e, preserves I (h e)) ->
  preserves I (try_except m h).
Proof.
  intros Hm Hh s H. unfold try_except.
  specialize (Hm s H). destruct (m s) as [[e | a] s1]; simpl in *.
  - apply Hh, Hm.
  - exact Hm.
Qed.

Lemma preserves_for_each {Y} (body : Y -> X unit) (ys : list Y) :
  (forall y, preserves I (body y)) -> preserves I (for_each body ys).
Proof.
  intros Hb. induction ys as [| y ys IH]; simpl.
  - apply preserves_ret.
  - apply preserves_bind; auto.
Qed.

Lemma preserves_lift {A} (m : M A) : preserves I (lift m).
Proof.
  intros [t l] H. unfold lift. simpl. destruct (m t). exact H.
Qed.

Lemma preserves_py_iter v : preserves I (py_iter v).
Proof. destruct v; simpl; first [apply preserves_ret | apply preserves_raise]. Qed.

End Preserves.

Lemma preserves_process_node node : preserves locals_ok (process_node node).
Proof.
  unfold process_node.
  destruct (truthy node); [| apply preserves_ret].
  destruct node as [| | | | | | d]; try apply preserves_raise.
  destruct (dict_find "id" d) as [ident |] eqn:Hid; [| apply preserves_ret].
  assert (Hstore : preserves locals_ok (store_node ident (VDict d))).
  { unfold store_node. destruct (hashable ident) eqn:Hh; [| apply preserves_raise].
    intros [t l] [Hk Hr]. simpl in *. split; simpl.
    - apply keyed_set; auto.
    - apply rels_closed_set, Hr. }
  destruct ident; first [apply preserves_ret | exact Hstore].
Qed.

Lemma preserves_process_rel rel : preserves locals_ok (process_rel rel).
Proof.
  unfold process_rel.
  destruct (truthy rel); [| apply preserves_ret].
  destruct rel as [| | | | | | d]; try apply preserves_raise.
  destruct (dict_find "source" d) as [source |] eqn:Hs; [| apply preserves_ret].
  destruct (dict_find "target" d) as [target |] eqn:Ht;
    [| destruct source; apply preserves_ret].
  assert (Hgo : preserves locals_ok
                  (has_source <- in_nodes_dict source ;;
                   if has_source
                   then has_target <- in_nodes_dict target ;;
                        (if has_target then append_rel (VDict d) else ret tt)
                   else ret tt)).
  { intros [t l] [Hk Hr].
    unfold bind, in_nodes_dict, get_nodes_dict, ret, raise, append_rel.
    simpl.
    destruct (hashable source); simpl; [| split; assumption].
    destruct (nd_mem source (nodes_dict l)) eqn:Ms; simpl; [| split; assumption].
    destruct (hashable target); simpl; [| split; assumption].
    destruct (nd_mem target (nodes_dict l)) eqn:Mt; simpl; [| split; assumption].
    split; simpl; [exact Hk |].
    apply Forall_app. split; [exact Hr |].
    constructor; [| constructor].
    exists source, target. simpl. auto. }
  destruct source; try apply preserves_ret;
    destruct target; try apply preserves_ret; exact Hgo.
Qed.

Lemma preserves_merge_lookup lookup_query names :
  preserves locals_ok (merge_lookup lookup_query names).
Proof.
  unfold merge_lookup, merge_rows.
  apply preserves_bind; [apply preserves_lift |].
  intros rows. destruct rows as [| first rest]; [apply preserves_ret |].
  destruct (truthy (VDict first)); [| apply preserves_ret].
  apply preserves_bind; [apply preserves_py_iter |]. intros found.
  apply preserves_bind; [apply preserves_for_each, preserves_process_node |].
  intros _.
  apply preserves_bind; [apply preserves_py_iter |]. intros rels.
  apply preserves_for_each, preserves_process_rel.
Qed.

Lemma preserves_extract_body results :
  preserves locals_ok (extract_body results).
Proof.
  unfold extract_body.
  destruct (_ && _); [| apply preserves_ret].
  apply preserves_bind; [apply preserves_merge_lookup |]. intros _.
  apply preserves_bind; [intros s H; exact H |]. intros nd.
  destruct nd; [apply preserves_merge_lookup | apply preserves_ret].
Qed.

Lemma locals_ok_closed (l : locals) :
  locals_ok l ->
  snapshot_closed {| nodes := map snd (nodes_dict l);
                     relationships := relationships_list l |} = true.
Proof.
  intros [Hk Hr]. unfold snapshot_closed. simpl.
  apply forallb_forall. intros rel Hin.
  unfold rels_closed in Hr. rewrite Forall_forall in Hr.
  destruct (Hr rel Hin) as [s [tg [Hs [Ht [Ms Mt]]]]].
  unfold rel_closed. rewrite Hs, Ht.
  assert (Hnode : forall x, nd_mem x (nodes_dict l) = true ->
            has_node x {| nodes := map snd (nodes_dict l);
                          relationships := relationships_list l |} = true).
  { intros x Mx. destruct (nd_mem_exists x _ Mx) as [[k n] [Hkn Hxk]].
    unfold keyed in Hk. rewrite Forall_forall in Hk.
    destruct (Hk (k, n) Hkn) as [i [Hi Hik]]. simpl in *.
    unfold has_node. simpl. apply existsb_exists.
    exists n. split; [apply in_map_iff; exists (k, n); auto |].
    rewrite Hi. apply key_eqb_trans with k; [exact Hxk |].
    apply key_eqb_sym, Hik. }
  rewrite (Hnode s Ms), (Hnode tg Mt). reflexivity.
Qed.

(** C2.  For every query result, every generated query text and every
    behaviour of the graph service, [_extract_graph_from_results] returns
    (it never raises), and in the snapshot it returns the source and the
    target of every relationship are identifiers of nodes of the snapshot:
    a relationship with a dangling end is not kept. *)
Theorem extract_graph_snapshot_closed
    (results : list record) (cypher : string) (t : trace) :
  exists g t',
    _extract_graph_from_results results cypher t = (inr g, t')
    /\ snapshot_closed g = true.
Proof.
  unfold _extract_graph_from_results.
  pose proof (preserves_try_except locals_ok (extract_body results)
                (fun _ => ret tt) (preserves_extract_body results)
                (fun e => preserves_ret locals_ok tt)
                (t, {| nodes_dict := []; relationships_list := [] |})) as H.
  destruct (try_except _ _ _) as [r [t' l]]. simpl in H.
  eexists _, _. split; [reflexivity |].
  apply locals_ok_closed, H. split; constructor.
Qed.

(** A closed snapshot without nodes has no relationships: when the second
    lookup is reached and fails, the snapshot is the empty one. *)
Lemma closed_without_nodes (g : graph_data) :
  snapshot_closed g = true -> nodes g = [] -> relationships g = [].
Proof.
  unfold snapshot_closed. intros Hc Hn.
  destruct (relationships g) as [| rel rels]; [reflexivity |].
  simpl in Hc. apply andb_true_iff in Hc. destruct Hc as [Hrel _].
  unfold rel_closed, has_node in Hrel. rewrite Hn in Hrel. simpl in Hrel.
  destruct (endpoint "source" rel); [| discriminate].
  destruct (endpoint "target" rel); discriminate.
Qed.

(** *** The ceiling and the cap on candidate names *)

Lemma In_firstn {A} (n : nat) (xs : list A) (x : A) :
  In x (firstn n xs) -> In x xs.
Proof.
  intros H. rewrite <- (firstn_skipn n xs). apply in_or_app. left; exact H.
Qed.

Lemma bind_assoc_at {S A B C} (m : SE S A) (f : A -> SE S B) (g : B -> SE S C)
    (s : S) :
  bind (bind m f) g s = bind m (fun a => bind (f a) g) s.
Proof. unfold bind. destruct (m s) as [[e | a] s1]; reflexivity. Qed.

Lemma run_lift_bind {A B} (m : M A) (k : A -> X B) (t : trace) (l : locals) :
  bind (lift m) k (t, l)
  = match m t with
    | (inl e, t') => (inl e, (t', l))
    | (inr a, t') => k a (t', l)
    end.
Proof. unfold bind, lift. simpl. destruct (m t) as [[e | a] t']; reflexivity. Qed.

Lemma extract_graph_unfold (results : list record) (cypher : string) (t : trace) :
  _extract_graph_from_results results cypher t
  = (inr {| nodes :=
              map snd (nodes_dict
                (snd (snd (try_except (extract_body results) (fun _ => ret tt)
                             (t, {| nodes_dict := []; relationships_list := [] |})))));
            relationships :=
              relationships_list
                (snd (snd (try_except (extract_body results) (fun _ => ret tt)
                             (t, {| nodes_dict := []; relationships_list := [] |})))) |},
     fst (snd (try_except (extract_body results) (fun _ => ret tt)
                 (t, {| nodes_dict := []; relationships_list := [] |})))).
Proof.
  unfold _extract_graph_from_results.
  destruct (try_except _ _ _) as [r [t' l]]. reflexivity.
Qed.

Lemma quiet_True : quiet (fun _ => True).
Proof. repeat split. Qed.

(** C3, as the code has it.  With no candidate name, or with fifty names or
    more, the extractor returns the empty snapshot and sends nothing to the
    graph service.  With one to forty-nine names, the first thing it sends
    is the Researcher lookup, whose [names] parameter is the first twenty
    names of the set in its iteration order: at most twenty names, all of
    them candidates. *)
Theorem extractor_candidate_limits
    (results : list record) (cypher : string) (t : trace) :
  let names := collect_entity_names results in
  let capped := firstn 20 (set_order names) in
  (names = [] \/ 50 <= List.length names ->
   _extract_graph_from_results results cypher t = (inr empty_graph, t))
  /\ (names <> [] -> List.length names < 50 ->
      List.length capped <= 20
      /\ (forall x, In x capped -> In x names)
      /\ exists evs,
           snd (_extract_graph_from_results results cypher t)
           = (evs ++ EvQuery graph_query [("names", VList (map VStr capped))]
                  :: t)%list).
Proof.
  intros names capped. split.
  - intros Hout. rewrite extract_graph_unfold.
    unfold extract_body. fold names.
    assert (Hc : negb (set_is_empty names) && (List.length names <? 50)%nat = false).
    { destruct Hout as [Hnil | Hge]; [rewrite Hnil; reflexivity |].
      apply andb_false_iff. right. apply Nat.ltb_ge. exact Hge. }
    rewrite Hc. reflexivity.
  - intros Hne Hlt. split; [apply firstn_le_length |]. split.
    + intros x Hx. apply In_firstn in Hx.
      eapply Permutation_in; [apply set_order_perm | exact Hx].
    + rewrite extract_graph_unfold. simpl snd.
      unfold extract_body. fold names. fold capped.
      assert (Hc : negb (set_is_empty names) && (List.length names <? 50)%nat = true).
      { apply andb_true_iff. split.
        - destruct names; [contradiction | reflexivity].
        - apply Nat.ltb_lt. exact Hlt. }
      rewrite Hc.
      set (rest := fun _ : unit =>
                     nd <- get_nodes_dict ;;
                     match nd with
                     | [] => merge_lookup article_query capped
                     | _ :: _ => ret tt
                     end).
      set (p := [("names", VList (map VStr capped))]).
      set (l0 := {| nodes_dict := []; relationships_list := [] |}).
      assert (Hrest : forall rows,
                 emits trace_of_X (fun _ => True)
                   (try_except (bind (merge_rows rows) rest)
                      (fun _ => ret tt))).
      { intros rows. apply emits_try_except; [| intros; apply emits_ret].
        apply emits_bind; [apply emits_merge_rows |]. intros u.
        unfold rest. apply emits_bind; [apply emits_get_nodes_dict |].
        intros nd. destruct nd; [| apply emits_ret].
        apply emits_merge_lookup, quiet_True. }
      unfold try_except at 1. unfold merge_lookup.
      rewrite bind_assoc_at, run_lift_bind. unfold execute_query. fold p.
      destruct (session_run W t graph_query p) as [e | rows].
      * exists []. reflexivity.
      * destruct (Hrest rows (EvQuery graph_query p :: t, l0)) as [evs [E _]].
        exists evs. exact E.
Qed.

(** A failure of the first lookup itself leaves both locals empty: the
    snapshot is the empty one. *)
Lemma extract_first_lookup_raises
    (results : list record) (cypher : string) (t : trace) (e : exn) :
  let names := collect_entity_names results in
  let p := [("names", VList (map VStr (firstn 20 (set_order names))))] in
  names <> [] -> List.length names < 50 ->
  session_run W t graph_query p = inl e ->
  _extract_graph_from_results results cypher t
  = (inr empty_graph, EvQuery graph_query p :: t).
Proof.
  intros names p Hne Hlt Hrun.
  rewrite extract_graph_unfold. unfold extract_body. fold names.
  assert (Hc : negb (set_is_empty names) && (List.length names <? 50)%nat = true).
  { apply andb_true_iff. split.
    - destruct names; [contradiction | reflexivity].
    - apply Nat.ltb_lt. exact Hlt. }
  rewrite Hc. unfold try_except, merge_lookup.
  rewrite bind_assoc_at, run_lift_bind. unfold execute_query. fold p.
  rewrite Hrun. reflexivity.
Qed.

(** ** Batch aggregation *)










(** ** Sources *)

Lemma prefix_colon (c : ascii) (s : string) :
  String.prefix ":" (String c s) = Ascii.eqb ":"%char c.
Proof.
  change (String.prefix ":" (String c s))
    with (if ascii_dec ":"%char c then String.prefix EmptyString s else false).
  destruct (ascii_dec ":"%char c) as [<- | H].
  - destruct s; reflexivity.
  - symmetry. apply Ascii.eqb_neq. exact H.
Qed.

Lemma contains_colon_cons (c : ascii) (s : string) :
  PyStr.contains ":" (String c s)
  = Ascii.eqb ":"%char c || PyStr.contains ":" s.
Proof.
  change (PyStr.contains ":" (String c s))
    with (String.prefix ":" (String c s) || PyStr.contains ":" s).
  rewrite prefix_colon. reflexivity.
Qed.

Lemma uint_no_colon (u : Decimal.uint) :
  PyStr.contains ":" (NilEmpty.string_of_uint u) = false.
Proof.
  induction u; simpl NilEmpty.string_of_uint;
    [reflexivity | rewrite contains_colon_cons, IHu; reflexivity ..].
Qed.

Lemma of_Z_no_colon (z : Z) : PyStr.contains ":" (PyStr.of_Z z) = false.
Proof.
  unfold PyStr.of_Z, NilZero.string_of_int.
  destruct (Z.to_int z) as [u | u]; unfold NilZero.string_of_uint.
  - destruct u; try reflexivity; apply uint_no_colon.
  - rewrite contains_colon_cons. simpl orb.
    destruct u; try reflexivity; apply uint_no_colon.
Qed.

Lemma contains_colon_app (a b : string) :
  PyStr.contains ":" (a ++ b)
  = PyStr.contains ":" a || PyStr.contains ":" b.
Proof.
  induction a as [| c a IH].
  - simpl. destruct b; reflexivity.
  - change (String c a ++ b) with (String c (a ++ b)).
    rewrite !contains_colon_cons, IH. apply orb_assoc.
Qed.

Lemma str_append_assoc (a b c : string) : (a ++ b) ++ c = a ++ b ++ c.
Proof. induction a as [| x a IH]; simpl; [reflexivity | rewrite IH; reflexivity]. Qed.

Lemma split_go_no_split (sep s : string) :
  PyStr.split_go sep 0 0 s = (s, []).
Proof. destruct s; reflexivity. Qed.

Lemma split_go_step (sep : string) (m : nat) (c : ascii) (s : string) :
  PyStr.split_go sep (Datatypes.S m) 0 (String c s)
  = if String.prefix sep (String c s)
    then let (p, ps) := PyStr.split_go sep m (String.length sep - 1) s in
         (EmptyString, p :: ps)
    else let (p, ps) := PyStr.split_go sep (Datatypes.S m) 0 s in
         (String c p, ps).
Proof. reflexivity. Qed.

Lemma split_first_colon (pre rest : string) :
  PyStr.contains ":" pre = false ->
  PyStr.split_max ":" 1 (pre ++ ":" ++ rest) = [pre; rest].
Proof.
  unfold PyStr.split_max. intros H.
  induction pre as [| c pre IH].
  - change (EmptyString ++ ":" ++ rest) with (String ":"%char rest).
    rewrite split_go_step, prefix_colon.
    change (String.length ":" - 1) with 0.
    rewrite split_go_no_split. reflexivity.
  - rewrite contains_colon_cons in H. apply orb_false_iff in H.
    destruct H as [Hc Hpre].
    change (String c pre ++ ":" ++ rest) with (String c (pre ++ ":" ++ rest)).
    rewrite split_go_step, prefix_colon, Hc.
    specialize (IH Hpre).
    destruct (PyStr.split_go ":" 1 0 (pre ++ ":" ++ rest)) as [p ps].
    inversion IH. reflexivity.
Qed.

(** The header line of a keyword block gives the title, stripped. *)
Lemma keyword_header_source (i : nat) (title : string) :
  source_of_line ("Article " ++ PyStr.of_nat i ++ ": " ++ title)
  = [PyStr.strip title].
Proof.
  unfold source_of_line.
  assert (Hpre : PyStr.contains ":" ("Article " ++ PyStr.of_nat i) = false).
  { rewrite contains_colon_app. unfold PyStr.of_nat.
    rewrite of_Z_no_colon. reflexivity. }
  assert (E : "Article " ++ PyStr.of_nat i ++ ": " ++ title
              = ("Article " ++ PyStr.of_nat i) ++ ":" ++ (" " ++ title)).
  { rewrite !str_append_assoc. reflexivity. }
  assert (Hs : PyStr.startswith "Article"
                 ("Article " ++ PyStr.of_nat i ++ ": " ++ title) = true)
    by reflexivity.
  rewrite Hs, E.
  rewrite contains_colon_app, split_first_colon by exact Hpre.
  rewrite (contains_colon_app ":"). simpl. rewrite orb_true_r. reflexivity.
Qed.

(** The header line of a vector block gives the tail of the similarity. *)
Lemma vector_header_source (i : nat) (similarity : string) :
  source_of_line
    ("Article " ++ PyStr.of_nat i ++ " (Similarity: " ++ similarity ++ "):")
  = [PyStr.strip (similarity ++ "):")].
Proof.
  unfold source_of_line.
  assert (Hpre : PyStr.contains ":"
                   ("Article " ++ PyStr.of_nat i ++ " (Similarity") = false).
  { rewrite !contains_colon_app. unfold PyStr.of_nat.
    rewrite of_Z_no_colon. reflexivity. }
  assert (E : "Article " ++ PyStr.of_nat i ++ " (Similarity: " ++ similarity ++ "):"
              = ("Article " ++ PyStr.of_nat i ++ " (Similarity")
                  ++ ":" ++ (" " ++ similarity ++ "):")).
  { rewrite !str_append_assoc. reflexivity. }
  assert (Hs : PyStr.startswith "Article"
                 ("Article " ++ PyStr.of_nat i ++ " (Similarity: "
                  ++ similarity ++ "):") = true)
    by reflexivity.
  rewrite Hs, E.
  rewrite contains_colon_app, split_first_colon by exact Hpre.
  rewrite (contains_colon_app ":"). simpl. rewrite orb_true_r. reflexivity.
Qed.

(** The title line of a vector block gives no source. *)
Lemma vector_title_line_source (title : string) :
  source_of_line ("Title: " ++ title) = [].
Proof. reflexivity. Qed.

(** With no row, the keyword context is empty. *)
Lemma retrieve_context_no_match (question : string) (limit : Z) (t : trace) :
  session_run W t keyword_cypher_query
    [ ("keywords", VList (map VStr (PyStr.split_ws (PyStr.lower question))));
      ("limit", VInt limit) ] = inr [] ->
  fst (retrieve_context question limit t) = inr EmptyString.
Proof.
  intros H. unfold retrieve_context, bind, execute_query. rewrite H.
  reflexivity.
Qed.

(** * Further properties of the code *)

(** ** Entity names *)

Lemma set_mem_In (s : string) (xs : list string) :
  set_mem s xs = true <-> In s xs.
Proof.
  induction xs as [| x xs IH]; simpl.
  - split; [discriminate | contradiction].
  - rewrite orb_true_iff, IH, String.eqb_eq. split; intros [H | H]; auto.
Qed.

Lemma set_add_In (xs : list string) (s x : string) :
  In x (set_add xs s) <-> In x xs \/ x = s.
Proof.
  unfold set_add. destruct (set_mem s xs) eqn:E.
  - apply set_mem_In in E. split; [auto |]. intros [H | ->]; auto.
  - rewrite in_app_iff. simpl. split; intros [H | H]; auto.
    + destruct H as [<- | []]. auto.
Qed.

Lemma set_add_NoDup (xs : list string) (s : string) :
  NoDup xs -> NoDup (set_add xs s).
Proof.
  intros H. unfold set_add. destruct (set_mem s xs) eqn:E; [exact H |].
  assert (Hn : ~ In s xs).
  { intros Hin. apply set_mem_In in Hin. congruence. }
  clear E. induction H as [| y ys Hy Hys IH]; simpl.
  - constructor; [intros [] | constructor].
  - constructor.
    + rewrite in_app_iff. simpl. intros [Hin | [-> | []]]; [auto |].
      apply Hn. left; reflexivity.
    + apply IH. intros Hin. apply Hn. right; exact Hin.
Qed.

Lemma fold_left_In {B} (f : list string -> B -> list string)
    (Q : B -> string -> Prop) :
  (forall acc b x, In x (f acc b) <-> In x acc \/ Q b x) ->
  forall l acc x,
    In x (fold_left f l acc) <-> In x acc \/ exists b, In b l /\ Q b x.
Proof.
  intros Hf. induction l as [| b l IH]; intros acc x; simpl.
  - split; [auto |]. intros [H | [b [[] _]]]. exact H.
  - rewrite IH, Hf. split.
    + intros [[H | H] | [b' [Hin HQ]]]; eauto.
    + intros [H | [b' [[<- | Hin] HQ]]]; eauto.
Qed.

Lemma fold_left_NoDup {B} (f : list string -> B -> list string) :
  (forall acc b, NoDup acc -> NoDup (f acc b)) ->
  forall l acc, NoDup acc -> NoDup (fold_left f l acc).
Proof.
  intros Hf. induction l as [| b l IH]; intros acc H; simpl; auto.
Qed.

Lemma add_name_In (names : list string) (item : value) (x : string) :
  In x (add_name names item)
  <-> In x names \/ (x <> EmptyString /\ item = VStr x).
Proof.
  unfold add_name. destruct item as [| | | | s | |];
    try (split; [auto | intros [H | [_ H]]; [exact H | discriminate H]]).
  simpl. destruct (String.eqb_spec s EmptyString) as [-> | Hs]; simpl.
  - split; [auto |]. intros [H | [Hx H]]; [exact H |].
    inversion H. subst. contradiction.
  - rewrite set_add_In. split.
    + intros [H | ->]; auto.
    + intros [H | [_ H]]; [auto |]. inversion H. auto.
Qed.

Lemma add_name_NoDup (names : list string) (item : value) :
  NoDup names -> NoDup (add_name names item).
Proof.
  intros H. unfold add_name. destruct item; try exact H.
  destruct (truthy (VStr s)); [apply set_add_NoDup, H | exact H].
Qed.

Lemma collect_value_In (names : list string) (v : value) (x : string) :
  In x (collect_value names v)
  <-> In x names \/ (x <> EmptyString /\ offers v x).
Proof.
  unfold collect_value, offers. destruct v as [| | | | s | items |].
  1-4, 7: split; [auto |];
    intros [H | [_ [H | [items [H _]]]]]; [exact H | discriminate | discriminate].
  - rewrite add_name_In. split.
    + intros [H | [Hx H]]; auto.
    + intros [H | [Hx [H | [items [H _]]]]]; [auto | auto | discriminate].
  - rewrite (fold_left_In add_name
               (fun item x => x <> EmptyString /\ item = VStr x) add_name_In).
    split.
    + intros [H | [b [Hin [Hx ->]]]]; [auto |]. right. split; [exact Hx |].
      right. exists items. auto.
    + intros [H | [Hx [H | [items' [H Hin]]]]]; [auto | discriminate |].
      inversion H. subst items'. right. exists (VStr x). auto.
Qed.

Lemma collect_value_NoDup (names : list string) (v : value) :
  NoDup names -> NoDup (collect_value names v).
Proof.
  intros H. unfold collect_value. destruct v; try exact H.
  - apply add_name_NoDup, H.
  - apply fold_left_NoDup; [apply add_name_NoDup | exact H].
Qed.

(** X1.  The candidate names collected from a query result are exactly the
    non-empty strings found as a value, or as an element of a list value,
    of some row; the collection holds each of them once. *)
Theorem collect_entity_names_spec (results : list record) :
  NoDup (collect_entity_names results)
  /\ forall x,
       In x (collect_entity_names results)
       <-> x <> EmptyString
           /\ exists row k v,
                In row results /\ In (k, v) row /\ offers v x.
Proof.
  split.
  - unfold collect_entity_names.
    apply fold_left_NoDup; [| constructor].
    intros acc row H. unfold collect_row.
    apply fold_left_NoDup; [| exact H].
    intros acc' kv H'. apply collect_value_NoDup, H'.
  - intros x. unfold collect_entity_names.
    rewrite (fold_left_In collect_row
               (fun row x => x <> EmptyString
                             /\ exists k v, In (k, v) row /\ offers v x)).
    + simpl. split.
      * intros [[] | [row [Hin [Hx [k [v [Hkv Ho]]]]]]]. eauto 8.
      * intros [Hx [row [k [v [Hin [Hkv Ho]]]]]]. right. eauto 8.
    + intros acc row y. unfold collect_row.
      rewrite (fold_left_In (fun ns kv => collect_value ns (snd kv))
                 (fun kv x => x <> EmptyString /\ offers (snd kv) x)).
      * split.
        -- intros [H | [[k v] [Hin [Hx Ho]]]]; [auto |]. right. eauto.
        -- intros [H | [Hx [k [v [Hin Ho]]]]]; [auto |].
           right. exists (k, v). auto.
      * intros acc' kv z. apply collect_value_In.
Qed.

(** ** The extractor's queries *)

Lemma Forall_False_nil {A} (xs : list A) : Forall (fun _ => False) xs -> xs = [].
Proof. intros H. destruct xs; [reflexivity | inversion H; contradiction]. Qed.

(** A computation that adds nothing to the trace. *)
Lemma silent_trace {S A} (proj : S -> trace) (m : SE S A) (s : S) :
  emits proj (fun _ => False) m -> proj (snd (m s)) = proj s.
Proof.
  intros H. destruct (H s) as [evs [E F]].
  apply Forall_False_nil in F. subst evs. exact E.
Qed.

Lemma merge_lookup_trace (lookup_query : string) (names : list string)
    (s : trace * locals) :
  fst (snd (merge_lookup lookup_query names s))
  = EvQuery lookup_query [("names", VList (map VStr names))] :: fst s.
Proof.
  destruct s as [t l]. unfold merge_lookup.
  rewrite run_lift_bind. unfold execute_query.
  destruct (session_run W t lookup_query _) as [e | rows]; [reflexivity |].
  apply (silent_trace trace_of_X (merge_rows rows)).
  apply emits_merge_rows.
Qed.

(** X2.  The extractor sends at most two queries, and nothing else: with
    no candidate name or with fifty or more it sends nothing; otherwise it
    sends the Researcher lookup and, at most, the Article lookup after it,
    both with the same parameter of at most twenty names. *)
Theorem extractor_sends_at_most_two_lookups
    (results : list record) (cypher : string) (t : trace) :
  let names := collect_entity_names results in
  let p := [("names", VList (map VStr (firstn 20 (set_order names))))] in
  List.length (firstn 20 (set_order names)) <= 20
  /\ (snd (_extract_graph_from_results results cypher t) = t
      \/ snd (_extract_graph_from_results results cypher t)
         = EvQuery graph_query p :: t
      \/ snd (_extract_graph_from_results results cypher t)
         = EvQuery article_query p :: EvQuery graph_query p :: t)
  /\ (snd (_extract_graph_from_results results cypher t) = t
      <-> names = [] \/ 50 <= List.length names).
Proof.
  intros names p. split; [apply firstn_le_length |].
  rewrite extract_graph_unfold. simpl snd.
  unfold extract_body. fold names.
  destruct (negb (set_is_empty names) && (List.length names <? 50)%nat) eqn:Hc.
  - assert (Hrun :
      fst (snd (try_except
                  (merge_lookup graph_query (firstn 20 (set_order names)) ;;;
                   nd <- get_nodes_dict ;;
                   match nd with
                   | [] => merge_lookup article_query
                             (firstn 20 (set_order names))
                   | _ :: _ => ret tt
                   end)
                  (fun _ => ret tt)
                  (t, {| nodes_dict := []; relationships_list := [] |})))
      = EvQuery graph_query p :: t
      \/ fst (snd (try_except
                  (merge_lookup graph_query (firstn 20 (set_order names)) ;;;
                   nd <- get_nodes_dict ;;
                   match nd with
                   | [] => merge_lookup article_query
                             (firstn 20 (set_order names))
                   | _ :: _ => ret tt
                   end)
                  (fun _ => ret tt)
                  (t, {| nodes_dict := []; relationships_list := [] |})))
         = EvQuery article_query p :: EvQuery graph_query p :: t).
    { unfold try_except, bind.
      pose proof (merge_lookup_trace graph_query
                    (firstn 20 (set_order names))
                    (t, {| nodes_dict := []; relationships_list := [] |}))
        as H1.
      destruct (merge_lookup graph_query _ _) as [[e | u] s1].
      - left. exact H1.
      - unfold get_nodes_dict. simpl.
        destruct (nodes_dict (snd s1)).
        + right.
          pose proof (merge_lookup_trace article_query
                        (firstn 20 (set_order names)) s1) as H2.
          simpl in H1. rewrite H1 in H2. fold p in H2.
          destruct (merge_lookup article_query _ s1) as [[e | u'] s2];
            exact H2.
        + left. exact H1. }
    split; [right; exact Hrun |].
    split.
    + intros H. exfalso.
      destruct Hrun as [Hr | Hr]; rewrite H in Hr;
        apply (f_equal (@List.length event)) in Hr; simpl in Hr; lia.
    + intros H. exfalso.
      apply andb_true_iff in Hc. destruct Hc as [Hne Hlt].
      apply Nat.ltb_lt in Hlt.
      destruct H as [H | H]; [rewrite H in Hne; discriminate | lia].
  - split; [left; reflexivity |].
    split; [| reflexivity].
    intros _. apply andb_false_iff in Hc. destruct Hc as [Hc | Hc].
    + left. destruct names; [reflexivity | discriminate].
    + right. apply Nat.ltb_ge. exact Hc.
Qed.

(** ** Node identifiers *)

Lemma key_eqb_comm (a b : value) : key_eqb a b = key_eqb b a.
Proof.
  destruct (key_eqb a b) eqn:E1; destruct (key_eqb b a) eqn:E2;
    try reflexivity.
  - apply key_eqb_sym in E1. congruence.
  - apply key_eqb_sym in E2. congruence.
Qed.

Lemma nd_mem_set_other (k key node : value) (nd : nodes_dict_t) :
  key_eqb key k = false ->
  nd_mem k (nd_set key node nd) = nd_mem k nd.
Proof.
  intros Hk. induction nd as [| [k1 n1] nd IH]; simpl.
  - rewrite key_eqb_comm, Hk. reflexivity.
  - destruct (key_eqb key k1); simpl; [reflexivity |].
    rewrite IH. reflexivity.
Qed.

Lemma nd_distinct_set (key node : value) (nd : nodes_dict_t) :
  nd_distinct nd -> nd_distinct (nd_set key node nd).
Proof.
  induction nd as [| [k n] nd IH]; simpl.
  - auto.
  - intros [Hk Hd]. destruct (key_eqb key k) eqn:E; simpl.
    + auto.
    + split; [| apply IH, Hd]. rewrite nd_mem_set_other; assumption.
Qed.

Lemma nd_entries_set (key node : value) (nd : nodes_dict_t) :
  hashable key = true -> node_id node = Some key -> is_none key = false ->
  nd_entries nd -> nd_entries (nd_set key node nd).
Proof.
  intros Hh Hid Hn. unfold nd_entries.
  induction nd as [| [k n] nd IH]; simpl; intros H.
  - constructor; [| constructor].
    exists key. auto using key_eqb_refl.
  - inversion H as [| ? ? Hhead Htail]; subst.
    destruct (key_eqb key k) eqn:E.
    + constructor; [| exact Htail]. exists key. auto.
    + constructor; auto.
Qed.

Lemma nodes_ok_process_node node : preserves nodes_ok (process_node node).
Proof.
  unfold process_node.
  destruct (truthy node); [| apply preserves_ret].
  destruct node as [| | | | | | d]; try apply preserves_raise.
  destruct (dict_find "id" d) as [ident |] eqn:Hid; [| apply preserves_ret].
  assert (Hstore : is_none ident = false ->
                   preserves nodes_ok (store_node ident (VDict d))).
  { intros Hn. unfold store_node.
    destruct (hashable ident) eqn:Hh; [| apply preserves_raise].
    intros [t l] [Hd He]. simpl in *. split; simpl.
    - apply nd_distinct_set, Hd.
    - apply nd_entries_set; auto. }
  destruct ident; first [apply preserves_ret | apply Hstore; reflexivity].
Qed.

Lemma nodes_ok_process_rel rel : preserves nodes_ok (process_rel rel).
Proof.
  unfold process_rel.
  destruct (truthy rel); [| apply preserves_ret].
  destruct rel as [| | | | | | d]; try apply preserves_raise.
  destruct (dict_find "source" d) as [source |]; [| apply preserves_ret].
  destruct (dict_find "target" d) as [target |];
    [| destruct source; apply preserves_ret].
  assert (Hgo : preserves nodes_ok
                  (has_source <- in_nodes_dict source ;;
                   if has_source
                   then has_target <- in_nodes_dict target ;;
                        (if has_target then append_rel (VDict d) else ret tt)
                   else ret tt)).
  { intros [t l] H.
    unfold bind, in_nodes_dict, get_nodes_dict, ret, raise, append_rel.
    simpl.
    destruct (hashable source); simpl; [| exact H].
    destruct (nd_mem source (nodes_dict l)); simpl; [| exact H].
    destruct (hashable target); simpl; [| exact H].
    destruct (nd_mem target (nodes_dict l)); simpl; exact H. }
  destruct source; try apply preserves_ret;
    destruct target; try apply preserves_ret; exact Hgo.
Qed.

Lemma nodes_ok_extract_body results : preserves nodes_ok (extract_body results).
Proof.
  assert (Hm : forall q names, preserves nodes_ok (merge_lookup q names)).
  { intros q names. unfold merge_lookup, merge_rows.
    apply preserves_bind; [apply preserves_lift |].
    intros rows. destruct rows as [| first rest]; [apply preserves_ret |].
    destruct (truthy (VDict first)); [| apply preserves_ret].
    apply preserves_bind; [apply preserves_py_iter |]. intros found.
    apply preserves_bind; [apply preserves_for_each, nodes_ok_process_node |].
    intros _.
    apply preserves_bind; [apply preserves_py_iter |]. intros rels.
    apply preserves_for_each, nodes_ok_process_rel. }
  unfold extract_body.
  destruct (_ && _); [| apply preserves_ret].
  apply preserves_bind; [apply Hm |]. intros _.
  apply preserves_bind; [intros s H; exact H |]. intros nd.
  destruct nd; [apply Hm | apply preserves_ret].
Qed.

Lemma has_id_nd_mem (i k : value) (nd : nodes_dict_t) :
  nd_entries nd -> key_eqb i k = true ->
  has_id i (map snd nd) = true -> nd_mem k nd = true.
Proof.
  unfold nd_entries. intros He Hik.
  induction nd as [| [k' n'] nd IH]; simpl; [discriminate |].
  inversion He as [| ? ? [j [Hj [_ Hjk]]] Htail]; subst. simpl in *.
  rewrite Hj. intros H. apply orb_true_iff in H. apply orb_true_iff.
  destruct H as [H | H].
  - left. apply key_eqb_trans with i; [apply key_eqb_sym, Hik |].
    apply key_eqb_trans with j; assumption.
  - right. apply IH; assumption.
Qed.

Lemma nodes_ok_ids_distinct (nd : nodes_dict_t) :
  nd_distinct nd -> nd_entries nd -> ids_distinct (map snd nd) = true.
Proof.
  induction nd as [| [k n] nd IH]; simpl; [reflexivity |].
  intros [Hk Hd] He.
  inversion He as [| ? ? [i [Hi [Hn Hik]]] Htail]; subst. simpl in *.
  rewrite Hi, Hn. simpl.
  destruct (has_id i (map snd nd)) eqn:Hh.
  - apply (has_id_nd_mem i k nd Htail Hik) in Hh. congruence.
  - simpl. apply IH; assumption.
Qed.

(** X3.  Whatever the graph service answers, the nodes of the snapshot
    that [_extract_graph_from_results] returns have identifiers other than
    [None], and no two of them have equal identifiers. *)
Theorem extract_graph_ids_distinct
    (results : list record) (cypher : string) (t : trace) :
  exists g t',
    _extract_graph_from_results results cypher t = (inr g, t')
    /\ ids_distinct (nodes g) = true.
Proof.
  rewrite extract_graph_unfold.
  eexists _, _. split; [reflexivity |]. simpl.
  pose proof (preserves_try_except nodes_ok (extract_body results)
                (fun _ => ret tt) (nodes_ok_extract_body results)
                (fun e => preserves_ret nodes_ok tt)
                (t, {| nodes_dict := []; relationships_list := [] |})) as H.
  destruct H as [Hd He]; [split; simpl; [exact I | constructor] |].
  apply nodes_ok_ids_distinct; assumption.
Qed.

(** ** The whole graph *)

Lemma bind_eq {S A B} (m : SE S A) (f : A -> SE S B) (s : S) :
  bind m f s
  = match m s with
    | (inl e, s') => (inl e, s')
    | (inr a, s') => f a s'
    end.
Proof. reflexivity. Qed.

Lemma preserves_and (I J : locals -> Prop) {A} (m : X A) :
  preserves I m -> preserves J m -> preserves (fun l => I l /\ J l) m.
Proof. intros HI HJ s [Hi Hj]. split; [apply HI, Hi | apply HJ, Hj]. Qed.

Lemma ends_ok_process_node node : preserves ends_ok (process_node node).
Proof.
  unfold process_node.
  destruct (truthy node); [| apply preserves_ret].
  destruct node as [| | | | | | d]; try apply preserves_raise.
  destruct (dict_find "id" d) as [ident |]; [| apply preserves_ret].
  assert (Hstore : preserves ends_ok (store_node ident (VDict d))).
  { unfold store_node. destruct (hashable ident); [| apply preserves_raise].
    intros [t l] H. exact H. }
  destruct ident; first [apply preserves_ret | exact Hstore].
Qed.

Lemma ends_ok_collect_rel rel : preserves ends_ok (collect_rel rel).
Proof.
  unfold collect_rel.
  destruct (truthy rel); [| apply preserves_ret].
  destruct rel as [| | | | | | d]; try apply preserves_raise.
  destruct (dict_find "source" d) as [source |] eqn:Hs; [| apply preserves_ret].
  destruct (dict_find "target" d) as [target |] eqn:Ht;
    [| destruct source; apply preserves_ret].
  assert (Happ : is_none source = false -> is_none target = false ->
                 preserves ends_ok (append_rel (VDict d))).
  { intros Hns Hnt [t l] H. unfold ends_ok, append_rel in *. simpl in *.
    apply Forall_app. split; [exact H |].
    constructor; [| constructor].
    unfold has_ends. simpl. rewrite Hs, Ht, Hns, Hnt. reflexivity. }
  destruct source; try apply preserves_ret;
    destruct target; try apply preserves_ret; apply Happ; reflexivity.
Qed.

Lemma nodes_ok_collect_rel rel : preserves nodes_ok (collect_rel rel).
Proof.
  unfold collect_rel.
  destruct (truthy rel); [| apply preserves_ret].
  destruct rel as [| | | | | | d]; try apply preserves_raise.
  destruct (dict_find "source" d) as [source |]; [| apply preserves_ret].
  destruct (dict_find "target" d) as [target |];
    [| destruct source; apply preserves_ret].
  assert (Happ : preserves nodes_ok (append_rel (VDict d))).
  { intros [t l] H. exact H. }
  destruct source; try apply preserves_ret;
    destruct target; try apply preserves_ret; exact Happ.
Qed.

Lemma emits_collect_rel (P : event -> Prop) rel :
  emits trace_of_X P (collect_rel rel).
Proof. unfold collect_rel. emits_crush. Qed.

(** X4.  When [get_graph_data] returns, it has sent one query and nothing
    else, the nodes it returns have identifiers other than [None], no two
    of them equal, and every relationship it returns has a source and a
    target other than [None]. *)
Theorem get_graph_data_returns
    (limit : Z) (t t' : trace) (g : graph_data) :
  get_graph_data limit t = (inr g, t') ->
  t' = EvQuery (graph_data_query limit) [] :: t
  /\ ids_distinct (nodes g) = true
  /\ forallb has_ends (relationships g) = true.
Proof.
  unfold get_graph_data. rewrite bind_eq. unfold execute_query.
  destruct (session_run W t (graph_data_query limit) []) as [e | rows];
    [discriminate |].
  destruct rows as [| first rest].
  { intros H. inversion H. subst. repeat split. }
  destruct (truthy (VDict first)).
  2: { intros H. inversion H. subst. repeat split. }
  set (body := found <- py_iter (dict_get "nodes" (VList []) first) ;;
               for_each process_node found ;;;
               rels <- py_iter (dict_get "relationships" (VList []) first) ;;
               for_each collect_rel rels).
  set (s0 := (EvQuery (graph_data_query limit) [] :: t,
              {| nodes_dict := []; relationships_list := [] |})).
  assert (Hinv : preserves (fun l => nodes_ok l /\ ends_ok l) body).
  { unfold body.
    apply preserves_bind; [apply preserves_py_iter |]. intros found.
    apply preserves_bind.
    { apply preserves_for_each. intros n.
      apply preserves_and;
        [apply nodes_ok_process_node | apply ends_ok_process_node]. }
    intros _.
    apply preserves_bind; [apply preserves_py_iter |]. intros rels.
    apply preserves_for_each. intros r.
    apply preserves_and;
      [apply nodes_ok_collect_rel | apply ends_ok_collect_rel]. }
  assert (Hsilent : emits trace_of_X (fun _ => False) body).
  { unfold body.
    apply emits_bind; [apply emits_py_iter |]. intros found.
    apply emits_bind; [apply emits_for_each, emits_process_node |].
    intros u.
    apply emits_bind; [apply emits_py_iter |]. intros rels.
    apply emits_for_each, emits_collect_rel. }
  pose proof (Hinv s0) as Hi.
  pose proof (silent_trace trace_of_X body s0 Hsilent) as Ht.
  rewrite bind_eq. unfold with_locals. subst s0.
  destruct (body _) as [[e | u] [t1 l]]; simpl; intros H;
    [discriminate H |].
  unfold trace_of_X in Ht. simpl in Ht, Hi.
  inversion H. subst. clear H.
  destruct Hi as [[Hd He] Hends].
  { repeat split; constructor. }
  split; [reflexivity |]. split.
  - apply nodes_ok_ids_distinct; assumption.
  - simpl. apply forallb_forall. unfold ends_ok in Hends.
    rewrite Forall_forall in Hends. exact Hends.
Qed.

(** ** What a method returns *)

Lemma returns_ret {S A} (a : A) (Q : A -> Prop) : Q a -> returns (@ret S A a) Q.
Proof. intros H s b s' E. inversion E. subst. exact H. Qed.

Lemma returns_raise {S A} (e : exn) (Q : A -> Prop) : returns (@raise S A e) Q.
Proof. intros s b s' E. discriminate E. Qed.

Lemma returns_bind {S A B} (m : SE S A) (f : A -> SE S B) (Q : B -> Prop) :
  (forall a, returns (f a) Q) -> returns (bind m f) Q.
Proof.
  intros Hf s b s' E. rewrite bind_eq in E.
  destruct (m s) as [[e | a] s1]; [discriminate E |].
  eapply Hf. exact E.
Qed.

Lemma returns_keyword_context_part i r :
  returns (keyword_context_part i r) starts_with_nl.
Proof.
  unfold keyword_context_part.
  repeat (apply returns_bind; intros ?).
  apply returns_ret. eexists. reflexivity.
Qed.

Lemma returns_vector_context_part i r :
  returns (vector_context_part i r) starts_with_nl.
Proof.
  unfold vector_context_part.
  repeat (apply returns_bind; intros ?).
  apply returns_ret. eexists. reflexivity.
Qed.

Lemma context_parts_shape (part : nat -> record -> M string) :
  (forall j r, returns (part j r) starts_with_nl) ->
  (forall j r, emits trace_of_M (fun _ => False) (part j r)) ->
  forall rows i t parts t',
    context_parts part i rows t = (inr parts, t') ->
    t' = t /\ List.length parts = List.length rows
    /\ Forall starts_with_nl parts.
Proof.
  intros Hret Hsil. induction rows as [| r rows IH]; intros i t parts t' H.
  - simpl in H. inversion H. subst. repeat split. constructor.
  - simpl in H. rewrite bind_eq in H.
    pose proof (Hret i r t) as Hp.
    pose proof (silent_trace trace_of_M (part i r) t (Hsil i r)) as Ht.
    destruct (part i r t) as [[e | p] t1]; [discriminate H |].
    unfold trace_of_M in Ht. simpl in Ht. subst t1.
    rewrite bind_eq in H.
    destruct (context_parts part (Datatypes.S i) rows t) as [[e | ps] t2] eqn:E;
      [discriminate H |].
    destruct (IH _ _ _ _ E) as [-> [Hlen Hall]].
    inversion H. subst. repeat split.
    + simpl. rewrite Hlen. reflexivity.
    + constructor; [eapply Hp; reflexivity | exact Hall].
Qed.

Lemma join_parts_empty (sep : string) (parts : list string) :
  Forall starts_with_nl parts ->
  (PyStr.join sep parts = EmptyString <-> parts = []).
Proof.
  intros H. split.
  - destruct parts as [| p ps]; [reflexivity |].
    inversion H as [| ? ? [rest ->] _]; subst.
    unfold PyStr.join. simpl. destruct ps; discriminate.
  - intros ->. reflexivity.
Qed.

(** X5.  When retrieval returns, by keywords or by vectors, its last call
    was the one graph query, and the context it returns is the empty
    string exactly when that query returned no row. *)
Theorem retrieve_empty_iff_no_row
    (question : string) (use_vector_search : bool) (t t' : trace)
    (context : string) :
  retrieve question use_vector_search t = (inr context, t') ->
  exists q p t0 rows,
    t' = EvQuery q p :: t0
    /\ session_run W t0 q p = inr rows
    /\ (context = EmptyString <-> rows = []).
Proof.
  unfold retrieve. destruct use_vector_search.
  - unfold retrieve_with_vector_search. rewrite bind_eq. unfold get_embedding.
    destruct (embeddings_create W t embedding_model question) as [e | emb];
      [discriminate |].
    rewrite bind_eq. unfold execute_query.
    match goal with
    | |- context [session_run W ?t0 ?q ?p] =>
        destruct (session_run W t0 q p) as [e | rows] eqn:Hrun;
          [discriminate |];
          rewrite bind_eq;
          destruct (context_parts vector_context_part 1 rows (EvQuery q p :: t0))
            as [[e | parts] t1] eqn:Hparts; [discriminate |];
          intros H; inversion H; subst; clear H;
          destruct (context_parts_shape vector_context_part
                      returns_vector_context_part
                      (emits_vector_context_part (fun _ => False))
                      _ _ _ _ _ Hparts) as [-> [Hlen Hall]];
          exists q, p, t0, rows
    end.
    split; [reflexivity |]. split; [exact Hrun |].
    rewrite (join_parts_empty _ parts Hall).
    split; intros ->; [destruct rows | destruct parts];
      try reflexivity; discriminate Hlen.
  - unfold retrieve_context. rewrite bind_eq. unfold execute_query.
    match goal with
    | |- context [session_run W ?t0 ?q ?p] =>
        destruct (session_run W t0 q p) as [e | rows] eqn:Hrun;
          [discriminate |];
          rewrite bind_eq;
          destruct (context_parts keyword_context_part 1 rows (EvQuery q p :: t0))
            as [[e | parts] t1] eqn:Hparts; [discriminate |];
          intros H; inversion H; subst; clear H;
          destruct (context_parts_shape keyword_context_part
                      returns_keyword_context_part
                      (emits_keyword_context_part (fun _ => False))
                      _ _ _ _ _ Hparts) as [-> [Hlen Hall]];
          exists q, p, t0, rows
    end.
    split; [reflexivity |]. split; [exact Hrun |].
    rewrite (join_parts_empty _ parts Hall).
    split; intros ->; [destruct rows | destruct parts];
      try reflexivity; discriminate Hlen.
Qed.

(** X6.  In vector mode a failure of the embedding call leaves [query] as
    it was raised: no graph query is sent after it, the keyword strategy is
    not tried, and no answer is generated. *)
Theorem query_embedding_failure_propagates
    (question : string) (t : trace) (e : exn) :
  embeddings_create W (EvTime :: t) embedding_model question = inl e ->
  query question true t
  = (inl e, EvEmbed embedding_model question :: EvTime :: t).
Proof.
  intros H. unfold query. rewrite bind_eq. unfold now.
  rewrite bind_eq. unfold retrieve_with_vector_search.
  rewrite bind_eq. unfold get_embedding. rewrite H. reflexivity.
Qed.

(** X7.  Nothing guards the schema query: when [get_graph_schema] raises,
    because the graph service failed or because a sample row lacks a
    field, the same exception leaves [text_to_cypher],
    [execute_text_to_cypher], [kg_query_with_explanation] and, once the RAG
    branch has returned, [compare_with_judge]. *)
Theorem schema_failure_propagates
    (question : string) (t0 t t1 : trace) (rag : rag_result) (e : exn) :
  query question false t0 = (inr rag, t) ->
  get_graph_schema (EvTime :: EvTime :: t) = (inl e, t1) ->
  text_to_cypher question (EvTime :: EvTime :: t) = (inl e, t1)
  /\ execute_text_to_cypher question (EvTime :: t) = (inl e, t1)
  /\ kg_query_with_explanation question t = (inl e, t1)
  /\ compare_with_judge question t0 = (inl e, t1).
Proof.
  intros Hrag Hschema.
  assert (H1 : text_to_cypher question (EvTime :: EvTime :: t) = (inl e, t1)).
  { unfold text_to_cypher. rewrite bind_eq, Hschema. reflexivity. }
  assert (H2 : execute_text_to_cypher question (EvTime :: t) = (inl e, t1)).
  { unfold execute_text_to_cypher. rewrite bind_eq. unfold now.
    rewrite bind_eq, H1. reflexivity. }
  assert (H3 : kg_query_with_explanation question t = (inl e, t1)).
  { unfold kg_query_with_explanation. rewrite bind_eq. unfold now.
    rewrite bind_eq, H2. reflexivity. }
  repeat split; try assumption.
  unfold compare_with_judge. rewrite bind_eq, Hrag, bind_eq, H3. reflexivity.
Qed.

(** ** Strings: one character, prefixes, replacement and stripping *)

Lemma prefix_char (c d : ascii) (s : string) :
  String.prefix (String c EmptyString) (String d s) = Ascii.eqb c d.
Proof.
  change (String.prefix (String c EmptyString) (String d s))
    with (if ascii_dec c d then String.prefix EmptyString s else false).
  destruct (ascii_dec c d) as [<- | H].
  - rewrite Ascii.eqb_refl. destruct s; reflexivity.
  - symmetry. apply Ascii.eqb_neq. exact H.
Qed.

Lemma contains_char_cons (c d : ascii) (s : string) :
  PyStr.contains (String c EmptyString) (String d s)
  = Ascii.eqb c d || PyStr.contains (String c EmptyString) s.
Proof.
  change (PyStr.contains (String c EmptyString) (String d s))
    with (String.prefix (String c EmptyString) (String d s)
          || PyStr.contains (String c EmptyString) s).
  rewrite prefix_char. reflexivity.
Qed.

Lemma contains_char_app (c : ascii) (a b : string) :
  PyStr.contains (String c EmptyString) (a ++ b)
  = PyStr.contains (String c EmptyString) a
    || PyStr.contains (String c EmptyString) b.
Proof.
  induction a as [| d a IH].
  - simpl. destruct b; reflexivity.
  - change (String d a ++ b) with (String d (a ++ b)).
    rewrite !contains_char_cons, IH. apply orb_assoc.
Qed.

Lemma prefix_head_mismatch (b c : ascii) (old' s : string) :
  Ascii.eqb b c = false -> String.prefix (String b old') (String c s) = false.
Proof.
  intros H.
  change (String.prefix (String b old') (String c s))
    with (if ascii_dec b c then String.prefix old' s else false).
  destruct (ascii_dec b c) as [E | _]; [| reflexivity].
  subst. rewrite Ascii.eqb_refl in H. discriminate.
Qed.

Lemma prefix_app (a s : string) : String.prefix a (a ++ s) = true.
Proof.
  induction a as [| c a IH]; simpl; [destruct s; reflexivity |].
  destruct (ascii_dec c c) as [_ | H]; [exact IH | contradiction].
Qed.

Lemma contains_app_prefix (sub a b : string) :
  String.prefix sub b = true -> PyStr.contains sub (a ++ b) = true.
Proof.
  intros H. induction a as [| c a IH].
  - change (EmptyString ++ b) with b.
    destruct b; unfold PyStr.contains; fold PyStr.contains;
      rewrite H; reflexivity.
  - change (String c a ++ b) with (String c (a ++ b)).
    change (PyStr.contains sub (String c (a ++ b)))
      with (String.prefix sub (String c (a ++ b)) || PyStr.contains sub (a ++ b)).
    rewrite IH. apply orb_true_r.
Qed.

Lemma append_nil_r (s : string) : s ++ EmptyString = s.
Proof. induction s as [| c s IH]; simpl; [| rewrite IH]; reflexivity. Qed.

Lemma str_length_app (a b : string) :
  String.length (a ++ b) = String.length a + String.length b.
Proof. induction a as [| c a IH]; simpl; [| rewrite IH]; reflexivity. Qed.

(** *** [replace] *)

Lemma replace_go_copy (b : ascii) (old' new a s : string) :
  PyStr.contains (String b EmptyString) a = false ->
  PyStr.replace_go (String b old') new 0 (a ++ s)
  = a ++ PyStr.replace_go (String b old') new 0 s.
Proof.
  induction a as [| c a IH]; intros H; [reflexivity |].
  rewrite contains_char_cons in H. apply orb_false_iff in H.
  destruct H as [Hc Ha].
  change (String c a ++ s) with (String c (a ++ s)).
  change (PyStr.replace_go (String b old') new 0 (String c (a ++ s)))
    with (if String.prefix (String b old') (String c (a ++ s))
          then new ++ PyStr.replace_go (String b old') new
                        (String.length (String b old') - 1) (a ++ s)
          else String c (PyStr.replace_go (String b old') new 0 (a ++ s))).
  rewrite prefix_head_mismatch by exact Hc.
  rewrite IH by exact Ha. reflexivity.
Qed.

Lemma replace_go_skip (old new pre s : string) :
  PyStr.replace_go old new (String.length pre) (pre ++ s)
  = PyStr.replace_go old new 0 s.
Proof.
  induction pre as [| c pre IH]; [reflexivity |].
  exact IH.
Qed.

Lemma replace_go_match (b : ascii) (old' new s : string) :
  PyStr.replace_go (String b old') new 0 (String b old' ++ s)
  = new ++ PyStr.replace_go (String b old') new 0 s.
Proof.
  change (String b old' ++ s) with (String b (old' ++ s)).
  change (PyStr.replace_go (String b old') new 0 (String b (old' ++ s)))
    with (if String.prefix (String b old') (String b (old' ++ s))
          then new ++ PyStr.replace_go (String b old') new
                        (String.length (String b old') - 1) (old' ++ s)
          else String b (PyStr.replace_go (String b old') new 0 (old' ++ s))).
  change (String b (old' ++ s)) with (String b old' ++ s).
  rewrite prefix_app.
  change (String.length (String b old') - 1) with (String.length old' - 0).
  rewrite Nat.sub_0_r, replace_go_skip. reflexivity.
Qed.

Lemma replace_absent (b : ascii) (old' new s : string) :
  PyStr.contains (String b EmptyString) s = false ->
  PyStr.replace (String b old') new s = s.
Proof.
  intros H. unfold PyStr.replace.
  rewrite <- (append_nil_r s) at 1.
  rewrite replace_go_copy by exact H. apply append_nil_r.
Qed.

(** *** [strip] *)

Lemma lstrip_shape (s : string) :
  PyStr.lstrip s = EmptyString
  \/ exists c u, PyStr.lstrip s = String c u /\ PyStr.is_space c = false.
Proof.
  induction s as [| c s IH]; simpl; [left; reflexivity |].
  destruct (PyStr.is_space c) eqn:E; [exact IH |].
  right. eauto.
Qed.

Lemma rstrip_cons (c : ascii) (s : string) :
  PyStr.rstrip (String c s)
  = match PyStr.rstrip s with
    | EmptyString =>
        if PyStr.is_space c then EmptyString else String c EmptyString
    | String d r => String c (String d r)
    end.
Proof. simpl. destruct (PyStr.rstrip s); reflexivity. Qed.

Lemma rstrip_idempotent (s : string) :
  PyStr.rstrip (PyStr.rstrip s) = PyStr.rstrip s.
Proof.
  induction s as [| c s IH]; [reflexivity |].
  rewrite rstrip_cons.
  destruct (PyStr.rstrip s) as [| d r] eqn:E.
  - destruct (PyStr.is_space c) eqn:Hc; [reflexivity |].
    rewrite rstrip_cons. simpl. rewrite Hc. reflexivity.
  - rewrite rstrip_cons, IH. reflexivity.
Qed.

Lemma rstrip_head (c : ascii) (s : string) :
  PyStr.is_space c = false ->
  exists u, PyStr.rstrip (String c s) = String c u.
Proof.
  intros Hc. rewrite rstrip_cons.
  destruct (PyStr.rstrip s); [rewrite Hc |]; eauto.
Qed.

Lemma rstrip_app (a b : string) :
  PyStr.rstrip b <> EmptyString ->
  PyStr.rstrip (a ++ b) = a ++ PyStr.rstrip b.
Proof.
  intros Hb. induction a as [| c a IH]; [reflexivity |].
  change (String c a ++ b) with (String c (a ++ b)).
  rewrite rstrip_cons, IH.
  change (String c a ++ PyStr.rstrip b) with (String c (a ++ PyStr.rstrip b)).
  destruct (a ++ PyStr.rstrip b) as [| d r] eqn:E; [| reflexivity].
  destruct a; simpl in E; [contradiction | discriminate E].
Qed.

Lemma rstrip_all_space (w : string) :
  all_space w = true -> PyStr.rstrip w = EmptyString.
Proof.
  induction w as [| c w IH]; [reflexivity |].
  simpl all_space. intros H. apply andb_true_iff in H. destruct H as [Hc Hw].
  rewrite rstrip_cons, (IH Hw), Hc. reflexivity.
Qed.

Lemma rstrip_app_space (a w : string) :
  all_space w = true -> PyStr.rstrip (a ++ w) = PyStr.rstrip a.
Proof.
  intros Hw. induction a as [| c a IH].
  - simpl. apply rstrip_all_space, Hw.
  - change (String c a ++ w) with (String c (a ++ w)).
    rewrite !rstrip_cons, IH. reflexivity.
Qed.

Lemma lstrip_all_space (w : string) :
  all_space w = true -> PyStr.lstrip w = EmptyString.
Proof.
  induction w as [| c w IH]; [reflexivity |].
  simpl. intros H. apply andb_true_iff in H. destruct H as [Hc Hw].
  rewrite Hc. apply IH, Hw.
Qed.

Lemma strip_app_space (q w : string) :
  all_space w = true -> PyStr.strip (q ++ w) = PyStr.strip q.
Proof.
  intros Hw. unfold PyStr.strip. induction q as [| c q IH].
  - simpl. rewrite (lstrip_all_space w Hw). reflexivity.
  - change (String c q ++ w) with (String c (q ++ w)).
    simpl PyStr.lstrip. destruct (PyStr.is_space c); [exact IH |].
    change (String c (q ++ w)) with (String c q ++ w).
    apply rstrip_app_space, Hw.
Qed.

Lemma strip_idempotent (s : string) :
  PyStr.strip (PyStr.strip s) = PyStr.strip s.
Proof.
  unfold PyStr.strip.
  destruct (lstrip_shape s) as [E | [c [u [E Hc]]]]; rewrite E.
  - reflexivity.
  - destruct (rstrip_head c u Hc) as [v Hv].
    rewrite Hv. simpl PyStr.lstrip. rewrite Hc, <- Hv.
    apply rstrip_idempotent.
Qed.

Lemma no_char_lstrip (c : ascii) (s : string) :
  PyStr.contains (String c EmptyString) s = false ->
  PyStr.contains (String c EmptyString) (PyStr.lstrip s) = false.
Proof.
  induction s as [| d s IH]; intros H; [reflexivity |].
  simpl PyStr.lstrip. destruct (PyStr.is_space d); [| exact H].
  rewrite contains_char_cons in H. apply orb_false_iff in H.
  apply IH, H.
Qed.

Lemma no_char_rstrip (c : ascii) (s : string) :
  PyStr.contains (String c EmptyString) s = false ->
  PyStr.contains (String c EmptyString) (PyStr.rstrip s) = false.
Proof.
  induction s as [| d s IH]; intros H; [reflexivity |].
  rewrite contains_char_cons in H. apply orb_false_iff in H.
  destruct H as [Hd Hs]. specialize (IH Hs).
  rewrite rstrip_cons. destruct (PyStr.rstrip s) as [| e r].
  - destruct (PyStr.is_space d); [reflexivity |].
    rewrite contains_char_cons, Hd. reflexivity.
  - rewrite contains_char_cons, Hd. exact IH.
Qed.

Lemma no_char_strip (c : ascii) (s : string) :
  PyStr.contains (String c EmptyString) s = false ->
  PyStr.contains (String c EmptyString) (PyStr.strip s) = false.
Proof. intros H. apply no_char_rstrip, no_char_lstrip, H. Qed.

Lemma strip_fixed (c : ascii) (a e : string) :
  PyStr.is_space c = false -> PyStr.rstrip e = e -> e <> EmptyString ->
  PyStr.strip (String c a ++ e) = String c a ++ e.
Proof.
  intros Hc He Hne. unfold PyStr.strip.
  change (String c a ++ e) with (String c (a ++ e)).
  simpl PyStr.lstrip. rewrite Hc.
  change (String c (a ++ e)) with (String c a ++ e).
  rewrite rstrip_app; rewrite He; [reflexivity | exact Hne].
Qed.

Lemma strip_cons_space (c : ascii) (s : string) :
  PyStr.is_space c = true -> PyStr.strip (String c s) = PyStr.strip s.
Proof. intros H. unfold PyStr.strip. simpl PyStr.lstrip. rewrite H. reflexivity. Qed.

Lemma replace_go_nomatch (old new : string) (c : ascii) (s : string) :
  String.prefix old (String c s) = false ->
  PyStr.replace_go old new 0 (String c s)
  = String c (PyStr.replace_go old new 0 s).
Proof.
  intros H.
  change (PyStr.replace_go old new 0 (String c s))
    with (if String.prefix old (String c s)
          then new ++ PyStr.replace_go old new (String.length old - 1) s
          else String c (PyStr.replace_go old new 0 s)).
  rewrite H. reflexivity.
Qed.

Lemma no_backtick_line (q : string) :
  no_backtick q -> no_backtick (PyStr.nl ++ q ++ PyStr.nl).
Proof.
  unfold no_backtick. intros H.
  rewrite !contains_char_app, H. reflexivity.
Qed.

(** X8.  A generated query without backticks is cleaned to its stripped text,
    whether the model returned it bare, inside a [```cypher] fence or
    inside a plain [```] fence. *)
Theorem clean_cypher_removes_fence (q : string) :
  no_backtick q ->
  clean_cypher q = PyStr.strip q
  /\ clean_cypher ("```cypher" ++ PyStr.nl ++ q ++ PyStr.nl ++ "```")
     = PyStr.strip q
  /\ clean_cypher ("```" ++ PyStr.nl ++ q ++ PyStr.nl ++ "```")
     = PyStr.strip q.
Proof.
  intros Hq.
  pose proof (no_backtick_line q Hq) as Hline.
  assert (Hrest : PyStr.nl ++ q ++ PyStr.nl ++ "```"
                  = (PyStr.nl ++ q ++ PyStr.nl) ++ "```")
    by (rewrite !str_append_assoc; reflexivity).
  assert (Hend : PyStr.strip ((PyStr.nl ++ q ++ PyStr.nl) ++ EmptyString)
                 = PyStr.strip q).
  { rewrite append_nil_r.
    change (PyStr.nl ++ q ++ PyStr.nl) with (String "010"%char (q ++ PyStr.nl)).
    rewrite strip_cons_space by reflexivity.
    apply strip_app_space. reflexivity. }
  split; [| split].
  - unfold clean_cypher.
    pose proof (no_char_strip _ _ Hq) as Hs.
    rewrite (replace_absent _ _ _ _ Hs), (replace_absent _ _ _ _ Hs).
    apply strip_idempotent.
  - unfold clean_cypher.
    assert (Hfix : PyStr.strip
                     ("```cypher" ++ PyStr.nl ++ q ++ PyStr.nl ++ "```")
                   = "```cypher" ++ PyStr.nl ++ q ++ PyStr.nl ++ "```").
    { rewrite Hrest, <- str_append_assoc.
      change ("```cypher" ++ PyStr.nl ++ q ++ PyStr.nl)
        with (String "`"%char ("``cypher" ++ PyStr.nl ++ q ++ PyStr.nl)).
      apply strip_fixed; [reflexivity | reflexivity | discriminate]. }
    rewrite Hfix. unfold PyStr.replace.
    rewrite (replace_go_match "`"%char "``cypher" EmptyString).
    change (EmptyString ++ ?x) with x.
    rewrite Hrest, replace_go_copy by exact Hline.
    change (PyStr.replace_go "```cypher" EmptyString 0 "```") with "```".
    rewrite replace_go_copy by exact Hline.
    change (PyStr.replace_go "```" EmptyString 0 "```") with EmptyString.
    exact Hend.
  - unfold clean_cypher.
    assert (Hfix : PyStr.strip ("```" ++ PyStr.nl ++ q ++ PyStr.nl ++ "```")
                   = "```" ++ PyStr.nl ++ q ++ PyStr.nl ++ "```").
    { rewrite Hrest, <- str_append_assoc.
      change ("```" ++ PyStr.nl ++ q ++ PyStr.nl)
        with (String "`"%char ("``" ++ PyStr.nl ++ q ++ PyStr.nl)).
      apply strip_fixed; [reflexivity | reflexivity | discriminate]. }
    rewrite Hfix. unfold PyStr.replace.
    change ("```" ++ PyStr.nl ++ q ++ PyStr.nl ++ "```")
      with (String "`"%char (String "`"%char (String "`"%char
              (PyStr.nl ++ q ++ PyStr.nl ++ "```")))).
    do 3 (rewrite (replace_go_nomatch "```cypher") by reflexivity).
    rewrite Hrest, replace_go_copy by exact Hline.
    change (PyStr.replace_go "```cypher" EmptyString 0 "```") with "```".
    change (String "`"%char (String "`"%char (String "`"%char
              ((PyStr.nl ++ q ++ PyStr.nl) ++ "```"))))
      with ("```" ++ (PyStr.nl ++ q ++ PyStr.nl) ++ "```").
    rewrite (replace_go_match "`"%char "``" EmptyString).
    change (EmptyString ++ ?x) with x.
    rewrite replace_go_copy by exact Hline.
    change (PyStr.replace_go "```" EmptyString 0 "```") with EmptyString.
    exact Hend.
Qed.

(** *** [split] *)

Lemma split_go_copy (b : ascii) (sep' pre s : string) (n : nat) :
  PyStr.contains (String b EmptyString) pre = false ->
  PyStr.split_go (String b sep') n 0 (pre ++ s)
  = (pre ++ fst (PyStr.split_go (String b sep') n 0 s),
     snd (PyStr.split_go (String b sep') n 0 s)).
Proof.
  induction pre as [| c pre IH]; intros H.
  - simpl. destruct (PyStr.split_go (String b sep') n 0 s); reflexivity.
  - rewrite contains_char_cons in H. apply orb_false_iff in H.
    destruct H as [Hc Hp].
    change (String c pre ++ s) with (String c (pre ++ s)).
    destruct n as [| m].
    + rewrite !split_go_no_split. reflexivity.
    + rewrite split_go_step, prefix_head_mismatch by exact Hc.
      rewrite IH by exact Hp. reflexivity.
Qed.

Lemma split_go_skip (sep pre s : string) (n : nat) :
  PyStr.split_go sep n (String.length pre) (pre ++ s)
  = PyStr.split_go sep n 0 s.
Proof.
  induction pre as [| c pre IH]; [| exact IH].
  simpl. destruct s; reflexivity.
Qed.

Lemma split_go_match (b : ascii) (sep' s : string) (m : nat) :
  PyStr.split_go (String b sep') (Datatypes.S m) 0 (String b sep' ++ s)
  = (EmptyString,
     fst (PyStr.split_go (String b sep') m 0 s)
     :: snd (PyStr.split_go (String b sep') m 0 s)).
Proof.
  change (String b sep' ++ s) with (String b (sep' ++ s)).
  rewrite split_go_step.
  change (String b (sep' ++ s)) with (String b sep' ++ s).
  rewrite prefix_app.
  change (String.length (String b sep') - 1) with (String.length sep' - 0).
  rewrite Nat.sub_0_r, split_go_skip.
  destruct (PyStr.split_go (String b sep') m 0 s); reflexivity.
Qed.

(** What follows a closing fence: the piece that the split on the opening
    fence leaves there is empty or begins with the closing fence. *)
Lemma split_go_closing_fence (m : nat) (post : string) :
  no_backtick post ->
  let p := fst (PyStr.split_go "```json" m 0 ("```" ++ post)) in
  p = EmptyString \/ exists x, p = "```" ++ x.
Proof.
  intros Hpost. destruct m as [| m].
  - right. exists post. reflexivity.
  - change ("```" ++ post)
      with (String "`"%char (String "`"%char (String "`"%char post))).
    cbv zeta. rewrite split_go_step.
    destruct (String.prefix "```json"
                (String "`"%char (String "`"%char (String "`"%char post)))).
    + left. destruct (PyStr.split_go _ _ _ _); reflexivity.
    + right.
      assert (H2 : String.prefix "```json" (String "`"%char (String "`"%char post))
                   = false).
      { destruct post as [| c post]; [reflexivity |].
        unfold no_backtick in Hpost. rewrite contains_char_cons in Hpost.
        apply orb_false_iff in Hpost. destruct Hpost as [Hc _].
        change (String.prefix "```json"
                  (String "`"%char (String "`"%char (String c post))))
          with (String.prefix "`json" (String c post)).
        apply prefix_head_mismatch, Hc. }
      assert (H1 : String.prefix "```json" (String "`"%char post) = false).
      { destruct post as [| c post]; [reflexivity |].
        unfold no_backtick in Hpost. rewrite contains_char_cons in Hpost.
        apply orb_false_iff in Hpost. destruct Hpost as [Hc _].
        change (String.prefix "```json" (String "`"%char (String c post)))
          with (String.prefix "``json" (String c post)).
        apply prefix_head_mismatch, Hc. }
      rewrite split_go_step, H2, split_go_step, H1.
      destruct (PyStr.split_go "```json" (Datatypes.S m) 0 post) as [p ps].
      exists p. reflexivity.
Qed.

Lemma split_first_piece (body p : string) :
  no_backtick body ->
  p = EmptyString \/ (exists x, p = "```" ++ x) ->
  exists ps, PyStr.split "```" (body ++ p) = body :: ps.
Proof.
  intros Hb Hp. unfold PyStr.split, PyStr.split_max.
  rewrite split_go_copy by exact Hb.
  destruct Hp as [-> | [x ->]].
  - exists []. rewrite append_nil_r. reflexivity.
  - rewrite str_length_app.
    change (String.length ("```" ++ x)) with (Datatypes.S (2 + String.length x)).
    rewrite Nat.add_succ_r.
    rewrite (split_go_match "`"%char "``").
    simpl fst. simpl snd. rewrite append_nil_r. eauto.
Qed.

Lemma between_json_fences (pre body post : string) (t : trace) :
  no_backtick pre -> no_backtick body -> no_backtick post ->
  between_fences "```json" (pre ++ "```json" ++ body ++ "```" ++ post) t
  = (inr (PyStr.strip body), t).
Proof.
  intros Hpre Hbody Hpost.
  assert (Hs : exists p ps,
             PyStr.split "```json" (pre ++ "```json" ++ body ++ "```" ++ post)
             = pre :: (body ++ p) :: ps
             /\ (p = EmptyString \/ exists x, p = "```" ++ x)).
  { unfold PyStr.split, PyStr.split_max.
    rewrite split_go_copy by exact Hpre.
    rewrite str_length_app.
    change (String.length ("```json" ++ body ++ "```" ++ post))
      with (Datatypes.S (String.length ("``json" ++ body ++ "```" ++ post))).
    rewrite Nat.add_succ_r.
    rewrite (split_go_match "`"%char "``json").
    rewrite split_go_copy by exact Hbody.
    simpl fst. simpl snd. rewrite append_nil_r.
    eexists. eexists. split; [reflexivity |].
    apply split_go_closing_fence, Hpost. }
  destruct Hs as [p [ps [Hs Hp]]].
  destruct (split_first_piece body p Hbody Hp) as [ps' Hs'].
  unfold between_fences. rewrite bind_eq, Hs.
  change (index 1 (pre :: (body ++ p) :: ps) t) with (@inr exn _ (body ++ p), t).
  cbv beta iota. rewrite bind_eq, Hs'. reflexivity.
Qed.

(** X9.  A judgment wrapped in a [```json] fence, with free text before and
    after it, is parsed as the stripped text between the fences; that text
    either decodes, or becomes a raw-text judgment when the decoder raises
    [JSONDecodeError], and any other exception of the decoder leaves
    [parse_judgment]. *)
Theorem parse_judgment_fenced (pre body post : string) (t : trace) :
  no_backtick pre -> no_backtick body -> no_backtick post ->
  parse_judgment (pre ++ "```json" ++ body ++ "```" ++ post) t
  = match json_loads (PyStr.strip body) with
    | inr judgment => (inr judgment, t)
    | inl e =>
        if String.eqb (exn_class e) "JSONDecodeError"
        then (inr (VDict [("raw_text", VStr (PyStr.strip body))]), t)
        else (inl e, t)
    end.
Proof.
  intros Hpre Hbody Hpost.
  unfold parse_judgment.
  rewrite bind_eq.
  rewrite (contains_app_prefix "```json" pre
             ("```json" ++ body ++ "```" ++ post) (prefix_app _ _)).
  rewrite between_json_fences by assumption.
  destruct (json_loads (PyStr.strip body)) as [e | j]; [| reflexivity].
  destruct (String.eqb (exn_class e) "JSONDecodeError"); reflexivity.
Qed.

Lemma between_fences_silent (opening text : string) (t : trace) :
  snd (between_fences opening text t) = t.
Proof.
  unfold between_fences, bind, index.
  destruct (nth_error (PyStr.split opening text) 1); [| reflexivity].
  unfold ret at 1.
  destruct (nth_error (PyStr.split "```" s) 0); reflexivity.
Qed.

(** The possible results of [parse_judgment]: what the decoder returned for
    some text, a raw-text judgment, or an exception (an [IndexError] of the
    fence handling or a decoder exception other than [JSONDecodeError]). *)
Lemma parse_judgment_cases (text : string) (t : trace) :
  exists r, parse_judgment text t = (r, t)
    /\ match r with
       | inr v => (exists x, json_loads x = inr v)
                  \/ (exists x, v = VDict [("raw_text", VStr x)])
       | inl _ => True
       end.
Proof.
  unfold parse_judgment. rewrite bind_eq.
  set (m := if PyStr.contains "```json" text then _ else _).
  assert (Hm : snd (m t) = t).
  { unfold m. destruct (PyStr.contains "```json" text);
      [apply between_fences_silent |].
    destruct (PyStr.contains "```" text);
      [apply between_fences_silent | reflexivity]. }
  destruct (m t) as [[e | x] t1]; simpl in Hm; subst t1.
  - eexists. split; [reflexivity | exact I].
  - destruct (json_loads x) as [e | j] eqn:E.
    + destruct (String.eqb (exn_class e) "JSONDecodeError").
      * eexists. split; [reflexivity |]. right. eauto.
      * eexists. split; [reflexivity | exact I].
    + eexists. split; [reflexivity |]. left. eauto.
Qed.

(** X10.  Asking the Judge never raises and sends exactly one completion
    request, with temperature 0 and seed 42. A failed request gives the
    judgment [{"error": str(e)}]; otherwise the judgment is a decoded JSON
    value, a raw-text judgment, or an error judgment. *)
Theorem ask_judge_total (prompt : string) (t : trace) :
  exists v,
    ask_judge prompt t = (inr v, EvChat (judge_request prompt) :: t)
    /\ temperature (judge_request prompt) = 0%Q
    /\ seed (judge_request prompt) = Some 42%Z
    /\ match chat_completions_create W t (judge_request prompt) with
       | inl e => v = VDict [("error", VStr (exn_str e))]
       | inr _ =>
           (exists x, json_loads x = inr v)
           \/ (exists x, v = VDict [("raw_text", VStr x)])
           \/ (exists msg, v = VDict [("error", VStr msg)])
       end.
Proof.
  unfold ask_judge, try_except. rewrite bind_eq. unfold chat.
  destruct (chat_completions_create W t (judge_request prompt)) as [e | content].
  - eexists. repeat split.
  - destruct (parse_judgment_cases (PyStr.strip content)
                (EvChat (judge_request prompt) :: t)) as [r [Hr Hc]].
    rewrite Hr. destruct r as [e | v].
    + eexists. repeat split. right. right. eauto.
    + exists v. repeat split. destruct Hc as [Hc | Hc]; auto.
Qed.

(** ** The formatted results *)

Lemma format_value_cap (v : value) : format_value (cap_value v) = format_value v.
Proof.
  destruct v; try reflexivity.
  unfold cap_value, format_value. rewrite firstn_firstn. reflexivity.
Qed.

Lemma format_row_cap (i : nat) (row : record) :
  format_row i (map (fun kv => (fst kv, cap_value (snd kv))) row)
  = format_row i row.
Proof.
  unfold format_row. generalize ("Result " ++ PyStr.of_nat i ++ ":").
  induction row as [| kv row IH]; intros acc; [reflexivity |].
  simpl. rewrite format_value_cap. apply IH.
Qed.

Lemma format_rows_cap (rows : list record) :
  forall i,
    format_rows i (map (map (fun kv => (fst kv, cap_value (snd kv)))) rows)
    = format_rows i rows.
Proof.
  induction rows as [| row rows IH]; intros i; [reflexivity |].
  simpl. rewrite format_row_cap, IH. reflexivity.
Qed.

Lemma format_row_head (i : nat) (row : record) :
  exists tail, format_row i row = "Result " ++ PyStr.of_nat i ++ ":" ++ tail.
Proof.
  unfold format_row.
  set (F := fun (row_text : string) (kv : string * value) =>
              row_text ++ PyStr.nl ++ "  • " ++ fst kv ++ ": "
              ++ format_value (snd kv)).
  assert (H : forall acc, exists tail, fold_left F row acc = acc ++ tail).
  { induction row as [| kv row IH]; intros acc.
    - exists EmptyString. symmetry. apply append_nil_r.
    - change (fold_left F (kv :: row) acc) with (fold_left F row (F acc kv)).
      destruct (IH (F acc kv)) as [tail E].
      rewrite E. unfold F. rewrite str_append_assoc. eauto. }
  destruct (H ("Result " ++ PyStr.of_nat i ++ ":")) as [tail E].
  exists tail. rewrite E, !str_append_assoc. reflexivity.
Qed.

(** X11.  The formatted results depend only on the first twenty rows and on
    the first five items of every list value, and they are the text
    [No results found.] exactly when there is no row. *)
Theorem format_kg_results_window (results : list record) :
  format_kg_results (cap_rows results) = format_kg_results results
  /\ (format_kg_results results = "No results found." <-> results = []).
Proof.
  split.
  - destruct results as [| row rows]; [reflexivity |].
    unfold cap_rows.
    change (firstn 20 (row :: rows)) with (row :: firstn 19 rows).
    unfold format_kg_results.
    change (map (map (fun kv => (fst kv, cap_value (snd kv))))
              (row :: firstn 19 rows))
      with (map (fun kv => (fst kv, cap_value (snd kv))) row
            :: map (map (fun kv => (fst kv, cap_value (snd kv))))
                 (firstn 19 rows)).
    cbv beta iota.
    change (map (fun kv => (fst kv, cap_value (snd kv))) row
            :: map (map (fun kv => (fst kv, cap_value (snd kv))))
                 (firstn 19 rows))
      with (map (map (fun kv => (fst kv, cap_value (snd kv))))
              (firstn 20 (row :: rows))).
    rewrite firstn_all2.
    + rewrite format_rows_cap. reflexivity.
    + rewrite length_map. apply firstn_le_length.
  - split; [| intros ->; reflexivity].
    destruct results as [| row rows]; [reflexivity |].
    intros H. exfalso.
    unfold format_kg_results in H.
    change (firstn 20 (row :: rows)) with (row :: firstn 19 rows) in H.
    change (format_rows 1 (row :: firstn 19 rows))
      with (format_row 1 row :: format_rows 2 (firstn 19 rows)) in H.
    destruct (format_row_head 1 row) as [tail E].
    rewrite E in H. unfold PyStr.join in H.
    destruct (format_rows 2 (firstn 19 rows)); discriminate H.
Qed.

(** ** The knowledge-graph result *)

Lemma returns_bind_with {S A B} (P : A -> Prop) (m : SE S A)
    (f : A -> SE S B) (Q : B -> Prop) :
  returns m P -> (forall a, P a -> returns (f a) Q) -> returns (bind m f) Q.
Proof.
  intros Hm Hf s b s' E. rewrite bind_eq in E.
  destruct (m s) as [[e | a] s1] eqn:Em; [discriminate E |].
  eapply Hf; [eapply Hm; exact Em | exact E].
Qed.

Lemma returns_try_except {S A} (m : SE S A) (h : exn -> SE S A)
    (Q : A -> Prop) :
  returns m Q -> (forall e, returns (h e) Q) -> returns (try_except m h) Q.
Proof.
  intros Hm Hh s a s' E. unfold try_except in E.
  destruct (m s) as [[e | b] s1] eqn:Em.
  - eapply Hh. exact E.
  - inversion E. subst. eapply Hm. exact Em.
Qed.

Lemma extract_graph_sound (results : list record) (cypher : string) :
  returns (_extract_graph_from_results results cypher)
    (fun g => snapshot_closed g = true /\ ids_distinct (nodes g) = true).
Proof.
  intros t g t' E. rewrite extract_graph_unfold in E.
  inversion E as [[Hg Ht]]. clear E Ht. split.
  - pose proof (preserves_try_except locals_ok (extract_body results)
                  (fun _ => ret tt) (preserves_extract_body results)
                  (fun e => preserves_ret locals_ok tt)
                  (t, {| nodes_dict := []; relationships_list := [] |})) as H.
    apply (locals_ok_closed _ (H (conj (Forall_nil _) (Forall_nil _)))).
  - pose proof (preserves_try_except nodes_ok (extract_body results)
                  (fun _ => ret tt) (nodes_ok_extract_body results)
                  (fun e => preserves_ret nodes_ok tt)
                  (t, {| nodes_dict := []; relationships_list := [] |})) as H.
    destruct H as [Hd He]; [split; simpl; [exact I | constructor] |].
    apply nodes_ok_ids_distinct; assumption.
Qed.

Lemma clean_cypher_stripped (content : string) :
  PyStr.strip (clean_cypher content) = clean_cypher content.
Proof. unfold clean_cypher. apply strip_idempotent. Qed.

Lemma text_to_cypher_clean (question : string) :
  returns (text_to_cypher question)
    (fun tr => match tr with
               | TrOk cypher => PyStr.strip cypher = cypher
               | TrFailed _ => True
               end).
Proof.
  unfold text_to_cypher. apply returns_bind. intros schema.
  apply returns_try_except.
  - apply returns_bind. intros content. apply returns_ret.
    apply clean_cypher_stripped.
  - intros e. apply returns_ret. exact I.
Qed.

Lemma execute_text_to_cypher_coherent (question : string) :
  returns (execute_text_to_cypher question) exec_coherent.
Proof.
  unfold execute_text_to_cypher. apply returns_bind. intros start_time.
  eapply returns_bind_with; [apply text_to_cypher_clean |].
  intros [cypher | error] Hc.
  - apply returns_try_except.
    + apply returns_bind. intros results.
      eapply returns_bind_with; [apply extract_graph_sound |].
      intros g [Hg Hd]. apply returns_bind. intros t1.
      apply returns_ret. simpl. auto.
    + intros e. apply returns_bind. intros t1. apply returns_ret. exact I.
  - apply returns_bind. intros t1. apply returns_ret. exact I.
Qed.

(** X12.  The fields of a knowledge-graph result agree with one another: on
    success the count is the number of rows, the formatted text is that of
    the rows, the query has no surrounding white space, and the graph
    snapshot is closed with distinct node identifiers; on failure the answer
    is the error behind a fixed prefix. *)
Theorem kg_result_coherent (question : string) (t t' : trace) (r : kg_result) :
  kg_query_with_explanation question t = (inr r, t') -> kg_coherent r.
Proof.
  revert t r t'.
  change (returns (kg_query_with_explanation question) kg_coherent).
  unfold kg_query_with_explanation. apply returns_bind. intros start_time.
  eapply returns_bind_with; [apply execute_text_to_cypher_coherent |].
  intros [error time | cypher results n graph time | cypher time error] Hc.
  - apply returns_bind. intros t1. apply returns_ret. reflexivity.
  - apply returns_bind. intros answer. apply returns_bind. intros t1.
    apply returns_ret.
    destruct Hc as [Hn [Hs [Hg Hd]]]. repeat split; assumption.
  - apply returns_bind. intros t1. apply returns_ret. reflexivity.
Qed.

(** ** The judged path of [compare_with_judge] *)

Lemma ask_judge_trace (prompt : string) (t : trace) :
  exists v, ask_judge prompt t = (inr v, EvChat (judge_request prompt) :: t).
Proof.
  unfold ask_judge, try_except. rewrite bind_eq. unfold chat.
  destruct (chat_completions_create W t (judge_request prompt)) as [e | content].
  - eexists. reflexivity.
  - destruct (parse_judgment_cases (PyStr.strip content)
                (EvChat (judge_request prompt) :: t)) as [r [Hr _]].
    rewrite Hr. destruct r as [e | v]; eexists; reflexivity.
Qed.

Lemma emits_display_items (P : event -> Prop) key d :
  emits trace_of_M P (display_items key d).
Proof. unfold display_items. emits_crush. Qed.

Lemma emits_display_verdict (P : event -> Prop) (v : value) :
  emits trace_of_M P (display_verdict v).
Proof.
  unfold display_verdict, py_in, subscript, as_dict, winner_map_get, py_upper.
  repeat first [ apply emits_display_items | emits_step
               | match goal with
                 | |- emits _ _ (if ?b then _ else _) => destruct b
                 | |- emits _ _ (match ?x with _ => _ end) => destruct x
                 end ].
Qed.

Lemma display_verdict_silent (v : value) (t : trace) :
  snd (display_verdict v t) = t.
Proof. apply (silent_trace trace_of_M), emits_display_verdict. Qed.

Lemma judge_calls_judge_request (prompt : string) (t : trace) :
  judge_calls (EvChat (judge_request prompt) :: t) = Datatypes.S (judge_calls t).
Proof.
  unfold judge_calls. simpl chat_calls.
  change (filter is_judge_request (judge_request prompt :: chat_calls t))
    with (if is_judge_request (judge_request prompt)
          then judge_request prompt :: filter is_judge_request (chat_calls t)
          else filter is_judge_request (chat_calls t)).
  unfold is_judge_request at 1. simpl system_content.
  rewrite String.eqb_refl. reflexivity.
Qed.

(** X13.  When both branches have returned and the KG branch succeeded,
    [compare_with_judge] sends exactly one request to the Judge, after both
    branches and as its last call, whether it then returns or raises; what
    it returns carries both results, no reason, and the winner and the
    confidence read from the judgment. *)
Theorem compare_with_judge_one_judge_call
    (question : string) (t t1 t2 : trace) (rag : rag_result)
    (cypher : string) (results : list record) (result_count : nat)
    (formatted_results answer : string) (graph : graph_data) (time : Q) :
  query question false t = (inr rag, t1) ->
  kg_query_with_explanation question t1
  = (inr (KgOk cypher results result_count formatted_results answer graph
            time), t2) ->
  let req := judge_request (judgment_prompt question rag cypher answer
                              result_count time formatted_results) in
  snd (compare_with_judge question t) = EvChat req :: t2
  /\ judge_calls (EvChat req :: t2) = Datatypes.S (judge_calls t)
  /\ forall c,
       fst (compare_with_judge question t) = inr c ->
       cmp_question c = question
       /\ cmp_rag_result c = rag
       /\ cmp_kg_result c
          = KgOk cypher results result_count formatted_results answer graph time
       /\ cmp_reason c = None
       /\ exists d,
            cmp_judgment c = Some d
            /\ cmp_winner c = dict_get "winner" VNone d
            /\ cmp_confidence c = Some (dict_get "confidence" VNone d).
Proof.
  intros Hrag Hkg req. split; [| split].
  - unfold compare_with_judge. rewrite bind_eq, Hrag, bind_eq, Hkg, bind_eq.
    destruct (ask_judge_trace
                (judgment_prompt question rag cypher answer result_count time
                   formatted_results) t2) as [v Hv].
    rewrite Hv, bind_eq.
    pose proof (display_verdict_silent v (EvChat req :: t2)) as Hd.
    fold req.
    destruct (display_verdict v (EvChat req :: t2)) as [[e | u] t3];
      simpl in Hd; subst t3; [reflexivity |].
    rewrite bind_eq. destruct v; reflexivity.
  - subst req. rewrite judge_calls_judge_request. f_equal.
    destruct (emits_query question false t) as [evs1 [E1 F1]].
    destruct (emits_kg_query_with_explanation question t1) as [evs2 [E2 F2]].
    rewrite Hrag in E1. rewrite Hkg in E2.
    unfold trace_of_M in *. simpl in E1, E2. subst t1 t2.
    rewrite !judge_calls_no_judge by assumption. reflexivity.
  - intros c. unfold compare_with_judge.
    rewrite bind_eq, Hrag, bind_eq, Hkg, bind_eq.
    destruct (ask_judge_trace
                (judgment_prompt question rag cypher answer result_count time
                   formatted_results) t2) as [v Hv].
    rewrite Hv, bind_eq.
    destruct (display_verdict v _) as [[e | u] t3]; [intros H; discriminate H |].
    rewrite bind_eq.
    destruct v; simpl; intros H; try discriminate H.
    inversion H. subst c. simpl. repeat split. eauto.
Qed.

(** X14.  When the completion call of the Judge raises, [compare_with_judge]
    still returns: the judgment is [{"error": str(e)}], the winner and the
    confidence are [None], and both results are attached. *)
Theorem compare_with_judge_judge_down
    (question : string) (t t1 t2 : trace) (rag : rag_result)
    (cypher : string) (results : list record) (result_count : nat)
    (formatted_results answer : string) (graph : graph_data) (time : Q)
    (e : exn) :
  query question false t = (inr rag, t1) ->
  kg_query_with_explanation question t1
  = (inr (KgOk cypher results result_count formatted_results answer graph
            time), t2) ->
  chat_completions_create W t2
    (judge_request (judgment_prompt question rag cypher answer result_count
                      time formatted_results)) = inl e ->
  compare_with_judge question t
  = (inr {| cmp_question := question;
            cmp_winner := VNone;
            cmp_reason := None;
            cmp_confidence := Some VNone;
            cmp_judgment := Some [("error", VStr (exn_str e))];
            cmp_rag_result := rag;
            cmp_kg_result :=
              KgOk cypher results result_count formatted_results answer graph
                time |},
     EvChat (judge_request (judgment_prompt question rag cypher answer
                              result_count time formatted_results)) :: t2).
Proof.
  intros Hrag Hkg Hdown.
  unfold compare_with_judge. rewrite bind_eq, Hrag, bind_eq, Hkg, bind_eq.
  unfold ask_judge, try_except. rewrite bind_eq. unfold chat.
  rewrite Hdown. reflexivity.
Qed.

Lemma display_verdict_needs_dict (v : value) (t : trace) :
  is_dict v = false ->
  exists e,
    bind (display_verdict v) (fun _ => as_dict v) t = (inl e, t)
    /\ (exn_class e = "TypeError" \/ exn_class e = "AttributeError").
Proof.
  intros Hv. unfold display_verdict.
  destruct v as [| b | z | q | s | l | d]; try discriminate Hv;
    try (eexists; split; [reflexivity | left; reflexivity]).
  - rewrite !bind_eq. unfold py_in, ret.
    destruct (PyStr.contains "error" s).
    + eexists; split; [reflexivity | left; reflexivity].
    + rewrite bind_eq. destruct (PyStr.contains "raw_text" s).
      * eexists; split; [reflexivity | left; reflexivity].
      * eexists; split; [reflexivity | right; reflexivity].
  - rewrite !bind_eq. unfold py_in, ret.
    destruct (existsb (key_eqb (VStr "error")) l).
    + eexists; split; [reflexivity | left; reflexivity].
    + rewrite bind_eq. destruct (existsb (key_eqb (VStr "raw_text")) l).
      * eexists; split; [reflexivity | left; reflexivity].
      * eexists; split; [reflexivity | right; reflexivity].
Qed.

(** X15.  A judgment that is not a JSON object (a list, a string, a number,
    a boolean or [null]) makes [compare_with_judge] raise a [TypeError] or
    an [AttributeError] after the Judge has answered: nothing catches what
    the verdict display raises. *)
Theorem compare_with_judge_needs_object
    (question : string) (t t1 t2 t3 : trace) (rag : rag_result)
    (cypher : string) (results : list record) (result_count : nat)
    (formatted_results answer : string) (graph : graph_data) (time : Q)
    (v : value) :
  query question false t = (inr rag, t1) ->
  kg_query_with_explanation question t1
  = (inr (KgOk cypher results result_count formatted_results answer graph
            time), t2) ->
  ask_judge (judgment_prompt question rag cypher answer result_count time
               formatted_results) t2 = (inr v, t3) ->
  is_dict v = false ->
  exists e,
    compare_with_judge question t = (inl e, t3)
    /\ (exn_class e = "TypeError" \/ exn_class e = "AttributeError").
Proof.
  intros Hrag Hkg Hj Hv.
  destruct (display_verdict_needs_dict v t3 Hv) as [e [He Hc]].
  exists e. split; [| exact Hc].
  unfold compare_with_judge. rewrite bind_eq, Hrag, bind_eq, Hkg, bind_eq, Hj.
  rewrite bind_eq in He. rewrite bind_eq.
  destruct (display_verdict v t3) as [[e' | u] t4];
    [inversion He; reflexivity |].
  rewrite bind_eq.
  destruct v; try discriminate Hv; simpl in He |- *; inversion He; reflexivity.
Qed.

(** ** The shape of a verdict that was displayed *)

Lemma returns_weaken {S A} (P Q : A -> Prop) (m : SE S A) :
  (forall a, P a -> Q a) -> returns m P -> returns m Q.
Proof. intros H Hm s a s' E. apply H. eapply Hm. exact E. Qed.

Lemma returns_winner_map_get (w : value) :
  returns (winner_map_get w) (fun _ => hashable w = true).
Proof.
  unfold winner_map_get. destruct (hashable w);
    [apply returns_ret; reflexivity | apply returns_raise].
Qed.

Lemma returns_py_upper (v : value) :
  returns (py_upper v) (fun _ => exists s, v = VStr s).
Proof.
  destruct v; simpl; try apply returns_raise.
  apply returns_ret. eauto.
Qed.

Lemma dict_get_find (key : string) (d : record) :
  truthy (dict_get key VNone d) = true ->
  dict_find key d = Some (dict_get key VNone d).
Proof.
  unfold dict_get. destruct (dict_find key d); [reflexivity | discriminate].
Qed.

Lemma returns_display_items (key : string) (d : record) :
  returns (display_items key d)
    (fun _ => truthy (dict_get key VNone d) = true ->
              iterable (dict_get key VNone d) = true).
Proof.
  unfold display_items.
  destruct (truthy (dict_get key VNone d)) eqn:Ht;
    [| apply returns_ret; intros H; discriminate H].
  unfold getitem. rewrite (dict_get_find key d Ht).
  intros s u s' E _. rewrite bind_eq in E. unfold ret at 1 in E.
  rewrite bind_eq in E.
  destruct (dict_get key VNone d); try discriminate E; reflexivity.
Qed.

Lemma display_verdict_displayable (d : record) :
  dict_has "error" d = false -> dict_has "raw_text" d = false ->
  returns (display_verdict (VDict d)) (fun _ => displayable d).
Proof.
  intros He Hr. unfold display_verdict.
  intros s u s' E.
  rewrite bind_eq in E. unfold py_in at 1, ret at 1 in E. rewrite He in E.
  rewrite bind_eq in E. unfold py_in at 1, ret at 1 in E. rewrite Hr in E.
  rewrite bind_eq in E. unfold as_dict at 1, ret at 1 in E.
  revert s u s' E.
  change (returns
            (_ <- winner_map_get (dict_get "winner" (VStr "UNKNOWN") d) ;;
             _ <- py_upper (dict_get "confidence" (VStr "unknown") d) ;;
             display_items "strengths_a" d ;;;
             display_items "strengths_b" d ;;;
             display_items "weaknesses_a" d ;;;
             display_items "weaknesses_b" d)
            (fun _ => displayable d)).
  eapply returns_bind_with; [apply returns_winner_map_get |]. intros ? Hw.
  eapply returns_bind_with; [apply returns_py_upper |]. intros ? Hc.
  eapply returns_bind_with; [apply (returns_display_items "strengths_a") |].
  intros ? H1.
  eapply returns_bind_with; [apply (returns_display_items "strengths_b") |].
  intros ? H2.
  eapply returns_bind_with; [apply (returns_display_items "weaknesses_a") |].
  intros ? H3.
  eapply returns_weaken; [| apply (returns_display_items "weaknesses_b")].
  intros ? H4. split; [exact Hw | split; [exact Hc |]].
  intros key [<- | [<- | [<- | [<- | []]]]]; assumption.
Qed.

(** X16.  A comparison that [compare_with_judge] returns with a judgment
    that has neither an [error] nor a [raw_text] key went through the
    verdict display: its winner is hashable, its confidence (when present)
    is a string, and its non-empty strengths and weaknesses are iterable. *)
Theorem compare_with_judge_verdict_shape
    (question : string) (t t' : trace) (c : comparison) (d : record) :
  compare_with_judge question t = (inr c, t') ->
  cmp_judgment c = Some d ->
  dict_has "error" d = false -> dict_has "raw_text" d = false ->
  displayable d /\ hashable (cmp_winner c) = true.
Proof.
  intros Hc. revert d.
  change ((fun c => forall d, cmp_judgment c = Some d ->
                     dict_has "error" d = false ->
                     dict_has "raw_text" d = false ->
                     displayable d /\ hashable (cmp_winner c) = true) c).
  revert t c t' Hc.
  change (returns (compare_with_judge question)
            (fun c => forall d, cmp_judgment c = Some d ->
                       dict_has "error" d = false ->
                       dict_has "raw_text" d = false ->
                       displayable d /\ hashable (cmp_winner c) = true)).
  unfold compare_with_judge.
  apply returns_bind. intros rag. apply returns_bind. intros kg.
  destruct kg as [error answer time
                 | cypher results n formatted answer graph time].
  - apply returns_ret. intros d H. discriminate H.
  - apply returns_bind. intros v.
    intros s c s' E. rewrite bind_eq in E.
    destruct (display_verdict v s) as [[e | u] s1] eqn:Ed; [discriminate E |].
    rewrite bind_eq in E.
    destruct v as [| | | | | | d0]; try discriminate E.
    simpl in E. inversion E. subst c. clear E. simpl.
    intros d Hd He Hr. inversion Hd. subst d0.
    pose proof (display_verdict_displayable d He Hr _ _ _ Ed) as Hs.
    split; [exact Hs |].
    destruct Hs as [Hw _]. unfold dict_get in *.
    destruct (dict_find "winner" d); [exact Hw | reflexivity].
Qed.

(** ** The batch: pauses and alignment *)











Lemma percent_positive (wins total : nat) :
  total <> 0 -> exists text, percent wins total = inr text.
Proof. destruct total; [contradiction | intros _; eexists; reflexivity]. Qed.

Lemma winner_listing_class qs rs e :
  winner_listing qs rs = inl e -> exn_class e = "TypeError".
Proof.
  revert rs. induction qs as [| q qs IH]; intros rs H; [discriminate H |].
  destruct rs as [| r rs]; [discriminate H |].
  simpl in H. destruct (hashable (cmp_winner r)).
  - destruct (winner_listing qs rs) as [e' | l] eqn:E; [| discriminate H].
    inversion H. subst. eapply IH. exact E.
  - inversion H. reflexivity.
Qed.

(** X18.  Once the data check and the comparisons have returned, the batch
    raises [ZeroDivisionError] exactly when the list of questions is empty:
    the percentages divide by the number of questions. *)
Theorem batch_empty_division_by_zero
    (questions : list string) (t t1 t2 : trace) (results : list comparison) :
  ensure_data t = (inr tt, t1) ->
  judge_all questions t1 = (inr results, t2) ->
  batch_judge_questions questions t = (inl ZeroDivisionError, t2)
  <-> questions = [].
Proof.
  intros He Hj. unfold batch_judge_questions.
  rewrite bind_eq, He, bind_eq, Hj, bind_eq. unfold lift_result.
  split.
  - destruct questions as [| q qs]; [reflexivity |].
    intros H. exfalso.
    unfold aggregate_statistics in H.
    destruct (percent_positive (count_winner "A" results)
                (List.length (q :: qs))) as [rp Hrp]; [discriminate |].
    destruct (percent_positive (count_winner "B" results)
                (List.length (q :: qs))) as [kp Hkp]; [discriminate |].
    destruct (percent_positive (count_winner "TIE" results)
                (List.length (q :: qs))) as [tp Htp]; [discriminate |].
    cbv zeta in H. rewrite Hrp, Hkp, Htp in H.
    destruct (winner_listing (q :: qs) results) as [e | l] eqn:El;
      [| discriminate H].
    apply winner_listing_class in El.
    inversion H as [He']. rewrite He' in El. discriminate El.
  - intros ->. reflexivity.
Qed.

(** ** The embeddings of the articles *)




(** ** The RAG result, the schema and the data check *)

(** X20.  In every result of [query] the sources are those read off the
    context of the same result; with an empty context the answer is the
    canned one and there is no source. *)
Theorem rag_result_coherent
    (question : string) (use_vector_search : bool) (t t' : trace)
    (rag : rag_result) :
  query question use_vector_search t = (inr rag, t') ->
  rag_sources rag = extract_sources (rag_context rag)
  /\ (rag_context rag = EmptyString ->
      rag_answer rag = no_information_answer /\ rag_sources rag = []).
Proof.
  revert t rag t'.
  change (returns (query question use_vector_search)
            (fun rag =>
               rag_sources rag = extract_sources (rag_context rag)
               /\ (rag_context rag = EmptyString ->
                   rag_answer rag = no_information_answer
                   /\ rag_sources rag = []))).
  unfold query. apply returns_bind. intros start_time.
  apply returns_bind. intros context.
  destruct (String.eqb context EmptyString) eqn:E.
  - apply returns_bind. intros t1. apply returns_ret. simpl.
    split; [reflexivity | intros _; split; reflexivity].
  - apply returns_bind. intros answer. apply returns_bind. intros t1.
    apply returns_ret. simpl. split; [reflexivity |].
    intros H. rewrite H in E. discriminate E.
Qed.



(** X22.  On a database whose node count is not zero, nothing is loaded and
    no embedding is created: [quick_ask_with_judge] is the comparison run
    after the count query, and a batch of one question is that comparison
    followed by the statistics. *)
Theorem loaded_database_goes_straight_to_comparison
    (question : string) (t : trace) (first : record) (rest : list record)
    (n : value) :
  session_run W t "MATCH (n) RETURN count(n) as count" [] = inr (first :: rest) ->
  dict_find "count" first = Some n ->
  key_eqb n (VInt 0) = false ->
  let t1 := EvQuery "MATCH (n) RETURN count(n) as count" [] :: t in
  ensure_data t = (inr tt, t1)
  /\ quick_ask_with_judge question t = compare_with_judge question t1
  /\ batch_judge_questions [question] t
     = match compare_with_judge question t1 with
       | (inr c, t2) =>
           (match aggregate_statistics [question] [c] with
            | inr report => inr ([c], report)
            | inl e => inl e
            end, t2)
       | (inl e, t2) => (inl e, t2)
       end.
Proof.
  intros Hc Hn Hz t1.
  assert (He : ensure_data t = (inr tt, t1)).
  { unfold ensure_data, bind, execute_query, index, getitem.
    rewrite Hc. change (nth_error (first :: rest) 0) with (Some first).
    unfold ret at 1. cbv beta iota. rewrite Hn.
    unfold ret at 1. cbv beta iota. rewrite Hz. reflexivity. }
  split; [exact He | split].
  - unfold quick_ask_with_judge, bind, execute_query, index, getitem.
    rewrite Hc. change (nth_error (first :: rest) 0) with (Some first).
    unfold ret at 1. cbv beta iota. rewrite Hn.
    unfold ret at 1. cbv beta iota. rewrite Hz. reflexivity.
  - unfold batch_judge_questions. rewrite bind_eq, He, bind_eq.
    change (judge_all [question])
      with (result <- compare_with_judge question ;;
            ret tt ;;;
            results <- ret [] ;;
            ret (result :: results)).
    rewrite bind_eq.
    destruct (compare_with_judge question t1) as [[e | c] t2]; [reflexivity |].
    rewrite bind_eq. unfold ret at 1. rewrite bind_eq. unfold ret at 1.
    unfold ret at 1. rewrite bind_eq. unfold lift_result.
    destruct (aggregate_statistics [question] [c]); reflexivity.
Qed.

End Engine.

(** * Instances *)

(** The empty corpus: keyword retrieval finds nothing, the answer is the
    canned one and the model is not called. *)
Lemma query_empty_context_witness :
  let t1 := [ EvQuery keyword_cypher_query
                [ ("keywords",
                   VList (map VStr (PyStr.split_ws
                                      (PyStr.lower collaborators_question))));
                  ("limit", VInt 5) ];
              EvTime ] in
  retrieve empty_corpus repr_fixed collaborators_question false [EvTime]
  = (inr EmptyString, t1)
  /\ fst (query empty_corpus repr_fixed collaborators_question false [])
     = inr {| rag_answer := no_information_answer;
              rag_context := EmptyString;
              rag_sources := [];
              rag_time := (clock t1 - clock [])%Q |}
  /\ chat_calls (EvTime :: t1) = [].
Proof.
  intros t1.
  assert (H : retrieve empty_corpus repr_fixed collaborators_question false
                [EvTime] = (inr EmptyString, t1)) by (vm_compute; reflexivity).
  destruct (query_empty_context_short_circuit empty_corpus repr_fixed
              collaborators_question false [] t1 H) as [Hq Hc].
  split; [exact H |]. split; [rewrite Hq; reflexivity | exact Hc].
Defined.

(** The model cannot be reached: the translation fails, the KG branch
    fails, RAG wins by default and the Judge is not asked. *)
Lemma compare_with_judge_kg_failed_witness :
  exists rag t1 time t2,
    query llm_down repr_fixed collaborators_question false [] = (inr rag, t1)
    /\ kg_query_with_explanation llm_down repr_fixed insertion_order
         collaborators_question t1
       = (inr (KgFailed
                 "Failed to generate Cypher: Connection error."
                 "Failed to query knowledge graph: Failed to generate Cypher: Connection error."
                 time), t2)
    /\ (let c := fst (compare_with_judge llm_down repr_fixed insertion_order
                        json_rejects collaborators_question []) in
        exists r, c = inr r
                  /\ cmp_winner r = VStr "RAG"
                  /\ cmp_reason r = Some "Knowledge Graph query failed"
                  /\ cmp_judgment r = None)
    /\ judge_calls t2 = 0.
Proof.
  eexists _, _, _, _.
  split; [vm_compute; reflexivity |].
  split; [vm_compute; reflexivity |].
  match goal with
  | |- (let c := fst (compare_with_judge ?W ?fr ?so ?jl ?q ?t) in _) /\ _ =>
      edestruct (compare_with_judge_kg_failed W fr so jl q t) as [Hc Hj];
        [vm_compute; reflexivity | vm_compute; reflexivity |]
  end.
  split.
  - cbv zeta. rewrite Hc. eexists. repeat split.
  - exact Hj.
Defined.


(** The model fails on the explanation only: the KG result is still a
    success, with the fallback answer. *)
Lemma kg_explanation_failure_fallback_witness :
  exists t2 time,
    kg_query_with_explanation explainer_down repr_fixed insertion_order
      collaborators_question []
    = (inr (KgOk
              "MATCH (r:Researcher) RETURN r.name AS name, count(*) AS articles"
              emily_rows 1 (format_kg_results repr_fixed emily_rows)
              "Found 1 results, but failed to generate explanation: Rate limit reached"
              empty_graph time), t2).
Proof.
  edestruct (kg_explanation_failure_fallback explainer_down repr_fixed
               insertion_order collaborators_question [])
    as [t2 [time [H _]]];
    [vm_compute; reflexivity | vm_compute; reflexivity |].
  exists t2, time. exact H.
Defined.

(** One candidate name: the Researcher lookup is sent with that name. *)
Lemma extractor_candidate_limits_witness :
  (forall xs, Permutation (insertion_order xs) xs)
  /\ exists evs,
       snd (_extract_graph_from_results empty_corpus insertion_order
              emily_rows collaborators_question [])
       = (evs ++ [EvQuery graph_query [("names", VList [VStr "Emily Chen"])]])%list.
Proof.
  split; [intros xs; apply Permutation_refl |].
  destruct (extractor_candidate_limits empty_corpus insertion_order
              (fun xs => Permutation_refl xs) emily_rows
              collaborators_question []) as [_ H].
  destruct H as [_ [_ H]]; [discriminate | vm_compute; lia |].
  exact H.
Defined.

(** C3, the claim as written fails at exactly fifty names: the set does
    not exceed the ceiling of fifty, and yet no lookup query is sent. *)
Lemma extractor_ceiling_counterexample :
  List.length (collect_entity_names fifty_rows) = 50
  /\ ~ (exists evs q p,
          snd (_extract_graph_from_results empty_corpus insertion_order
                 fifty_rows collaborators_question [])
          = (evs ++ [EvQuery q p])%list).
Proof.
  split; [vm_compute; reflexivity |].
  intros [evs [q [p H]]].
  assert (E : snd (_extract_graph_from_results empty_corpus insertion_order
                     fifty_rows collaborators_question []) = [])
    by (vm_compute; reflexivity).
  rewrite E in H. clear E. destruct evs; discriminate H.
Qed.

(** A dangling relationship in the lookup answer is dropped, the other one
    is kept. *)
Example extract_drops_dangling :
  fst (_extract_graph_from_results (lookup_world dangling_row) insertion_order
         emily_rows collaborators_question [])
  = inr {| nodes := [emily_node; article_node];
           relationships :=
             [ VDict [("source", VInt 1); ("target", VInt 7);
                      ("type", VStr "PUBLISHED")] ] |}.
Proof. vm_compute. reflexivity. Qed.




(** A comparison whose KG branch failed carries the winner ["RAG"]; the
    batch counts the winners ["A"], so it is not among the RAG wins, and
    the listing shows a question mark for it. *)
Example batch_kg_failed_record :
  exists r report,
    fst (judge_all llm_down repr_fixed insertion_order json_rejects
           [collaborators_question] []) = inr [r]
    /\ cmp_winner r = VStr "RAG"
    /\ aggregate_statistics [collaborators_question] [r] = inr report
    /\ rag_wins report = 0
    /\ rag_wins_percent report = "0.0"
    /\ map snd (question_winners report) = ["?"].
Proof.
  eexists _, _.
  split; [vm_compute; reflexivity |].
  split; [reflexivity |].
  split; [vm_compute; reflexivity |].
  repeat split.
Qed.


(** The keyword context of one article: the source is its title. *)
Example keyword_sources_are_titles :
  exists r,
    fst (query one_article repr_fixed collaborators_question false []) = inr r
    /\ rag_sources r = ["Graph Neural Networks"].
Proof. eexists. split; [vm_compute; reflexivity | reflexivity]. Qed.

(** C9, where the code departs from the claim.  In a vector context the
    line that starts with [Article] carries the similarity and the title is
    on the next line, which [extract_sources] skips: whatever the rank, the
    similarity and the title, the block's source is the tail of the
    similarity.  For one article titled Graph Neural Networks with
    similarity 0.875, the sources are the text [0.875):], not the title. *)
Theorem vector_sources_are_not_titles :
  (forall (i : nat) (similarity : string),
     source_of_line
       ("Article " ++ PyStr.of_nat i ++ " (Similarity: " ++ similarity ++ "):")
     = [PyStr.strip (similarity ++ "):")])
  /\ (forall title : string, source_of_line ("Title: " ++ title) = [])
  /\ exists r,
       fst (query one_article repr_fixed collaborators_question true []) = inr r
       /\ rag_context r
          = PyStr.join PyStr.nl
              [ EmptyString;
                "Article 1 (Similarity: 0.875):";
                "Title: Graph Neural Networks";
                "Authors: Emily Chen, David Johnson";
                "Topics: Artificial Intelligence";
                "Abstract: We study message passing.";
                "---" ]
       /\ rag_sources r = ["0.875):"]
       /\ rag_sources r <> ["Graph Neural Networks"].
Proof.
  split; [exact vector_header_source |].
  split; [exact vector_title_line_source |].
  eexists. split; [vm_compute; reflexivity |].
  split; [vm_compute; reflexivity |].
  split; [reflexivity | discriminate].
Qed.

(** ** Instances of the further properties *)

(** The whole graph of a database with one dangling relationship: both
    relationships are kept, since the ends are not looked up. *)
Lemma get_graph_data_returns_witness :
  exists g t',
    get_graph_data graph_world 50 [] = (inr g, t')
    /\ (t' = [EvQuery (graph_data_query 50) []]
        /\ ids_distinct (nodes g) = true
        /\ forallb has_ends (relationships g) = true).
Proof.
  eexists _, _. split; [vm_compute; reflexivity |].
  apply (get_graph_data_returns graph_world 50 []).
  vm_compute. reflexivity.
Defined.

(** One stored article: the keyword context is not empty. *)
Lemma retrieve_empty_iff_no_row_witness :
  exists context t',
    retrieve one_article repr_fixed collaborators_question false [EvTime]
    = (inr context, t')
    /\ exists q p t0 rows,
         t' = EvQuery q p :: t0
         /\ session_run one_article t0 q p = inr rows
         /\ (context = EmptyString <-> rows = []).
Proof.
  eexists _, _. split; [vm_compute; reflexivity |].
  apply (retrieve_empty_iff_no_row one_article repr_fixed
           collaborators_question false [EvTime]).
  vm_compute. reflexivity.
Defined.

(** The embedding service is down: vector search raises out of [query]. *)
Lemma query_embedding_failure_propagates_witness :
  exists e,
    embeddings_create embeddings_down [EvTime] embedding_model
      collaborators_question = inl e
    /\ query embeddings_down repr_fixed collaborators_question true []
       = (inl e, [EvEmbed embedding_model collaborators_question; EvTime]).
Proof.
  eexists. split; [vm_compute; reflexivity |].
  apply (query_embedding_failure_propagates embeddings_down repr_fixed
           collaborators_question []).
  vm_compute. reflexivity.
Defined.

(** The database is gone after the keyword search: the schema query raises
    and the whole comparison raises with it. *)
Lemma schema_failure_propagates_witness :
  exists rag t e t1,
    query search_only_db repr_fixed collaborators_question false []
    = (inr rag, t)
    /\ get_graph_schema search_only_db repr_fixed (EvTime :: EvTime :: t)
       = (inl e, t1)
    /\ (text_to_cypher search_only_db repr_fixed collaborators_question
          (EvTime :: EvTime :: t) = (inl e, t1)
        /\ execute_text_to_cypher search_only_db repr_fixed insertion_order
             collaborators_question (EvTime :: t) = (inl e, t1)
        /\ kg_query_with_explanation search_only_db repr_fixed insertion_order
             collaborators_question t = (inl e, t1)
        /\ compare_with_judge search_only_db repr_fixed insertion_order
             json_rejects collaborators_question [] = (inl e, t1)).
Proof.
  eexists _, _, _, _.
  split; [vm_compute; reflexivity |].
  split; [vm_compute; reflexivity |].
  eapply (schema_failure_propagates search_only_db repr_fixed insertion_order
            json_rejects collaborators_question []);
    vm_compute; reflexivity.
Defined.

(** A query between fences. *)
Lemma clean_cypher_removes_fence_witness :
  no_backtick "  MATCH (n) RETURN n LIMIT 20 "
  /\ (clean_cypher "  MATCH (n) RETURN n LIMIT 20 "
      = PyStr.strip "  MATCH (n) RETURN n LIMIT 20 "
      /\ clean_cypher ("```cypher" ++ PyStr.nl
                       ++ "  MATCH (n) RETURN n LIMIT 20 " ++ PyStr.nl ++ "```")
         = PyStr.strip "  MATCH (n) RETURN n LIMIT 20 "
      /\ clean_cypher ("```" ++ PyStr.nl
                       ++ "  MATCH (n) RETURN n LIMIT 20 " ++ PyStr.nl ++ "```")
         = PyStr.strip "  MATCH (n) RETURN n LIMIT 20 ").
Proof.
  split; [vm_compute; reflexivity |].
  apply clean_cypher_removes_fence. vm_compute. reflexivity.
Defined.

(** A fenced verdict with text around the fence. *)
Lemma parse_judgment_fenced_witness :
  no_backtick "My evaluation: "
  /\ no_backtick (PyStr.nl ++ "verdict A" ++ PyStr.nl)
  /\ no_backtick (PyStr.nl ++ "Done.")
  /\ parse_judgment json_verdicts
       ("My evaluation: " ++ "```json" ++ (PyStr.nl ++ "verdict A" ++ PyStr.nl)
        ++ "```" ++ PyStr.nl ++ "Done.") []
     = match json_verdicts (PyStr.strip (PyStr.nl ++ "verdict A" ++ PyStr.nl)) with
       | inr judgment => (inr judgment, [])
       | inl e =>
           if String.eqb (exn_class e) "JSONDecodeError"
           then (inr (VDict [("raw_text",
                              VStr (PyStr.strip
                                      (PyStr.nl ++ "verdict A" ++ PyStr.nl)))]),
                 [])
           else (inl e, [])
       end.
Proof.
  split; [vm_compute; reflexivity |].
  split; [vm_compute; reflexivity |].
  split; [vm_compute; reflexivity |].
  apply (parse_judgment_fenced json_verdicts); vm_compute; reflexivity.
Defined.

(** The explanation fails, the KG result is a success and is coherent. *)
Lemma kg_result_coherent_witness :
  exists r t',
    kg_query_with_explanation explainer_down repr_fixed insertion_order
      collaborators_question [] = (inr r, t')
    /\ kg_coherent repr_fixed r.
Proof.
  eexists _, _. split; [vm_compute; reflexivity |].
  eapply (kg_result_coherent explainer_down repr_fixed insertion_order
            collaborators_question []).
  vm_compute. reflexivity.
Defined.

(** A judged comparison: one request to the Judge. *)
Lemma compare_with_judge_one_judge_call_witness :
  exists rag t1 cypher results result_count formatted_results answer graph
         time t2,
    query judging_world repr_fixed collaborators_question false []
    = (inr rag, t1)
    /\ kg_query_with_explanation judging_world repr_fixed insertion_order
         collaborators_question t1
       = (inr (KgOk cypher results result_count formatted_results answer
                 graph time), t2)
    /\ judge_calls
         (snd (compare_with_judge judging_world repr_fixed insertion_order
                 json_verdicts collaborators_question [])) = 1.
Proof.
  eexists _, _, _, _, _, _, _, _, _, _.
  split; [vm_compute; reflexivity |].
  split; [vm_compute; reflexivity |].
  edestruct (compare_with_judge_one_judge_call judging_world repr_fixed
               insertion_order json_verdicts collaborators_question [])
    as [Hs [Hj _]]; [vm_compute; reflexivity | vm_compute; reflexivity |].
  rewrite Hs, Hj. reflexivity.
Defined.

(** The first verdict of [judging_world] went through the display. *)
Lemma compare_with_judge_verdict_shape_witness :
  exists c t' d,
    compare_with_judge judging_world repr_fixed insertion_order json_verdicts
      collaborators_question [] = (inr c, t')
    /\ cmp_judgment c = Some d
    /\ dict_has "error" d = false
    /\ dict_has "raw_text" d = false
    /\ (displayable d /\ hashable (cmp_winner c) = true).
Proof.
  eexists _, _, _.
  split; [vm_compute; reflexivity |].
  split; [reflexivity |].
  split; [reflexivity |].
  split; [reflexivity |].
  eapply (compare_with_judge_verdict_shape judging_world repr_fixed
            insertion_order json_verdicts collaborators_question []);
    vm_compute; reflexivity.
Defined.

(** The Judge cannot be reached: the comparison returns an error judgment
    and no winner. *)
Lemma compare_with_judge_judge_down_witness :
  exists rag t1 cypher results result_count formatted_results answer graph
         time t2 e c,
    query judge_down repr_fixed collaborators_question false []
    = (inr rag, t1)
    /\ kg_query_with_explanation judge_down repr_fixed insertion_order
         collaborators_question t1
       = (inr (KgOk cypher results result_count formatted_results answer
                 graph time), t2)
    /\ chat_completions_create judge_down t2
         (judge_request (judgment_prompt collaborators_question rag cypher answer
                           result_count time formatted_results)) = inl e
    /\ fst (compare_with_judge judge_down repr_fixed insertion_order
              json_rejects collaborators_question []) = inr c
    /\ cmp_winner c = VNone
    /\ cmp_judgment c = Some [("error", VStr "Request timed out.")].
Proof.
  eexists _, _, _, _, _, _, _, _, _, _, _, _.
  split; [vm_compute; reflexivity |].
  split; [vm_compute; reflexivity |].
  split; [vm_compute; reflexivity |].
  erewrite (compare_with_judge_judge_down judge_down repr_fixed
              insertion_order json_rejects collaborators_question []);
    [| vm_compute; reflexivity | vm_compute; reflexivity
     | vm_compute; reflexivity].
  repeat split.
Defined.

(** The Judge answers with a JSON list: the comparison raises. *)
Lemma compare_with_judge_needs_object_witness :
  exists rag t1 cypher results result_count formatted_results answer graph
         time t2 v t3,
    query judging_world repr_fixed collaborators_question false []
    = (inr rag, t1)
    /\ kg_query_with_explanation judging_world repr_fixed insertion_order
         collaborators_question t1
       = (inr (KgOk cypher results result_count formatted_results answer
                 graph time), t2)
    /\ ask_judge judging_world json_list
         (judgment_prompt collaborators_question rag cypher answer
            result_count time formatted_results) t2 = (inr v, t3)
    /\ is_dict v = false
    /\ exists e,
         compare_with_judge judging_world repr_fixed insertion_order json_list
           collaborators_question [] = (inl e, t3)
         /\ (exn_class e = "TypeError" \/ exn_class e = "AttributeError").
Proof.
  eexists _, _, _, _, _, _, _, _, _, _, _, _.
  split; [vm_compute; reflexivity |].
  split; [vm_compute; reflexivity |].
  split; [vm_compute; reflexivity |].
  split; [reflexivity |].
  eapply (compare_with_judge_needs_object judging_world repr_fixed
            insertion_order json_list collaborators_question []);
    vm_compute; reflexivity.
Defined.


(** An empty batch on a loaded database. *)
Lemma batch_empty_division_by_zero_witness :
  exists t1 results t2,
    ensure_data judging_world repr_fixed [] = (inr tt, t1)
    /\ judge_all judging_world repr_fixed insertion_order json_verdicts []
         t1 = (inr results, t2)
    /\ (batch_judge_questions judging_world repr_fixed insertion_order
          json_verdicts [] [] = (inl ZeroDivisionError, t2)
        <-> @nil string = []).
Proof.
  eexists _, _, _.
  split; [vm_compute; reflexivity |].
  split; [vm_compute; reflexivity |].
  eapply (batch_empty_division_by_zero judging_world repr_fixed
            insertion_order json_verdicts [] []);
    vm_compute; reflexivity.
Defined.


(** One stored article: the sources of the result come from its context. *)
Lemma rag_result_coherent_witness :
  exists rag t',
    query one_article repr_fixed collaborators_question false []
    = (inr rag, t')
    /\ (rag_sources rag = extract_sources (rag_context rag)
        /\ (rag_context rag = EmptyString ->
            rag_answer rag = no_information_answer /\ rag_sources rag = [])).
Proof.
  eexists _, _. split; [vm_compute; reflexivity |].
  eapply (rag_result_coherent one_article repr_fixed collaborators_question
            false []).
  vm_compute. reflexivity.
Defined.


(** A loaded database: the count is five and nothing is loaded. *)
Lemma loaded_database_goes_straight_to_comparison_witness :
  session_run judging_world [] "MATCH (n) RETURN count(n) as count" []
  = inr ([("count", VInt 5)] :: [])
  /\ dict_find "count" [("count", VInt 5)] = Some (VInt 5)
  /\ key_eqb (VInt 5) (VInt 0) = false
  /\ ensure_data judging_world repr_fixed []
     = (inr tt, [EvQuery "MATCH (n) RETURN count(n) as count" []])
  /\ quick_ask_with_judge judging_world repr_fixed insertion_order
       json_verdicts collaborators_question []
     = compare_with_judge judging_world repr_fixed insertion_order
         json_verdicts collaborators_question
         [EvQuery "MATCH (n) RETURN count(n) as count" []].
Proof.
  split; [vm_compute; reflexivity |].
  split; [vm_compute; reflexivity |].
  split; [vm_compute; reflexivity |].
  destruct (loaded_database_goes_straight_to_comparison judging_world
              repr_fixed insertion_order json_verdicts collaborators_question
              [] [("count", VInt 5)] [] (VInt 5))
    as [He [Hq _]]; [vm_compute; reflexivity | vm_compute; reflexivity
                    | vm_compute; reflexivity |].
  split; [exact He | exact Hq].
Defined.

(** ** The string operations on examples *)

Example split_colon :
  PyStr.split_max ":" 1 "Article 1: A: B" = ["Article 1"; " A: B"].
Proof. reflexivity. Qed.

Example split_fence :
  PyStr.split "```" "x```json{}```y" = ["x"; "json{}"; "y"].
Proof. reflexivity. Qed.

Example split_ws_ex : PyStr.split_ws "  who  is Emily " = ["who"; "is"; "Emily"].
Proof. reflexivity. Qed.

Example strip_ex : PyStr.strip "  a b  " = "a b".
Proof. reflexivity. Qed.

Example format_3f_ex : PyStr.format_f 3 (7 # 8)%Q = "0.875".
Proof. reflexivity. Qed.

Example format_1f_ex : PyStr.format_f 1 ((1 # 3) * 100)%Q = "33.3".
Proof. reflexivity. Qed.

Example format_2f_ex : PyStr.format_f 2 (-(1 # 8))%Q = "-0.12".
Proof. reflexivity. Qed.

Example replace_ex :
  PyStr.replace "```" EmptyString "```MATCH (n)``` " = "MATCH (n) ".
Proof. reflexivity. Qed.

Example repr_list_ex :
  py_str (fun _ => "?") (VList [VStr "a'b"; VInt (-3); VNone; VBool true])
  = "[" ++ PyStr.dq ++ "a'b" ++ PyStr.dq ++ ", -3, None, True]".
Proof. reflexivity. Qed.
